(** * gerenciador_tarefas: the task manager and its storage gateway

    A shallow embedding of [gerenciador_tarefas.py]: the storage gateway
    [BancoDeDados], the value object [Tarefa] and the interactive
    [GerenciadorTarefas], followed by the properties of the specification.

    Python strings are sequences of Unicode code points, so [len] is
    [length]; the database, the console, the clock and the logger are
    fields of one explicit world that every method threads through. *)

From Stdlib Require Import ZArith NArith List Bool String Ascii Lia.
Import ListNotations.

Local Open Scope Z_scope.

(* ================================================================== *)
(** ** Python strings *)

Module PyStr.

(** A [str] is a list of code points. *)
Definition pystr := list N.

Fixpoint eqb (a b : pystr) : bool :=
  match a, b with
  | [], [] => true
  | x :: a', y :: b' => N.eqb x y && eqb a' b'
  | _, _ => false
  end.

(** UTF-8 decoding of the bytes of a source literal (one-, two- and
    three-byte sequences, which cover every literal of the program). *)
Fixpoint utf8 (bs : list N) (fuel : nat) : pystr :=
  match fuel with
  | O => []
  | S fuel' =>
      match bs with
      | [] => []
      | b0 :: r0 =>
          if (b0 <? 128)%N then b0 :: utf8 r0 fuel'
          else if (b0 <? 224)%N then
            match r0 with
            | b1 :: r1 => ((b0 - 192) * 64 + (b1 - 128))%N :: utf8 r1 fuel'
            | [] => []
            end
          else
            match r0 with
            | b1 :: b2 :: r2 =>
                ((b0 - 224) * 4096 + (b1 - 128) * 64 + (b2 - 128))%N
                  :: utf8 r2 fuel'
            | _ => []
            end
      end
  end.

Fixpoint bytes_of (s : string) : list N :=
  match s with
  | EmptyString => []
  | String c s' => N_of_ascii c :: bytes_of s'
  end.

Definition txt (s : string) : pystr :=
  let bs := bytes_of s in utf8 bs (List.length bs).

(** [str.lower] on one code point: Basic Latin [A-Z] and the Latin-1
    capitals [U+00C0-U+00DE] (without the multiplication sign [U+00D7])
    move down by 32.  Code points outside these two blocks are left as
    they are; no capital outside them lowers to a letter of
    ["concluída"], the only string the program compares against. *)
Definition lower_cp (c : N) : N :=
  if ((65 <=? c) && (c <=? 90))%N then (c + 32)%N
  else if ((192 <=? c) && (c <=? 222) && negb (c =? 215))%N then (c + 32)%N
  else c.

Definition lower (s : pystr) : pystr := map lower_cp s.

(** [str(n)] for an [int]. *)
Fixpoint cp_uint (d : Decimal.uint) : pystr :=
  match d with
  | Decimal.Nil => []
  | Decimal.D0 d' => 48%N :: cp_uint d'
  | Decimal.D1 d' => 49%N :: cp_uint d'
  | Decimal.D2 d' => 50%N :: cp_uint d'
  | Decimal.D3 d' => 51%N :: cp_uint d'
  | Decimal.D4 d' => 52%N :: cp_uint d'
  | Decimal.D5 d' => 53%N :: cp_uint d'
  | Decimal.D6 d' => 54%N :: cp_uint d'
  | Decimal.D7 d' => 55%N :: cp_uint d'
  | Decimal.D8 d' => 56%N :: cp_uint d'
  | Decimal.D9 d' => 57%N :: cp_uint d'
  end.

Definition str_int (z : Z) : pystr :=
  if z <? 0 then 45%N :: cp_uint (N.to_uint (Z.to_N (- z)))
  else cp_uint (N.to_uint (Z.to_N z)).

(** Zero-padded decimal, as [%0wd] prints a non-negative field. *)
Definition pad (w : nat) (z : Z) : pystr :=
  let d := str_int z in
  repeat 48%N (w - List.length d) ++ d.

End PyStr.
Import PyStr.

(* ================================================================== *)
(** ** Python values, log records and SQL statements *)

(** [datetime.datetime]: the fields the object stores. *)
Record datetime := {
  ano : Z; mes : Z; dia : Z;
  hora : Z; minuto : Z; segundo : Z; microssegundo : Z
}.

(** The values that flow between the console, the manager and the
    cursor: [None], [int], [str] and [datetime]. *)
Inductive valor :=
| VNone
| VInt (n : Z)
| VStr (s : pystr)
| VData (d : datetime).

(** A result row, and the tuple of bound parameters of a statement. *)
Definition tupla := list valor.

(** [str(datetime)] is [isoformat(sep=' ')]. *)
Definition str_datetime (d : datetime) : pystr :=
  pad 4 (ano d) ++ txt "-" ++ pad 2 (mes d) ++ txt "-" ++ pad 2 (dia d)
  ++ txt " " ++ pad 2 (hora d) ++ txt ":" ++ pad 2 (minuto d)
  ++ txt ":" ++ pad 2 (segundo d)
  ++ (if microssegundo d =? 0 then [] else txt "." ++ pad 6 (microssegundo d)).

(** [str(v)]. *)
Definition py_str (v : valor) : pystr :=
  match v with
  | VNone => txt "None"
  | VInt n => str_int n
  | VStr s => s
  | VData d => str_datetime d
  end.

(** Truth value of [v] in a condition ([if v], [not v]). *)
Definition py_bool (v : valor) : bool :=
  match v with
  | VNone => false
  | VInt n => negb (n =? 0)
  | VStr s => match s with [] => false | _ :: _ => true end
  | VData _ => true
  end.

(** [v is None]. *)
Definition is_None (v : valor) : bool :=
  match v with VNone => true | _ => false end.

(** [mysql.connector.Error], with its [errno]. *)
Record Error := { errno : Z }.

(** The exceptions the program can meet. *)
Inductive excecao :=
| MySQLError (e : Error)
| EOFError
| AttributeError
| IndexError
| ValueError.

(** The statements the program sends, one constructor per SQL literal of
    the source. *)
Inductive sql :=
| SQL_CREATE_TABLE   (* CREATE TABLE IF NOT EXISTS tarefas(...) *)
| SQL_INSERT         (* INSERT INTO tarefas (titulo, descricao, responsavel,
                        status, data_criacao, data_conclusao) VALUES (6 x %s) *)
| SQL_SELECT_TUDO    (* SELECT * FROM tarefas *)
| SQL_SELECT_IDS     (* SELECT id FROM tarefas *)
| SQL_SELECT_ATUAIS  (* SELECT titulo, descricao, responsavel, status,
                        data_conclusao FROM tarefas WHERE id=%s *)
| SQL_UPDATE         (* UPDATE tarefas SET titulo=%s, descricao=%s,
                        responsavel=%s, status=%s, data_conclusao=%s
                        WHERE id=%s *)
| SQL_DELETE.        (* DELETE FROM tarefas WHERE id=%s *)

(** [INSERT], [UPDATE] and [DELETE] change stored rows. *)
Definition mutante (c : sql) : bool :=
  match c with
  | SQL_INSERT | SQL_UPDATE | SQL_DELETE => true
  | _ => false
  end.

(** An f-string before rendering: its literal parts and the values of
    its replacement fields. *)
Inductive fragmento :=
| Lit (s : pystr)
| Fmt (v : valor)
| FmtSql (c : sql)
| FmtTupla (t : tupla)
| FmtErro (e : Error).

Definition mensagem := list fragmento.

Definition lit (s : string) : fragmento := Lit (txt s).

(** Levels of the [logging] module, with their numeric values. *)
Inductive nivel := DEBUG | INFO | WARNING | ERROR | CRITICAL.

Definition numero (n : nivel) : Z :=
  match n with
  | DEBUG => 10 | INFO => 20 | WARNING => 30 | ERROR => 40 | CRITICAL => 50
  end.

(** [logging.basicConfig(level=logging.WARNING, ...)]. *)
Definition nivel_configurado : nivel := WARNING.

(** [Logger.isEnabledFor]: a record is handled when its level reaches the
    configured one. *)
Definition isEnabledFor (n : nivel) : bool :=
  numero nivel_configurado <=? numero n.

(** What happens, in order: records handed to [logging], text written to
    the console by [print] and by the prompt of [input], calls of the two
    gateway methods, and calls on the connection and its cursor. *)
Inductive evento :=
| Log (n : nivel) (m : mensagem)
| Print (m : mensagem)
| Prompt (m : mensagem)
| Executar (comando : sql) (parametros : tupla)
| Buscar (comando : sql) (parametros : tupla)
| CursorExecute (comando : sql) (parametros : tupla)
| CursorFetchall
| ConexaoCommit
| CursorClose
| ConexaoClose.

(** What reaches the operator's terminal. *)
Definition visivel (e : evento) : bool :=
  match e with
  | Log n _ => isEnabledFor n
  | Print _ | Prompt _ => true
  | _ => false
  end.

(** A call of the gateway that asks for a change of stored rows. *)
Definition chamada_mutante (e : evento) : bool :=
  match e with
  | Executar c _ => mutante c
  | _ => false
  end.

(** Any call of the gateway or of the connector beneath it. *)
Definition chamada_armazenamento (e : evento) : bool :=
  match e with
  | Log _ _ | Print _ | Prompt _ => false
  | _ => true
  end.

(* ================================================================== *)
(** ** The relational backend *)

(** One row of table [tarefas]; [id] and [titulo] are [NOT NULL]. *)
Record linha := {
  col_id : Z;
  col_titulo : pystr;
  col_descricao : option pystr;
  col_responsavel : option pystr;
  col_status : option pystr;
  col_data_criacao : option datetime;
  col_data_conclusao : option datetime
}.

(** The rows as this session sees them, and the next [AUTO_INCREMENT]. *)
Record Servidor := {
  tabela : list linha;
  prox_id : Z
}.

Definition de_texto (o : option pystr) : valor :=
  match o with Some s => VStr s | None => VNone end.

Definition de_data (o : option datetime) : valor :=
  match o with Some d => VData d | None => VNone end.

(** Binding a parameter to a text or to a [DATETIME] column. *)
Definition para_texto (v : valor) : option (option pystr) :=
  match v with
  | VNone => Some None
  | VStr s => Some (Some s)
  | _ => None
  end.

Definition para_data (v : valor) : option (option datetime) :=
  match v with
  | VNone => Some None
  | VData d => Some (Some d)
  | _ => None
  end.

(** [WHERE id=%s].  The manager binds the text the operator typed, after
    it was found equal to [str] of a fetched id; an [int] column equals
    such a text exactly when it prints as that text. *)
Definition casa_id (p : valor) (r : linha) : bool :=
  match p with
  | VInt n => n =? col_id r
  | VStr s => PyStr.eqb (str_int (col_id r)) s
  | _ => false
  end.

Definition tupla_tudo (r : linha) : tupla :=
  [VInt (col_id r); VStr (col_titulo r); de_texto (col_descricao r);
   de_texto (col_responsavel r); de_texto (col_status r);
   de_data (col_data_criacao r); de_data (col_data_conclusao r)].

Definition tupla_id (r : linha) : tupla := [VInt (col_id r)].

Definition tupla_atuais (r : linha) : tupla :=
  [VStr (col_titulo r); de_texto (col_descricao r);
   de_texto (col_responsavel r); de_texto (col_status r);
   de_data (col_data_conclusao r)].

(** The [SET] list of the [UPDATE]: five columns; [id] and
    [data_criacao] are not among them. *)
Definition reescreve (t : pystr) (d r s : option pystr)
    (dc : option datetime) (l : linha) : linha :=
  {| col_id := col_id l;
     col_titulo := t;
     col_descricao := d;
     col_responsavel := r;
     col_status := s;
     col_data_criacao := col_data_criacao l;
     col_data_conclusao := dc |}.

(** Meaning of one statement with its bound parameters: the new rows and
    the result set (if the statement has one), or [None] when the
    backend rejects it.  A bound value is stored as it is: what the
    column types of the table make of it (a [DATETIME] keeps no
    fraction of a second; the [VARCHAR] columns are bounded) is not
    part of this meaning, so of a timestamp just stored the properties
    only use that it is there. *)
Definition sem_sql (c : sql) (ps : tupla) (s : Servidor)
  : option (Servidor * option (list tupla)) :=
  match c, ps with
  | SQL_CREATE_TABLE, [] => Some (s, None)
  | SQL_INSERT, [VStr t; d; r; st; dcr; dco] =>
      match para_texto d, para_texto r, para_texto st,
            para_data dcr, para_data dco with
      | Some d', Some r', Some st', Some dcr', Some dco' =>
          Some ({| tabela := tabela s ++
                     [{| col_id := prox_id s; col_titulo := t;
                         col_descricao := d'; col_responsavel := r';
                         col_status := st'; col_data_criacao := dcr';
                         col_data_conclusao := dco' |}];
                   prox_id := prox_id s + 1 |}, None)
      | _, _, _, _, _ => None
      end
  | SQL_SELECT_TUDO, [] => Some (s, Some (map tupla_tudo (tabela s)))
  | SQL_SELECT_IDS, [] => Some (s, Some (map tupla_id (tabela s)))
  | SQL_SELECT_ATUAIS, [p] =>
      Some (s, Some (map tupla_atuais (filter (casa_id p) (tabela s))))
  | SQL_UPDATE, [VStr t; d; r; st; dco; p] =>
      match para_texto d, para_texto r, para_texto st, para_data dco with
      | Some d', Some r', Some st', Some dco' =>
          Some ({| tabela :=
                     map (fun l => if casa_id p l
                                   then reescreve t d' r' st' dco' l else l)
                         (tabela s);
                   prox_id := prox_id s |}, None)
      | _, _, _, _ => None
      end
  | SQL_DELETE, [p] =>
      Some ({| tabela := filter (fun l => negb (casa_id p l)) (tabela s);
               prox_id := prox_id s |}, None)
  | _, _ => None
  end.

(* ================================================================== *)
(** ** The world and the monad of the program *)

(** The connection object of the connector and its cursor.  The cursor
    keeps the result set of the last statement until it is fetched. *)
Record Conexao := { conectada : bool }.

Record Cursor := {
  fechado : bool;
  pendente : option (list tupla)
}.

(** The attributes of a [BancoDeDados] object. *)
Record BancoDeDados := {
  conexao : option Conexao;
  cursor : option Cursor
}.

(** Everything the program reads or changes.
    - [banco] is the one gateway object that [GerenciadorTarefas.__init__]
      builds, and [bd] says whether the attribute [self.bd] still refers
      to it ([true]) or was set to [None] ([false]);
    - [servidor] is the table behind the connection;
    - [entrada] holds the lines still to be read from the console;
    - [relogio] is what [datetime.now()] returns;
    - [falhas] scripts the backend: each call of [cursor.execute],
      [cursor.fetchall] and [conexao.commit] takes the next entry and
      raises it when it is an error (constraint violations, lost
      connections and the like); an exhausted script means no failure;
    - [eventos] is the history, oldest first. *)
Record Mundo := {
  banco : BancoDeDados;
  bd : bool;
  servidor : Servidor;
  entrada : list pystr;
  relogio : datetime;
  falhas : list (option Error);
  eventos : list evento
}.

Inductive resultado (A : Type) :=
| Retorno (a : A)
| Levanta (e : excecao).
Arguments Retorno {A} a.
Arguments Levanta {A} e.

(** A computation returns or raises, and leaves a world behind either
    way. *)
Definition M (A : Type) := Mundo -> resultado A * Mundo.

Definition ret {A} (a : A) : M A := fun w => (Retorno a, w).

Definition bind {A B} (m : M A) (f : A -> M B) : M B :=
  fun w =>
    match m w with
    | (Retorno a, w') => f a w'
    | (Levanta e, w') => (Levanta e, w')
    end.

Definition raise {A} (e : excecao) : M A := fun w => (Levanta e, w).

(** [try: m  except Error as e: h e]: only [mysql.connector.Error] is
    caught. *)
Definition try_except_Error {A} (m : M A) (h : Error -> M A) : M A :=
  fun w =>
    match m w with
    | (Levanta (MySQLError e), w') => h e w'
    | r => r
    end.

Declare Scope py_scope.
Delimit Scope py_scope with py.
Notation "x <- m ;; k" := (bind m (fun x => k))
  (at level 61, m at next level, right associativity) : py_scope.
Notation "' pat <- m ;; k" :=
  (bind m (fun x => match x with pat => k end))
  (at level 61, pat pattern, m at next level, right associativity) : py_scope.
Notation "m ;; k" := (bind m (fun _ => k))
  (at level 61, right associativity) : py_scope.
Local Open Scope py_scope.

Definition get {A} (f : Mundo -> A) : M A := fun w => (Retorno (f w), w).

Definition emite (e : evento) : M unit :=
  fun w =>
    (Retorno tt,
     {| banco := banco w; bd := bd w; servidor := servidor w;
        entrada := entrada w; relogio := relogio w; falhas := falhas w;
        eventos := eventos w ++ [e] |}).

Definition set_banco (b : BancoDeDados) : M unit :=
  fun w =>
    (Retorno tt,
     {| banco := b; bd := bd w; servidor := servidor w;
        entrada := entrada w; relogio := relogio w; falhas := falhas w;
        eventos := eventos w |}).

Definition set_bd (r : bool) : M unit :=
  fun w =>
    (Retorno tt,
     {| banco := banco w; bd := r; servidor := servidor w;
        entrada := entrada w; relogio := relogio w; falhas := falhas w;
        eventos := eventos w |}).

Definition set_servidor (s : Servidor) : M unit :=
  fun w =>
    (Retorno tt,
     {| banco := banco w; bd := bd w; servidor := s;
        entrada := entrada w; relogio := relogio w; falhas := falhas w;
        eventos := eventos w |}).

Definition set_entrada (l : list pystr) : M unit :=
  fun w =>
    (Retorno tt,
     {| banco := banco w; bd := bd w; servidor := servidor w;
        entrada := l; relogio := relogio w; falhas := falhas w;
        eventos := eventos w |}).

Definition set_falhas (l : list (option Error)) : M unit :=
  fun w =>
    (Retorno tt,
     {| banco := banco w; bd := bd w; servidor := servidor w;
        entrada := entrada w; relogio := relogio w; falhas := l;
        eventos := eventos w |}).

(** [logging.<level>(msg)], [print(msg)], [input(prompt)] and
    [datetime.now()]. *)
Definition logging (n : nivel) (m : mensagem) : M unit := emite (Log n m).

Definition print (m : mensagem) : M unit := emite (Print m).

Definition input (prompt : mensagem) : M pystr :=
  emite (Prompt prompt) ;;
  l <- get entrada ;;
  match l with
  | [] => raise EOFError
  | x :: resto => set_entrada resto ;; ret x
  end.

Definition datetime_now : M datetime := get relogio.

(** [t[i]] on a tuple. *)
Definition indice (t : tupla) (i : nat) : M valor :=
  match nth_error t i with
  | Some v => ret v
  | None => raise IndexError
  end.

(** [v.lower()]: only a [str] has the method. *)
Definition metodo_lower (v : valor) : M pystr :=
  match v with
  | VStr s => ret (lower s)
  | _ => raise AttributeError
  end.

(** Short-circuit [and] and [or] over conditions that may raise. *)
Definition py_and (a b : M bool) : M bool :=
  x <- a ;; if x then b else ret false.

Definition py_or (a b : M bool) : M bool :=
  x <- a ;; if x then ret true else b.

(** The next entry of the backend's script. *)
Definition proxima_falha : M unit :=
  l <- get falhas ;;
  match l with
  | [] => ret tt
  | None :: resto => set_falhas resto
  | Some e :: resto => set_falhas resto ;; raise (MySQLError e)
  end.

(** The error of the connector itself (a closed cursor, a fetch without
    a result set, a parameter that cannot be bound). *)
Definition erro_cliente : Error := {| errno := -1 |}.

(* ================================================================== *)
(** ** The connector: cursor and connection *)

Definition set_cursor (c : option Cursor) : M unit :=
  b <- get banco ;;
  set_banco {| conexao := conexao b; cursor := c |}.

Definition set_conexao (c : option Conexao) : M unit :=
  b <- get banco ;;
  set_banco {| conexao := c; cursor := cursor b |}.

(** [self.cursor.execute(comando, parametros)]. *)
Definition cursor_execute (comando : sql) (parametros : tupla) : M unit :=
  b <- get banco ;;
  match cursor b with
  | None => raise AttributeError
  | Some c =>
      emite (CursorExecute comando parametros) ;;
      proxima_falha ;;
      if fechado c then raise (MySQLError erro_cliente)
      else
        s <- get servidor ;;
        match sem_sql comando parametros s with
        | None => raise (MySQLError erro_cliente)
        | Some (s', linhas) =>
            set_servidor s' ;;
            set_cursor (Some {| fechado := false; pendente := linhas |})
        end
  end.

(** [self.cursor.fetchall()]. *)
Definition cursor_fetchall : M (list tupla) :=
  b <- get banco ;;
  match cursor b with
  | None => raise AttributeError
  | Some c =>
      emite CursorFetchall ;;
      proxima_falha ;;
      match pendente c with
      | None => raise (MySQLError erro_cliente)
      | Some linhas =>
          set_cursor (Some {| fechado := fechado c; pendente := None |}) ;;
          ret linhas
      end
  end.

(** [self.conexao.commit()]. *)
Definition conexao_commit : M unit :=
  b <- get banco ;;
  match conexao b with
  | None => raise AttributeError
  | Some _ => emite ConexaoCommit ;; proxima_falha
  end.

(** [self.cursor.close()] and [self.conexao.close()]. *)
Definition cursor_close : M unit :=
  b <- get banco ;;
  match cursor b with
  | None => raise AttributeError
  | Some c =>
      emite CursorClose ;;
      set_cursor (Some {| fechado := true; pendente := None |})
  end.

Definition conexao_close : M unit :=
  b <- get banco ;;
  match conexao b with
  | None => raise AttributeError
  | Some _ => emite ConexaoClose ;; set_conexao (Some {| conectada := false |})
  end.

(* ================================================================== *)
(** ** class BancoDeDados *)

(** [self.conexao and self.conexao.is_connected()]. *)
Definition conexao_ativa (b : BancoDeDados) : bool :=
  match conexao b with
  | Some c => conectada c
  | None => false
  end.

(** [self.cursor] as a condition. *)
Definition tem_cursor (b : BancoDeDados) : bool :=
  match cursor b with
  | Some _ => true
  | None => false
  end.

Definition fechar_conexao : M unit :=
  b <- get banco ;;
  if conexao_ativa b then
    (if tem_cursor b then cursor_close else ret tt) ;;
    conexao_close ;;
    logging INFO [lit "Conexão com o banco de dados fechada."]
  else
    logging INFO [lit "Nenhuma conexão ativa para fechar."].

Definition executar_comando (comando : sql) (parametros : tupla) : M unit :=
  emite (Executar comando parametros) ;;
  b <- get banco ;;
  if negb (conexao_ativa b) || negb (tem_cursor b) then
    logging ERROR
      [lit "Erro: Não há conexão ativa com o banco de dados para executar o comando."]
  else
    try_except_Error
      (cursor_execute comando parametros ;;
       conexao_commit)
      (fun e =>
         logging ERROR
           [lit "Erro ao executar comando '"; FmtSql comando; lit "' : ";
            FmtErro e]).

Definition buscar_dados (comando : sql) (parametros : tupla)
  : M (list tupla) :=
  emite (Buscar comando parametros) ;;
  b <- get banco ;;
  if negb (conexao_ativa b) || negb (tem_cursor b) then
    logging ERROR
      [lit "Erro: Não há conexão ativa com o banco de dados para buscar dados."] ;;
    ret []
  else
    try_except_Error
      (cursor_execute comando parametros ;;
       dados <- cursor_fetchall ;;
       logging DEBUG
         [lit "Dados buscados com sucesso: "; FmtSql comando; lit " com ";
          FmtTupla parametros] ;;
       ret dados)
      (fun e =>
         logging ERROR
           [lit "Erro ao buscar os dados com o comando '"; FmtSql comando;
            lit "' com parâmetros "; FmtTupla parametros; lit ": ";
            FmtErro e] ;;
         ret []).

(** What [mysql.connector.connect] does with the configuration: it raises, or it
    hands back a connection that reports itself connected or not. *)
Inductive connect_resultado :=
| ConnectErro (e : Error)
| ConnectObjeto (is_connected : bool).

Definition criar_tabela : M unit :=
  b <- get banco ;;
  if negb (conexao_ativa b) then
    logging WARNING
      [lit "Não há conexão ativa com o banco de dados para criar a tabela!"]
  else
    try_except_Error
      (cursor_execute SQL_CREATE_TABLE [] ;;
       conexao_commit ;;
       logging INFO [lit "Tabela criada ou já existente."])
      (fun e =>
         if errno e =? 1050 then
           logging INFO [lit "Tabela 'tarefas' já existe. ("; FmtErro e; lit ")"]
         else
           logging ERROR [lit "Erro ao criar a tabela: "; FmtErro e]).

Definition _conectar (r : connect_resultado) : M unit :=
  match r with
  | ConnectErro e =>
      logging ERROR [lit "Erro ao conectar ao MariaDB: "; FmtErro e] ;;
      set_conexao None ;;
      set_cursor None
  | ConnectObjeto c =>
      set_conexao (Some {| conectada := c |}) ;;
      if c then
        set_cursor (Some {| fechado := false; pendente := None |}) ;;
        logging INFO [lit "Conexão com o MariaDB estabelecida com sucesso!"] ;;
        criar_tabela
      else
        logging WARNING [lit "Não foi possível conectar ao MariaDB!"]
  end.

Definition BancoDeDados_init (r : connect_resultado) : M unit :=
  set_banco {| conexao := None; cursor := None |} ;;
  _conectar r.

(* ================================================================== *)
(** ** class Tarefa *)

Module Tarefa.

Record t := {
  titulo : pystr;
  descricao : pystr;
  responsavel : pystr;
  status : pystr;
  data_criacao : datetime;
  data_conclusao : valor
}.

Definition init (titulo descricao responsavel : pystr) : M t :=
  agora <- datetime_now ;;
  ret {| titulo := titulo;
         descricao := descricao;
         responsavel := responsavel;
         status := txt "Pendente";
         data_criacao := agora;
         data_conclusao := VNone |}.

End Tarefa.

(* ================================================================== *)
(** ** class GerenciadorTarefas *)

(** A method called through [self.bd]: on [None] the attribute lookup
    raises. *)
Definition self_bd {A} (m : M A) : M A :=
  r <- get bd ;;
  if r then m else raise AttributeError.

(** [self.bd and self.bd.conexao and self.bd.conexao.is_connected()],
    as the condition it is used for. *)
Definition is_bd_ready : M bool :=
  r <- get bd ;;
  b <- get banco ;;
  ret (r && conexao_ativa b).

Definition GerenciadorTarefas_init (r : connect_resultado) : M unit :=
  BancoDeDados_init r ;;
  set_bd true ;;
  pronto <- is_bd_ready ;;
  if negb pronto then
    logging CRITICAL
      [lit "Não foi possível inicializar o gerenciador de tarefas devido a um problema de conexão com o banco de dados!"] ;;
    set_bd false
  else ret tt.

(** The [while True] of [cadastrar_tarefa].  Every turn reads one line,
    so the lines left on the console bound the loop.  [linhas] is that
    supply ([entrada] of the world at the start of the turn), and the
    first two steps of a turn are [input] itself, reading from it. *)
Fixpoint laco_titulo (linhas : list pystr) : M pystr :=
  emite (Prompt [lit "Título da tarefa: "]) ;;
  match linhas with
  | [] => raise EOFError
  | titulo :: resto =>
      set_entrada resto ;;
      if (12 <=? List.length titulo)%nat then ret titulo
      else
        logging WARNING
          [lit "Título da tarefa deve ser maior que 12 caracteres."] ;;
        laco_titulo resto
  end.

Definition cadastrar_tarefa : M unit :=
  pronto <- is_bd_ready ;;
  if negb pronto then
    logging ERROR
      [lit "Não é possível cadastrar tarefa. A conexão com o banco de dados não está ativa!"]
  else
    linhas <- get entrada ;;
    titulo <- laco_titulo linhas ;;
    descricao <- input [lit "Descrição da tarefa: "] ;;
    responsavel <- input [lit "Responsável: "] ;;
    tarefa <- Tarefa.init titulo descricao responsavel ;;
    self_bd (executar_comando SQL_INSERT
               [VStr (Tarefa.titulo tarefa); VStr (Tarefa.descricao tarefa);
                VStr (Tarefa.responsavel tarefa); VStr (Tarefa.status tarefa);
                VData (Tarefa.data_criacao tarefa);
                Tarefa.data_conclusao tarefa]) ;;
    logging INFO [lit "Tarefa cadastrada com sucesso!"].

(** The body of [for t in tarefas] in [exibir_tarefas]. *)
Definition exibe_tarefa (t : tupla) : M unit :=
  t0 <- indice t 0 ;; logging INFO [lit "ID: "; Fmt t0] ;;
  t1 <- indice t 1 ;; logging INFO [lit "Título: "; Fmt t1] ;;
  t2 <- indice t 2 ;; logging INFO [lit "Descrição: "; Fmt t2] ;;
  t3 <- indice t 3 ;; logging INFO [lit "Responsável: "; Fmt t3] ;;
  t4 <- indice t 4 ;; logging INFO [lit "Status: "; Fmt t4] ;;
  t5 <- indice t 5 ;; logging INFO [lit "Data da Criação: "; Fmt t5] ;;
  t6 <- indice t 6 ;;
  logging INFO
    [lit "Data de Conclusão: ";
     Fmt (if py_bool t6 then t6 else VStr (txt "Não concluída"));
     Lit [10%N]].

Fixpoint exibe_todas (tarefas : list tupla) : M unit :=
  match tarefas with
  | [] => ret tt
  | t :: resto => exibe_tarefa t ;; exibe_todas resto
  end.

Definition exibir_tarefas : M unit :=
  pronto <- is_bd_ready ;;
  if negb pronto then
    logging ERROR
      [lit "Não é possível exibir tarefas. Conexão com o banco de dados não está ativa."]
  else
    tarefas <- self_bd (buscar_dados SQL_SELECT_TUDO []) ;;
    match tarefas with
    | [] => logging INFO [lit "Nenhuma tarefa cadastrada."]
    | _ :: _ =>
        logging INFO [Lit [10%N]; lit " --- Lista de Tarefas ---"] ;;
        exibe_todas tarefas
    end.

(** The search [for t_id in tarefas_existentes: if str(t_id[0]) ==
    id_tarefa: ... break], shared by update and delete. *)
Fixpoint procura_id (tarefas_existentes : list tupla) (id_tarefa : pystr)
  : M bool :=
  match tarefas_existentes with
  | [] => ret false
  | t_id :: resto =>
      v <- indice t_id 0 ;;
      if PyStr.eqb (py_str v) id_tarefa then ret true
      else procura_id resto id_tarefa
  end.

(** [a, b, c, d, e = dados_atuais[0]]. *)
Definition desempacota5 (t : tupla)
  : M (valor * valor * valor * valor * valor) :=
  match t with
  | [a; b; c; d; e] => ret (a, b, c, d, e)
  | _ => raise ValueError
  end.

(** [novo = input(...)] followed by [if not novo: novo = atual]. *)
Definition ou_atual (novo : pystr) (atual : valor) : valor :=
  match novo with
  | [] => atual
  | _ :: _ => VStr novo
  end.

Definition concluida : pystr := txt "concluída".

(** Lines 243-248: the completion timestamp bound by the update. *)
Definition regra_data_conclusao
    (novo_status status_atual data_conclusao_atual : valor) : M valor :=
  entra <-
    py_and (n <- metodo_lower novo_status ;; ret (PyStr.eqb n concluida))
           (py_or (ret (is_None status_atual))
                  (a <- metodo_lower status_atual ;;
                   ret (negb (PyStr.eqb a concluida)))) ;;
  if entra then
    agora <- datetime_now ;; ret (VData agora)
  else
    sai <-
      py_and (n <- metodo_lower novo_status ;;
              ret (negb (PyStr.eqb n concluida)))
             (py_and (ret (negb (is_None status_atual)))
                     (a <- metodo_lower status_atual ;;
                      ret (PyStr.eqb a concluida))) ;;
    if sai then ret VNone else ret data_conclusao_atual.

(** Lines 214-253 of [atualizar_tarefa]: what the method does once the
    id typed was found among the fetched ones. *)
Definition atualizar_encontrada (id_tarefa : pystr) : M unit :=
  dados_atuais <-
    self_bd (buscar_dados SQL_SELECT_ATUAIS [VStr id_tarefa]) ;;
  match dados_atuais with
  | [] =>
      logging ERROR [lit "Erro ao buscar dados da tarefa para atualização."]
  | primeira :: _ =>
      '(titulo_atual, descricao_atual, responsavel_atual,
        status_atual, data_conclusao_atual) <- desempacota5 primeira ;;
      logging INFO
        [Lit [10%N]; lit "--- Atualizando Tarefa ID: ";
         Fmt (VStr id_tarefa); lit " ---"] ;;
      logging INFO [lit "Deixe em branco para manter o valor atual."] ;;
      novo_titulo <-
        input [lit "Novo Título (atual: "; Fmt titulo_atual; lit "): "] ;;
      let novo_titulo := ou_atual novo_titulo titulo_atual in
      nova_descricao <-
        input [lit "Nova Descrição (atual: "; Fmt descricao_atual;
               lit "): "] ;;
      let nova_descricao := ou_atual nova_descricao descricao_atual in
      novo_responsavel <-
        input [lit "Novo Responsável (atual: "; Fmt responsavel_atual;
               lit "): "] ;;
      let novo_responsavel := ou_atual novo_responsavel responsavel_atual in
      novo_status <-
        input [lit "Novo Status (atual: "; Fmt status_atual;
               lit ") (Pendente, Em Andamento, Concluída): "] ;;
      let novo_status := ou_atual novo_status status_atual in
      data_conclusao <-
        regra_data_conclusao novo_status status_atual data_conclusao_atual ;;
      self_bd (executar_comando SQL_UPDATE
                 [novo_titulo; nova_descricao; novo_responsavel;
                  novo_status; data_conclusao; VStr id_tarefa]) ;;
      logging INFO [lit "Tarefa atualizada com sucesso!"]
  end.

Definition atualizar_tarefa : M unit :=
  pronto <- is_bd_ready ;;
  if negb pronto then
    logging ERROR
      [lit "Não é possível atualizar tarefa. Conexão com o banco de dados não está ativa."]
  else
    exibir_tarefas ;;
    tarefas_existentes <- self_bd (buscar_dados SQL_SELECT_IDS []) ;;
    match tarefas_existentes with
    | [] => logging INFO [lit "Nenhuma tarefa cadastrada para atualizar."]
    | _ :: _ =>
        id_tarefa <- input [lit "Digite o ID da tarefa que deseja atualizar: "] ;;
        tarefa_encontrada <- procura_id tarefas_existentes id_tarefa ;;
        if negb tarefa_encontrada then
          logging WARNING
            [lit "Tarefa com ID "; Fmt (VStr id_tarefa); lit " não encontrada."]
        else atualizar_encontrada id_tarefa
    end.

Definition excluir_tarefa : M unit :=
  pronto <- is_bd_ready ;;
  if negb pronto then
    logging ERROR
      [lit "Não é possível excluir tarefa. Conexão com o banco de dados não está ativa."]
  else
    exibir_tarefas ;;
    tarefas_existentes <- self_bd (buscar_dados SQL_SELECT_IDS []) ;;
    match tarefas_existentes with
    | [] => logging INFO [lit "Nenhuma tarefa cadastrada para excluir."]
    | _ :: _ =>
        id_tarefa <- input [lit "Digite a ID para excluir uma tarefa: "] ;;
        tarefa_encontrada <- procura_id tarefas_existentes id_tarefa ;;
        if negb tarefa_encontrada then
          logging WARNING
            [lit "Tarefa com ID "; Fmt (VStr id_tarefa); lit " não encontrada."]
        else
          self_bd (executar_comando SQL_DELETE [VStr id_tarefa]) ;;
          logging INFO [lit "Tarefa excluída com sucesso!"]
    end.

Definition fechar_sistema : M unit :=
  r <- get bd ;;
  (if r then fechar_conexao else ret tt) ;;
  logging INFO [lit "Sistema encerrado"].

(** The menu that [main] prints at the top of every turn of its loop. *)
Definition imprime_menu : M unit :=
  print [Lit [10%N]; lit "--- Gestão de Tarefas ---"] ;;
  print [lit "1 - Cadastrar Tarefa"] ;;
  print [lit "2 - Exibir Tarefas"] ;;
  print [lit "3 - Atualizar Tarefa"] ;;
  print [lit "4 - Excluir Tarefa"] ;;
  print [lit "5 - Sair do Sistema"].


(* ================================================================== *)
(** ** Vocabulary of the properties *)

(** The events a computation adds to the history. *)
Definition rastro {A} (m : M A) (w : Mundo) : list evento :=
  skipn (List.length (eventos w)) (eventos (snd (m w))).

(** [w'] continues the history of [w] with events that all satisfy [p]. *)
Definition estende (p : evento -> bool) (w w' : Mundo) : Prop :=
  exists novos, eventos w' = eventos w ++ novos /\ forallb p novos = true.

(** What the gateway never touches: the manager's reference, the
    console, the clock, and whether connection and cursor are there. *)
Definition mesmo_console (w w' : Mundo) : Prop :=
  bd w' = bd w /\ entrada w' = entrada w /\ relogio w' = relogio w /\
  conexao_ativa (banco w') = conexao_ativa (banco w) /\
  tem_cursor (banco w') = tem_cursor (banco w).

(** There is a cursor and it was not closed. *)
Definition cursor_aberto (b : BancoDeDados) : bool :=
  match cursor b with
  | Some c => negb (fechado c)
  | None => false
  end.

(** A manager in working order: it holds its gateway, which is
    connected and has an open cursor, and the backend raises no error
    from here on. *)
Definition saudavel (w : Mundo) : Prop :=
  bd w = true /\ conexao_ativa (banco w) = true /\
  cursor_aberto (banco w) = true /\ Forall (eq None) (falhas w).

(** What happens below [executar_comando c _], after the call itself. *)
Definition interno (c : sql) (e : evento) : bool :=
  match e with
  | CursorExecute c' _ => Bool.eqb (mutante c') (mutante c)
  | ConexaoCommit => true
  | Log ERROR _ => true
  | _ => false
  end.

(** What happens below [buscar_dados c _], after the call itself. *)
Definition interno_busca (c : sql) (e : evento) : bool :=
  match e with
  | CursorExecute c' _ => Bool.eqb (mutante c') (mutante c)
  | CursorFetchall => true
  | Log ERROR _ | Log DEBUG _ => true
  | _ => false
  end.

(** [w'] differs from [w] in its history only. *)
Definition so_eventos (w w' : Mundo) : Prop :=
  banco w' = banco w /\ bd w' = bd w /\ servidor w' = servidor w /\
  entrada w' = entrada w /\ relogio w' = relogio w /\ falhas w' = falhas w.

(** An info-level log record. *)
Definition eh_info (e : evento) : bool :=
  match e with Log INFO _ => true | _ => false end.

(** Events of an operation that only reads: no prompt, no warning, and
    no statement that changes rows. *)
Definition ev_leitura (e : evento) : bool :=
  match e with
  | Log WARNING _ | Log CRITICAL _ => false
  | Log _ _ => true
  | Buscar c _ | CursorExecute c _ => negb (mutante c)
  | CursorFetchall => true
  | _ => false
  end.

(** A statement that changes rows reached the cursor. *)
Definition execucao_mutante (e : evento) : bool :=
  match e with
  | CursorExecute c _ => mutante c
  | _ => false
  end.

(** Nothing about [e] changes stored rows: it is no gateway call for an
    insert, update or delete, no such statement at the cursor, and no
    commit. *)
Definition sem_mutacao (e : evento) : bool :=
  negb (chamada_mutante e) && negb (execucao_mutante e) &&
  match e with ConexaoCommit => false | _ => true end.

(** Case-insensitive test against ["concluída"]; a null status is not
    concluded. *)
Definition eh_concluida (s : pystr) : bool := PyStr.eqb (lower s) concluida.

Definition status_concluido (o : option pystr) : bool :=
  match o with
  | Some s => eh_concluida s
  | None => false
  end.

(** The transition rule in the words of the specification, read as a
    case distinction: into [Concluída] gives now, out of it gives null,
    anything else keeps the stored value. *)
Definition regra_spec (s2 : pystr) (s1 : option pystr)
    (antiga : option datetime) (agora : datetime) : valor :=
  if eh_concluida s2 && negb (status_concluido s1) then VData agora
  else if negb (eh_concluida s2) && status_concluido s1 then VNone
  else de_data antiga.

(** The confirmations the three changing operations log at their end. *)
Definition msg_cadastrada : evento :=
  Log INFO [lit "Tarefa cadastrada com sucesso!"].

Definition msg_atualizada : evento :=
  Log INFO [lit "Tarefa atualizada com sucesso!"].

Definition msg_excluida : evento :=
  Log INFO [lit "Tarefa excluída com sucesso!"].

(** The steps that [atualizar_tarefa] and [excluir_tarefa] have in
    common, up to the point where the id typed was found; [k] is what
    each of them does from there. *)
Definition seleciona_tarefa (m_inativa m_vazia prompt : mensagem)
    (k : pystr -> M unit) : M unit :=
  (pronto <- is_bd_ready ;;
   if negb pronto then logging ERROR m_inativa
   else
     exibir_tarefas ;;
     tarefas_existentes <- self_bd (buscar_dados SQL_SELECT_IDS []) ;;
     match tarefas_existentes with
     | [] => logging INFO m_vazia
     | _ :: _ =>
         id_tarefa <- input prompt ;;
         tarefa_encontrada <- procura_id tarefas_existentes id_tarefa ;;
         if negb tarefa_encontrada then
           logging WARNING
             [lit "Tarefa com ID "; Fmt (VStr id_tarefa);
              lit " não encontrada."]
         else k id_tarefa
     end)%py.

(** The warning of update and delete for an id that was not found. *)
Definition nao_encontrada (id_tarefa : pystr) : evento :=
  Log WARNING
    [lit "Tarefa com ID "; Fmt (VStr id_tarefa); lit " não encontrada."].

(** [is_bd_ready] as a function of the world. *)
Definition pronto (w : Mundo) : bool := bd w && conexao_ativa (banco w).

(** A title that [cadastrar_tarefa] turns down. *)
Definition curto (t : pystr) : Prop := (List.length t < 12)%nat.

(** One turn of the title loop that ends in a new prompt. *)
Definition recusa_titulo : list evento :=
  [Prompt [lit "Título da tarefa: "];
   Log WARNING [lit "Título da tarefa deve ser maior que 12 caracteres."]].

(* ================================================================== *)
(** ** Statements about the transition rule and the invariant *)

(** The transition rule read with both of its "if and only if" taken
    literally, for the update statement that a run from [w] issues. *)
Definition transicao_como_escrita (w : Mundo) : Prop :=
  forall t d r s2 dc idt l,
    In (Executar SQL_UPDATE [t; d; r; VStr s2; dc; VStr idt])
       (rastro atualizar_tarefa w) ->
    find (casa_id (VStr idt)) (tabela (servidor w)) = Some l ->
    (dc = VData (relogio w) <->
     eh_concluida s2 = true /\ status_concluido (col_status l) = false) /\
    (dc = VNone <->
     eh_concluida s2 = false /\ status_concluido (col_status l) = true) /\
    (eh_concluida s2 = status_concluido (col_status l) ->
     dc = de_data (col_data_conclusao l)).

(** A row is coherent when its completion timestamp is there exactly
    when its status is [Concluída] (compared as the transition rule
    compares it). *)
Definition linha_coerente (l : linha) : Prop :=
  col_data_conclusao l <> None <-> status_concluido (col_status l) = true.

Definition invariante (s : Servidor) : Prop :=
  Forall linha_coerente (tabela s).

(** The operations of the menu. *)
Inductive operacao :=
| Cadastrar
| Exibir
| Atualizar
| Excluir
| Sair.

Definition executa (o : operacao) : M unit :=
  match o with
  | Cadastrar => cadastrar_tarefa
  | Exibir => exibir_tarefas
  | Atualizar => atualizar_tarefa
  | Excluir => excluir_tarefa
  | Sair => fechar_sistema
  end.

(** What changes between two operations without the program: the
    operator types more lines, time passes, the connection and the
    backend's future behaviour change. *)
Definition ambiente (b : BancoDeDados) (ent : list pystr) (rel : datetime)
    (fal : list (option Error)) (w : Mundo) : Mundo :=
  {| banco := b; bd := bd w; servidor := servidor w;
     entrada := ent; relogio := rel; falhas := fal;
     eventos := eventos w |}.

(** The worlds the manager's operations lead to from [w0]. *)
Inductive alcancavel (w0 : Mundo) : Mundo -> Prop :=
| alc_inicio : alcancavel w0 w0
| alc_operacao (o : operacao) (w : Mundo) :
    alcancavel w0 w -> alcancavel w0 (snd (executa o w))
| alc_ambiente (b : BancoDeDados) (ent : list pystr) (rel : datetime)
    (fal : list (option Error)) (w : Mundo) :
    alcancavel w0 w -> alcancavel w0 (ambiente b ent rel fal w).

(* ================================================================== *)
(** ** Sample worlds *)

Definition instante_1 : datetime :=
  {| ano := 2023; mes := 1; dia := 1;
     hora := 0; minuto := 0; segundo := 0; microssegundo := 0 |}.

Definition instante_2 : datetime :=
  {| ano := 2024; mes := 7; dia := 11;
     hora := 10; minuto := 30; segundo := 0; microssegundo := 0 |}.

Definition banco_vivo : BancoDeDados :=
  {| conexao := Some {| conectada := true |};
     cursor := Some {| fechado := false; pendente := None |} |}.

(** A connected manager over table [tab], with [ent] waiting on the
    console. *)
Definition mundo_vivo (tab : list linha) (ent : list pystr) : Mundo :=
  {| banco := banco_vivo; bd := true;
     servidor := {| tabela := tab; prox_id := Z.of_nat (List.length tab) + 1 |};
     entrada := ent; relogio := instante_2; falhas := []; eventos := [] |}.

(** The row of the repository's tests: id 1 with a given status and
    completion timestamp. *)
Definition tarefa_1 (st : option pystr) (dc : option datetime) : linha :=
  {| col_id := 1; col_titulo := txt "Titulo Antigo";
     col_descricao := Some (txt "Desc Antiga");
     col_responsavel := Some (txt "Resp Antigo");
     col_status := st; col_data_criacao := Some instante_1;
     col_data_conclusao := dc |}.

(** [Pendente] to [Em Andamento], every other answer left blank. *)
Definition mundo_em_andamento : Mundo :=
  mundo_vivo [tarefa_1 (Some (txt "Pendente")) None]
             [txt "1"; []; []; []; txt "Em Andamento"].

(** A null stored status, kept by a blank answer. *)
Definition mundo_status_nulo : Mundo :=
  mundo_vivo [tarefa_1 None None] [txt "1"; []; []; []; []].

(** An id that no stored task has. *)
Definition mundo_id_99 : Mundo :=
  mundo_vivo [tarefa_1 (Some (txt "Pendente")) None] [txt "99"].

(** One title that is too short, then a task as in the scenario of the
    specification. *)
Definition mundo_cadastro : Mundo :=
  mundo_vivo [] [txt "curto"; txt "Implementar módulo X"; txt "desc";
                 txt "Ana"].

(** A manager whose connection was lost. *)
Definition mundo_desconectado : Mundo :=
  {| banco := {| conexao := Some {| conectada := false |};
                 cursor := Some {| fechado := false; pendente := None |} |};
     bd := true;
     servidor := {| tabela := []; prox_id := 1 |};
     entrada := [txt "1"]; relogio := instante_2; falhas := [];
     eventos := [] |}.

(** The invariant with the status compared to ["Concluída"] letter by
    letter instead. *)
Definition linha_coerente_exata (l : linha) : Prop :=
  col_data_conclusao l <> None <-> col_status l = Some (txt "Concluída").

(** [Pendente] to [concluída], written in lower case. *)
Definition mundo_minusculas : Mundo :=
  mundo_vivo [tarefa_1 (Some (txt "Pendente")) None]
             [txt "1"; []; []; []; txt "concluída"].

(* ================================================================== *)
(** ** The entry point *)

(** [try: m  except Exception as e: h e].  Every exception the program
    can meet derives from [Exception]. *)
Definition try_except {A} (m : M A) (h : excecao -> M A) : M A :=
  fun w =>
    match m w with
    | (Levanta e, w') => h e w'
    | r => r
    end.

Section Principal.

(** Two builtins that [main] leans on are left open here: [int] applied
    to a line of the console ([None] when it raises [ValueError]), and
    [str] applied to the exception caught by the last handler, whose
    text is the interpreter's or the connector's. *)
Variable py_int : pystr -> option Z.
Variable str_excecao : excecao -> pystr.

(** [int(linha)]. *)
Definition int_linha (linha : pystr) : M Z :=
  match py_int linha with
  | Some n => ret n
  | None => raise ValueError
  end.

(** The [match arg] of lines 307-320.  The result says whether the
    loop is left with [break]. *)
Definition escolhe (arg : Z) : M bool :=
  match arg with
  | 1 => cadastrar_tarefa ;; ret false
  | 2 => exibir_tarefas ;; ret false
  | 3 => atualizar_tarefa ;; ret false
  | 4 => excluir_tarefa ;; ret false
  | 5 => fechar_sistema ;; ret true
  | _ =>
      logging WARNING [lit "Opção não encontrada! Tente novamente!"] ;;
      ret false
  end.

(** The two [except] clauses of lines 321-326, in their order.
    [exc_info=True] adds the traceback to the rendered record, not to
    its message. *)
Definition trata (e : excecao) : M bool :=
  match e with
  | ValueError =>
      logging ERROR
        [lit "Entrada inválida. Por favor, digite um número inteiro."] ;;
      ret false
  | _ =>
      logging CRITICAL
        [lit "Ocorreu um erro inesperado: "; Fmt (VStr (str_excecao e))] ;;
      fechar_sistema ;;
      ret true
  end.

(** One turn of the [while True] of [main] (lines 295-326). *)
Definition turno : M bool :=
  imprime_menu ;;
  try_except
    (linha <- input [lit "Escolha uma opção: "] ;;
     arg <- int_linha linha ;;
     escolhe arg)
    trata.

(** The loop itself, for at most [turnos] turns: [Some tt] when it was
    left, [None] when the turns ran out first. *)
Fixpoint laco_principal (turnos : nat) : M (option unit) :=
  match turnos with
  | O => ret None
  | S n =>
      sai <- turno ;;
      if sai then ret (Some tt) else laco_principal n
  end.

(** [main()], with what [mysql.connector.connect] answers to the
    constructor. *)
Definition main (r : connect_resultado) (turnos : nat) : M (option unit) :=
  GerenciadorTarefas_init r ;;
  pronto <- is_bd_ready ;;
  if negb pronto then
    logging CRITICAL
      [lit "Encerrando o programa devido a falha na conexão com o Banco de dados!"] ;;
    ret (Some tt)
  else laco_principal turnos.

End Principal.

(** A reading of the lines that the sample consoles hold, to run
    [main] on them: ["2"], ["3"] and ["5"] are the three numerals
    among them, and every other line is taken as one that [int]
    rejects.  It stands for [int] on those consoles only (the
    properties of [main] are proved for every reading). *)
Definition leitura_amostra (linha : pystr) : option Z :=
  if PyStr.eqb linha (txt "2") then Some 2
  else if PyStr.eqb linha (txt "3") then Some 3
  else if PyStr.eqb linha (txt "5") then Some 5
  else None.

(** [str] of the exceptions that the sample runs meet: the end of the
    console under [input], and [lower] asked of [None]. *)
Definition str_excecao_amostra (e : excecao) : pystr :=
  match e with
  | EOFError => txt "EOF when reading a line"
  | AttributeError => txt "'NoneType' object has no attribute 'lower'"
  | _ => []
  end.

(* ================================================================== *)
(** ** Vocabulary of the further properties *)

(** [w] with [novos] added to its history. *)
Definition com_eventos (novos : list evento) (w : Mundo) : Mundo :=
  {| banco := banco w; bd := bd w; servidor := servidor w;
     entrada := entrada w; relogio := relogio w; falhas := falhas w;
     eventos := eventos w ++ novos |}.

(** The seven records that the listing logs for one stored row. *)
Definition registros_de_linha (l : linha) : list evento :=
  [Log INFO [lit "ID: "; Fmt (VInt (col_id l))];
   Log INFO [lit "Título: "; Fmt (VStr (col_titulo l))];
   Log INFO [lit "Descrição: "; Fmt (de_texto (col_descricao l))];
   Log INFO [lit "Responsável: "; Fmt (de_texto (col_responsavel l))];
   Log INFO [lit "Status: "; Fmt (de_texto (col_status l))];
   Log INFO [lit "Data da Criação: "; Fmt (de_data (col_data_criacao l))];
   Log INFO [lit "Data de Conclusão: ";
             Fmt (match col_data_conclusao l with
                  | Some d => VData d
                  | None => VStr (txt "Não concluída")
                  end);
             Lit [10%N]]].

(** What a listing logs after its query returned the rows [tab]. *)
Definition registros_da_listagem (tab : list linha) : list evento :=
  match tab with
  | [] => [Log INFO [lit "Nenhuma tarefa cadastrada."]]
  | _ :: _ =>
      Log INFO [Lit [10%N]; lit " --- Lista de Tarefas ---"]
      :: flat_map registros_de_linha tab
  end.

(** The record of [criar_tabela] for an error of the backend. *)
Definition registro_criar_tabela (e : Error) : evento :=
  if errno e =? 1050 then
    Log INFO [lit "Tabela 'tarefas' já existe. ("; FmtErro e; lit ")"]
  else
    Log ERROR [lit "Erro ao criar a tabela: "; FmtErro e].

(** The row that the statement of a create binds: the next id, the
    three answers, [Pendente], the time of the call and no
    completion. *)
Definition linha_nova (s : Servidor) (t d r : pystr) (agora : datetime)
  : linha :=
  {| col_id := prox_id s; col_titulo := t; col_descricao := Some d;
     col_responsavel := Some r; col_status := Some (txt "Pendente");
     col_data_criacao := Some agora; col_data_conclusao := None |}.

(** An answer of the update dialogue over a stored text: blank keeps
    it. *)
Definition resposta (novo : pystr) (atual : option pystr) : option pystr :=
  match novo with
  | [] => atual
  | _ :: _ => Some novo
  end.

(** Between two worlds of one run: the manager's reference is the
    same, no line was added to the console, and the history was only
    added to. *)
Definition avanca (w w' : Mundo) : Prop :=
  bd w' = bd w /\
  (List.length (entrada w') <= List.length (entrada w))%nat /\
  exists novos, eventos w' = eventos w ++ novos.

(** [m] keeps [R] between the world it starts from and the one it
    leaves, whether it returns or raises. *)
Definition respeita {A} (R : Mundo -> Mundo -> Prop) (m : M A) : Prop :=
  forall w, R w (snd (m w)).

(** The menu, as events. *)
Definition menu : list evento :=
  [Print [Lit [10%N]; lit "--- Gestão de Tarefas ---"];
   Print [lit "1 - Cadastrar Tarefa"];
   Print [lit "2 - Exibir Tarefas"];
   Print [lit "3 - Atualizar Tarefa"];
   Print [lit "4 - Excluir Tarefa"];
   Print [lit "5 - Sair do Sistema"]].

(** The world after the menu was printed and the line [resto] was
    cut from was read at the prompt of [main]. *)
Definition apos_escolha (resto : list pystr) (w : Mundo) : Mundo :=
  {| banco := banco w; bd := bd w; servidor := servidor w;
     entrada := resto; relogio := relogio w; falhas := falhas w;
     eventos := eventos w ++ menu ++ [Prompt [lit "Escolha uma opção: "]] |}.

(** The title an update writes: a blank answer keeps the stored one. *)
Definition titulo_respondido (novo atual : pystr) : pystr :=
  match novo with
  | [] => atual
  | _ :: _ => novo
  end.

(** The completion timestamp an update binds when the status becomes
    [s2] at the moment [agora]: lines 243-248 over the stored row. *)
Definition conclusao_escrita (s2 : pystr) (l : linha) (agora : datetime)
  : option datetime :=
  if eh_concluida s2 && negb (status_concluido (col_status l))
  then Some agora
  else if negb (eh_concluida s2) && status_concluido (col_status l)
  then None
  else col_data_conclusao l.

(** The operation behind each number of the menu. *)
Definition operacao_de (arg : Z) : option operacao :=
  match arg with
  | 1 => Some Cadastrar
  | 2 => Some Exibir
  | 3 => Some Atualizar
  | 4 => Some Excluir
  | 5 => Some Sair
  | _ => None
  end.

(** The critical record of the last handler of [main]. *)
Definition erro_inesperado (str_excecao : excecao -> pystr) (e : excecao)
  : evento :=
  Log CRITICAL
    [lit "Ocorreu um erro inesperado: "; Fmt (VStr (str_excecao e))].

Definition sistema_encerrado : evento := Log INFO [lit "Sistema encerrado"].

(** A console with a null stored status kept by a blank answer, under
    option 3 of the menu. *)
Definition mundo_menu_status_nulo : Mundo :=
  mundo_vivo [tarefa_1 None None] [txt "3"; txt "1"; []; []; []; []].

(** A run that ended with the shutdown: the connection is not active
    and the last record is the one of [fechar_sistema]. *)
Definition encerrou (w w' : Mundo) : Prop :=
  conexao_ativa (banco w') = false /\
  exists antes, eventos w' = eventos w ++ antes ++ [sistema_encerrado].

(** What an update leaves as completion timestamp of the rows it
    rewrites, when the status becomes [s2]: some timestamp on the way
    into [Concluída], none on the way out of it, and the stored one
    otherwise.  (The column is a [DATETIME]: of the moment bound, the
    table keeps what that type holds.) *)
Definition conclusao_gravada (s2 : pystr) (l : linha)
    (dc : option datetime) : Prop :=
  if eh_concluida s2 && negb (status_concluido (col_status l))
  then dc <> None
  else if negb (eh_concluida s2) && status_concluido (col_status l)
  then dc = None
  else dc = col_data_conclusao l.

(** In the part of the history between [w] and [w'], the confirmation
    of an update only follows a call of the gateway for a change. *)
Definition confirma_apos_chamada (w w' : Mundo) : Prop :=
  exists novos,
    eventos w' = eventos w ++ novos /\
    (In msg_atualizada novos -> existsb chamada_mutante novos = true).


(* ================================================================== *)
(** ** Strings *)

Example txt_concluida :
  txt "concluída" = [99; 111; 110; 99; 108; 117; 237; 100; 97]%N.
Proof. reflexivity. Qed.

Example lower_Concluida : lower (txt "CONCLUÍDA") = txt "concluída".
Proof. reflexivity. Qed.

Example str_int_42 : str_int 42 = txt "42" /\ str_int (-7) = txt "-7" /\ str_int 0 = txt "0".
Proof. repeat split. Qed.

Lemma pystr_eqb_refl (a : pystr) : PyStr.eqb a a = true.
Proof.
  induction a as [|x a IH]; simpl; [reflexivity|].
  now rewrite N.eqb_refl, IH.
Qed.

Lemma pystr_eqb_eq (a b : pystr) : PyStr.eqb a b = true <-> a = b.
Proof.
  split.
  - revert b; induction a as [|x a IH]; intros [|y b]; simpl;
      try discriminate; try reflexivity.
    intros H. apply andb_true_iff in H as [Hx Hr].
    apply N.eqb_eq in Hx. now rewrite Hx, (IH b Hr).
  - intros ->. apply pystr_eqb_refl.
Qed.

(* ================================================================== *)
(** ** The gateway, method by method *)

Lemma rastro_app {A} (m : M A) (w : Mundo) (novos : list evento) :
  eventos (snd (m w)) = eventos w ++ novos -> rastro m w = novos.
Proof.
  intros H. unfold rastro. rewrite H.
  rewrite skipn_app, Nat.sub_diag, skipn_all. reflexivity.
Qed.

Lemma estende_refl p w : estende p w w.
Proof. exists []. now rewrite app_nil_r. Qed.

Lemma estende_trans p w1 w2 w3 :
  estende p w1 w2 -> estende p w2 w3 -> estende p w1 w3.
Proof.
  intros (n1 & E1 & F1) (n2 & E2 & F2). exists (n1 ++ n2). split.
  - now rewrite E2, E1, app_assoc.
  - now rewrite forallb_app, F1, F2.
Qed.

Lemma estende_mais p q w w' :
  (forall e, p e = true -> q e = true) -> estende p w w' -> estende q w w'.
Proof.
  intros Hpq (n & E & F). exists n. split; [exact E|].
  apply forallb_forall. intros e He.
  apply Hpq. now apply (proj1 (forallb_forall p n) F).
Qed.

Ltac historia :=
  eexists; split;
  [ rewrite <- ?app_assoc; cbn; reflexivity
  | cbn; rewrite ?Bool.eqb_reflx; reflexivity ].

Lemma Forall_None_tail (e : option Error) l :
  Forall (eq None) (e :: l) -> e = None /\ Forall (eq None) l.
Proof. intros H. inversion H; subst. now split. Qed.

Ltac desdobra :=
  unfold executar_comando, buscar_dados, fechar_conexao, try_except_Error,
    cursor_execute, cursor_fetchall, conexao_commit, cursor_close,
    conexao_close, proxima_falha, logging, set_cursor, set_conexao, bind,
    get, emite, raise, ret, set_falhas, set_servidor, set_banco,
    conexao_ativa, tem_cursor, cursor_aberto.

Ltac sem_erro :=
  repeat match goal with
         | H : Forall (eq None) (_ :: _) |- _ =>
             apply Forall_None_tail in H; destruct H
         end;
  try discriminate.

(** [executar_comando] always returns, whatever the backend does. *)
Lemma executar_comando_spec (c : sql) (ps : tupla) (w : Mundo) :
  exists w',
    executar_comando c ps w = (Retorno tt, w') /\
    mesmo_console w w' /\
    (servidor w' = servidor w \/
     exists r, sem_sql c ps (servidor w) = Some (servidor w', r)) /\
    (exists novos, eventos w' = eventos w ++ Executar c ps :: novos /\
                   forallb (interno c) novos = true) /\
    (saudavel w ->
     saudavel w' /\
     forall s' r, sem_sql c ps (servidor w) = Some (s', r) ->
                  servidor w' = s').
Proof.
  destruct w as [[[[[|]]|] [[[|] pe]|]] r s ent rel fs evs];
    destruct fs as [|[e1|] [|[e2|] fs]];
    destruct (sem_sql c ps s) as [[s' rows]|] eqn:Hsem;
    desdobra; cbn; rewrite ?Hsem; cbn;
    eexists; (split; [reflexivity|]); cbn;
    (split; [repeat split|]);
    (split; [first [left; reflexivity | right; eexists; reflexivity]|]);
    (split; [historia|]);
    unfold saudavel; cbn; intros (Hbd & Hat & Hcu & Hfs);
    try discriminate; sem_erro;
    (split; [repeat split; auto|]);
    intros s2 r2 H2; congruence.
Qed.

(** [buscar_dados] always returns a list: the rows of the result set, or
    the empty list after any failure. *)
Lemma buscar_dados_spec (c : sql) (ps : tupla) (w : Mundo) :
  exists rows w',
    buscar_dados c ps w = (Retorno rows, w') /\
    mesmo_console w w' /\
    ((rows = [] /\
      (servidor w' = servidor w \/
       exists r, sem_sql c ps (servidor w) = Some (servidor w', r))) \/
     sem_sql c ps (servidor w) = Some (servidor w', Some rows)) /\
    (exists novos, eventos w' = eventos w ++ Buscar c ps :: novos /\
                   forallb (interno_busca c) novos = true) /\
    (saudavel w ->
     saudavel w' /\
     forall s' rs,
       sem_sql c ps (servidor w) = Some (s', Some rs) ->
       rows = rs /\
       exists m,
         eventos w' =
         eventos w ++ [Buscar c ps; CursorExecute c ps; CursorFetchall;
                       Log DEBUG m]).
Proof.
  destruct w as [[[[[|]]|] [[[|] pe]|]] r s ent rel fs evs];
    destruct fs as [|[e1|] [|[e2|] fs]];
    destruct (sem_sql c ps s) as [[s' [rows|]]|] eqn:Hsem;
    desdobra; cbn; rewrite ?Hsem; cbn;
    do 2 eexists; (split; [reflexivity|]); cbn;
    (split; [repeat split|]);
    (split;
     [first [ right; reflexivity
            | left; split; [reflexivity|];
              first [left; reflexivity | right; eexists; reflexivity] ]|]);
    (split; [historia|]);
    unfold saudavel; cbn; intros (Hbd & Hat & Hcu & Hfs);
    try discriminate; sem_erro;
    (split; [repeat split; auto|]);
    intros s2 rs2 H2; try discriminate;
    (split; [congruence|]);
    eexists; rewrite <- ?app_assoc; cbn; reflexivity.
Qed.

Lemma sem_sql_consulta (c : sql) (ps : tupla) (s s' : Servidor) r :
  mutante c = false -> sem_sql c ps s = Some (s', r) -> s' = s.
Proof.
  destruct c; try discriminate; intros _; cbn;
    destruct ps as [|p [|q ps]]; try discriminate;
    intros H; now inversion H.
Qed.

Lemma exibe_todas_spec (rows : list tupla) (w : Mundo) :
  Forall (fun t => List.length t = 7%nat) rows ->
  exists w', exibe_todas rows w = (Retorno tt, w') /\
             so_eventos w w' /\ estende eh_info w w'.
Proof.
  intros H. revert w. induction H as [|t rows Ht _ IH]; intros w.
  - exists w. repeat split. apply estende_refl.
  - destruct t as [|t0 [|t1 [|t2 [|t3 [|t4 [|t5 [|t6 [|]]]]]]]];
      try discriminate.
    cbn [exibe_todas]. unfold bind at 1.
    unfold exibe_tarefa, bind, indice, logging, emite, ret; cbn.
    match goal with |- context [exibe_todas rows ?w1] =>
      destruct (IH w1) as (w' & -> & Hs & He) end.
    exists w'. split; [reflexivity|].
    destruct Hs as (a & b & c & d & e & f). cbn in *.
    split; [repeat split; assumption|].
    eapply estende_trans; [|exact He].
    eexists. split; [cbn; rewrite <- ?app_assoc; cbn; reflexivity|reflexivity].
Qed.

Arguments lit : simpl never.
Arguments txt : simpl never.
Arguments executar_comando : simpl never.
Arguments buscar_dados : simpl never.
Arguments exibe_todas : simpl never.

Lemma interno_leitura (c : sql) (e : evento) :
  mutante c = false -> interno_busca c e = true -> ev_leitura e = true.
Proof.
  intros Hc. destruct e as [n ?| | | | |c' ?| | | |]; cbn; try congruence.
  - destruct n; congruence.
  - rewrite Hc. now destruct (mutante c').
Qed.

Lemma eh_info_leitura (e : evento) : eh_info e = true -> ev_leitura e = true.
Proof. destruct e as [[] ?| | | | | | | | |]; cbn; congruence. Qed.

Lemma eh_info_invisivel (e : evento) :
  eh_info e = true -> negb (visivel e) = true.
Proof. destruct e as [[] ?| | | | | | | | |]; cbn; congruence. Qed.

Lemma sem_sql_tudo_7 (s s' : Servidor) (rows : list tupla) :
  sem_sql SQL_SELECT_TUDO [] s = Some (s', Some rows) ->
  Forall (fun t => List.length t = 7%nat) rows.
Proof.
  cbn. intros H. inversion H; subst.
  apply Forall_forall. intros t Ht. apply in_map_iff in Ht as (l & <- & _).
  reflexivity.
Qed.

Lemma estende_emite p e w :
  p e = true -> estende p w (snd (emite e w)).
Proof. intros H. exists [e]. cbn. now rewrite H. Qed.

(** [exibir_tarefas] returns, changes no row and asks nothing. *)
Lemma exibir_tarefas_spec (w : Mundo) :
  exists w',
    exibir_tarefas w = (Retorno tt, w') /\
    mesmo_console w w' /\
    servidor w' = servidor w /\
    estende ev_leitura w w' /\
    (saudavel w ->
     saudavel w' /\ estende (fun e => negb (visivel e)) w w').
Proof.
  unfold exibir_tarefas, is_bd_ready, self_bd, bind, get, ret. cbn.
  destruct (bd w) eqn:Hbd; cbn [andb negb].
  2:{ eexists. split; [reflexivity|]. cbn.
      split; [repeat split; assumption|]. split; [reflexivity|].
      split; [now apply estende_emite|].
      intros (H & _). congruence. }
  destruct (conexao_ativa (banco w)) eqn:Hat; cbn [negb].
  2:{ eexists. split; [reflexivity|]. cbn.
      split; [repeat split; assumption|]. split; [reflexivity|].
      split; [now apply estende_emite|].
      intros (_ & H & _). congruence. }
  cbn. rewrite Hbd.
  destruct (buscar_dados_spec SQL_SELECT_TUDO [] w)
    as (rows & w1 & -> & Hc & Hsem & (n1 & He1 & Hi1) & Hs).
  assert (Hsrv : servidor w1 = servidor w).
  { destruct Hsem as [(_ & [H|(r & H)])|H]; auto;
      exact (sem_sql_consulta SQL_SELECT_TUDO _ _ _ _ eq_refl H). }
  assert (Hex1 : estende ev_leitura w w1).
  { exists (Buscar SQL_SELECT_TUDO [] :: n1). split; [exact He1|].
    cbn. apply forallb_forall. intros e He.
    apply (interno_leitura SQL_SELECT_TUDO); [reflexivity|].
    now apply (proj1 (forallb_forall _ n1) Hi1). }
  destruct rows as [|t rows].
  - eexists. split; [reflexivity|]. cbn.
    split; [exact Hc|]. split; [exact Hsrv|].
    split; [eapply estende_trans; [exact Hex1|now apply estende_emite]|].
    intros Hsa. destruct (Hs Hsa) as (Hsa1 & Hrs).
    split; [exact Hsa1|].
    destruct (Hrs _ _ eq_refl) as (_ & m & Hev).
    eapply estende_trans; [|now apply estende_emite].
    eexists. split; [exact Hev|reflexivity].
  - assert (H7 : Forall (fun t => List.length t = 7%nat) (t :: rows)).
    { destruct Hsem as [(H & _)|H]; [discriminate|].
      eapply sem_sql_tudo_7; eauto. }
    match goal with |- context [exibe_todas _ ?w2] =>
      destruct (exibe_todas_spec (t :: rows) w2 H7)
        as (w3 & -> & (a & b & c & d & e & f) & Hin) end.
    cbn in a, b, c, d, e, f.
    exists w3. split; [reflexivity|].
    destruct Hc as (c1 & c2 & c3 & c4 & c5).
    split; [repeat split; congruence|]. split; [congruence|].
    assert (Hmid : forall p, p (Log INFO [Lit [10%N]; lit " --- Lista de Tarefas ---"]) = true ->
                   (forall e, eh_info e = true -> p e = true) ->
                   estende p w w1 -> estende p w w3).
    { intros p Hp Hpi H1. eapply estende_trans; [exact H1|].
      eapply estende_trans; [apply (estende_emite p _ w1 Hp)|].
      eapply estende_mais; [exact Hpi|exact Hin]. }
    split; [apply Hmid; auto using eh_info_leitura|].
    intros Hsa. destruct (Hs Hsa) as (Hsa1 & Hrs).
    split.
    + destruct Hsa1 as (s1 & s2 & s3 & s4). unfold saudavel.
      unfold cursor_aberto in *. rewrite a, b, f. auto.
    + apply Hmid; auto using eh_info_invisivel.
      destruct (Hrs _ _ eq_refl) as (_ & m & Hev).
      eexists. split; [exact Hev|reflexivity].
Qed.

(* ================================================================== *)
(** ** The pieces of update and delete *)

Lemma sem_mutacao_leitura (e : evento) :
  ev_leitura e = true -> sem_mutacao e = true.
Proof.
  unfold sem_mutacao, chamada_mutante, execucao_mutante.
  destruct e as [[] ?| | | |c ?|c ?| | | |]; cbn; intros H;
    try discriminate; try reflexivity;
    destruct (mutante c); cbn in *; congruence.
Qed.

Lemma sem_mutacao_busca (c : sql) (e : evento) :
  mutante c = false -> interno_busca c e = true -> sem_mutacao e = true.
Proof.
  intros Hc He. apply sem_mutacao_leitura. now apply (interno_leitura c).
Qed.

Lemma forallb_mais {A} (p q : A -> bool) (l : list A) :
  (forall x, p x = true -> q x = true) ->
  forallb p l = true -> forallb q l = true.
Proof.
  intros H F. apply forallb_forall. intros x Hx.
  apply H. now apply (proj1 (forallb_forall p l) F).
Qed.

(** The search over the fetched ids finds exactly the rows whose id
    prints as the text typed. *)
Lemma procura_id_map (tab : list linha) (idt : pystr) (w : Mundo) :
  procura_id (map tupla_id tab) idt w =
  (Retorno (existsb (casa_id (VStr idt)) tab), w).
Proof.
  induction tab as [|l tab IH]; [reflexivity|].
  cbn [map procura_id tupla_id]. unfold bind, indice. cbn.
  destruct (PyStr.eqb (str_int (col_id l)) idt); [reflexivity|].
  now rewrite IH.
Qed.

Lemma filter_cabeca {A} (f : A -> bool) (l : list A) (x : A) (r : list A) :
  filter f l = x :: r -> find f l = Some x.
Proof.
  induction l as [|y l IH]; cbn; [discriminate|].
  destruct (f y); [congruence|exact IH].
Qed.

(** Lines 243-248 against the rule of the specification: with a text as
    the new status the two agree; any other new status raises. *)
Lemma regra_data_conclusao_texto (s2 : pystr) (s1 : option pystr)
    (antiga : option datetime) (w : Mundo) :
  regra_data_conclusao (VStr s2) (de_texto s1) (de_data antiga) w =
  (Retorno (regra_spec s2 s1 antiga (relogio w)), w).
Proof.
  unfold regra_data_conclusao, regra_spec, py_and, py_or, bind, ret,
    metodo_lower, datetime_now, get, status_concluido, eh_concluida.
  destruct s1 as [s1|]; cbn;
    destruct (PyStr.eqb (lower s2) concluida); cbn;
    try destruct (PyStr.eqb (lower s1) concluida); reflexivity.
Qed.

Lemma regra_data_conclusao_None (s1 antiga : valor) (w : Mundo) :
  regra_data_conclusao VNone s1 antiga w = (Levanta AttributeError, w).
Proof. reflexivity. Qed.

Lemma estende_lista p w w' l :
  eventos w' = eventos w ++ l -> forallb p l = true -> estende p w w'.
Proof. intros H F. exists l. now split. Qed.

Ltac cadeia :=
  repeat first
    [ eassumption
    | apply estende_refl
    | (eapply estende_trans; [eassumption|])
    | (eexists; split;
       [cbn; rewrite <- ?app_assoc; reflexivity | cbn; reflexivity]) ].

Arguments exibir_tarefas : simpl never.
Arguments procura_id : simpl never.
Arguments regra_data_conclusao : simpl never.

Lemma atualizar_tarefa_forma :
  atualizar_tarefa =
  seleciona_tarefa
    [lit "Não é possível atualizar tarefa. Conexão com o banco de dados não está ativa."]
    [lit "Nenhuma tarefa cadastrada para atualizar."]
    [lit "Digite o ID da tarefa que deseja atualizar: "]
    atualizar_encontrada.
Proof. reflexivity. Qed.

Lemma excluir_tarefa_forma :
  excluir_tarefa =
  seleciona_tarefa
    [lit "Não é possível excluir tarefa. Conexão com o banco de dados não está ativa."]
    [lit "Nenhuma tarefa cadastrada para excluir."]
    [lit "Digite a ID para excluir uma tarefa: "]
    (fun id_tarefa =>
       self_bd (executar_comando SQL_DELETE [VStr id_tarefa]) ;;
       logging INFO [lit "Tarefa excluída com sucesso!"]).
Proof. reflexivity. Qed.

Lemma saudavel_mesma_sessao (w w' : Mundo) :
  banco w' = banco w -> bd w' = bd w -> falhas w' = falhas w ->
  saudavel w -> saudavel w'.
Proof. unfold saudavel. intros -> -> ->. auto. Qed.

(** How the common part of update and delete ends: it stops without
    touching a row (gateway not ready, nothing fetched, no line to read,
    id not found), or it hands the id found to the continuation. *)
Lemma seleciona_tarefa_casos (mi mv p : mensagem) (k : pystr -> M unit)
    (w : Mundo) (r : resultado unit) (w' : Mundo) :
  seleciona_tarefa mi mv p k w = (r, w') ->
  (servidor w' = servidor w /\ relogio w' = relogio w /\
   estende sem_mutacao w w' /\
   ((pronto w = false /\ r = Retorno tt /\ entrada w' = entrada w /\
     eventos w' = eventos w ++ [Log ERROR mi])
    \/
    (pronto w = true /\ r = Retorno tt /\ entrada w' = entrada w /\
     estende ev_leitura w w' /\
     (saudavel w -> tabela (servidor w) = []))
    \/
    (pronto w = true /\ entrada w = [] /\ r = Levanta EOFError)
    \/
    (exists idt resto pre,
       pronto w = true /\ entrada w = idt :: resto /\
       existsb (casa_id (VStr idt)) (tabela (servidor w)) = false /\
       r = Retorno tt /\ entrada w' = resto /\
       eventos w' = eventos w ++ pre ++ [Prompt p; nao_encontrada idt] /\
       forallb ev_leitura pre = true)))
  \/
  (exists idt resto w0 pre,
     pronto w = true /\ entrada w = idt :: resto /\
     existsb (casa_id (VStr idt)) (tabela (servidor w)) = true /\
     k idt w0 = (r, w') /\
     bd w0 = true /\ servidor w0 = servidor w /\ relogio w0 = relogio w /\
     entrada w0 = resto /\
     eventos w0 = eventos w ++ pre ++ [Prompt p] /\
     forallb ev_leitura pre = true /\
     (saudavel w -> saudavel w0)).
Proof.
  intros H.
  unfold seleciona_tarefa, is_bd_ready, self_bd, bind, get, ret in H.
  cbn in H. fold (pronto w) in H.
  destruct (pronto w) eqn:Hpr; cbn [negb] in H.
  2:{ injection H as <- <-. left. cbn.
      repeat split; [now apply estende_emite|]. left. repeat split. }
  assert (Hbd : bd w = true).
  { unfold pronto in Hpr. now apply andb_true_iff in Hpr. }
  cbn in H.
  destruct (exibir_tarefas_spec w) as (w1 & Hx & Hc1 & Hs1 & He1 & Hsa1).
  rewrite Hx in H; clear Hx.
  destruct Hc1 as (Hbd1 & Hen1 & Hre1 & _).
  rewrite Hbd1, Hbd in H.
  destruct (buscar_dados_spec SQL_SELECT_IDS [] w1)
    as (ids & w2 & Hx & Hc2 & Hsem2 & (n2 & Hev2 & Hi2) & Hsa2).
  rewrite Hx in H; clear Hx.
  assert (Hs2 : servidor w2 = servidor w1).
  { destruct Hsem2 as [(_ & [H0|(x & H0)])|H0]; auto;
      exact (sem_sql_consulta SQL_SELECT_IDS _ _ _ _ eq_refl H0). }
  assert (He2 : estende ev_leitura w1 w2).
  { eapply estende_lista; [exact Hev2|]. cbn.
    eapply forallb_mais; [|exact Hi2].
    intros e. now apply interno_leitura. }
  assert (He12 : estende ev_leitura w w2) by (eapply estende_trans; eauto).
  assert (Hm12 : estende sem_mutacao w w2).
  { eapply estende_mais; [exact sem_mutacao_leitura|exact He12]. }
  destruct Hc2 as (Hbd2 & Hen2 & Hre2 & _).
  assert (Hsa : saudavel w -> saudavel w2 /\
            ids = map tupla_id (tabela (servidor w))).
  { intros Hw. destruct (Hsa1 Hw) as (Hw1 & _).
    destruct (Hsa2 Hw1) as (Hw2 & Hrs). split; [exact Hw2|].
    rewrite <- Hs1. now destruct (Hrs _ _ eq_refl). }
  destruct ids as [|t ids].
  { injection H as <- <-. left. cbn.
    repeat split; [congruence..|cadeia|].
    right; left. repeat split; [congruence|cadeia|].
    intros Hw. destruct (Hsa Hw) as (_ & Hn).
    symmetry in Hn. now apply map_eq_nil in Hn. }
  destruct Hsem2 as [(Hx & _)|Hsem2]; [discriminate|].
  cbn in Hsem2. injection Hsem2 as _ Hids.
  rewrite <- Hids, Hen2, Hen1 in H.
  destruct (entrada w) as [|idt e1] eqn:Hent.
  { injection H as <- <-. left. cbn.
    repeat split; [congruence..|cadeia|].
    right; right; left. repeat split. }
  cbn in H. rewrite procura_id_map in H. rewrite Hs1 in H.
  destruct He12 as (pre & Hpre & Fpre).
  destruct (existsb (casa_id (VStr idt)) (tabela (servidor w))) eqn:Hex;
    cbn in H.
  - right. exists idt, e1. eexists. exists pre.
    split; [reflexivity|]. split; [reflexivity|]. split; [exact Hex|].
    split; [exact H|]. cbn.
    split; [congruence|]. split; [congruence|]. split; [congruence|].
    split; [reflexivity|].
    split; [rewrite Hpre, <- app_assoc; reflexivity|].
    split; [exact Fpre|].
    intros Hw. destruct (Hsa Hw) as (Hw2 & _).
    revert Hw2. now apply saudavel_mesma_sessao.
  - injection H as <- <-. left. cbn.
    repeat split; [congruence..|cadeia|].
    right; right; right. exists idt, e1, pre.
    repeat split; try assumption.
    rewrite Hpre, <- !app_assoc. reflexivity.
Qed.

Lemma ou_atual_texto (st : pystr) (o : option pystr) :
  (st = [] /\ o = None /\ ou_atual st (de_texto o) = VNone) \/
  exists s2, ou_atual st (de_texto o) = VStr s2.
Proof. destruct st, o; cbn; eauto. Qed.

(** The parameters the update binds are always accepted by the
    statement. *)
Lemma sem_sql_update_aceita (a b c s2 idt : pystr) (l : linha)
    (agora : datetime) (s : Servidor) :
  exists s' x,
    sem_sql SQL_UPDATE
      [ou_atual a (VStr (col_titulo l));
       ou_atual b (de_texto (col_descricao l));
       ou_atual c (de_texto (col_responsavel l));
       VStr s2;
       regra_spec s2 (col_status l) (col_data_conclusao l) agora;
       VStr idt] s = Some (s', x).
Proof.
  unfold regra_spec.
  destruct a, b, c, (col_descricao l), (col_responsavel l),
    (col_data_conclusao l),
    (eh_concluida s2 && negb (status_concluido (col_status l))),
    (negb (eh_concluida s2) && status_concluido (col_status l));
    cbn; eauto.
Qed.

Arguments sem_sql : simpl never.

(** How the update ends once the id was found: without touching a row
    (no row fetched, no line left to read, or a null status kept, which
    raises), or after exactly one call of the gateway with the update
    statement. *)
Lemma atualizar_encontrada_desfecho (idt : pystr) (w : Mundo)
    (r : resultado unit) (w' : Mundo) :
  bd w = true ->
  atualizar_encontrada idt w = (r, w') ->
  (servidor w' = servidor w /\ relogio w' = relogio w /\
   estende sem_mutacao w w' /\
   ((r = Retorno tt /\
     (saudavel w ->
      find (casa_id (VStr idt)) (tabela (servidor w)) = None))
    \/
    (r = Levanta EOFError /\ (List.length (entrada w) < 4)%nat)
    \/
    (exists a b c resto l,
       entrada w = a :: b :: c :: [] :: resto /\
       find (casa_id (VStr idt)) (tabela (servidor w)) = Some l /\
       col_status l = None /\
       r = Levanta AttributeError /\ entrada w' = resto)))
  \/
  exists a b c st resto l s2 pre mid,
    entrada w = a :: b :: c :: st :: resto /\
    entrada w' = resto /\
    find (casa_id (VStr idt)) (tabela (servidor w)) = Some l /\
    ou_atual st (de_texto (col_status l)) = VStr s2 /\
    let params :=
      [ou_atual a (VStr (col_titulo l));
       ou_atual b (de_texto (col_descricao l));
       ou_atual c (de_texto (col_responsavel l));
       VStr s2;
       regra_spec s2 (col_status l) (col_data_conclusao l) (relogio w);
       VStr idt] in
    r = Retorno tt /\
    relogio w' = relogio w /\
    eventos w' =
      eventos w ++ pre ++ Executar SQL_UPDATE params :: mid ++ [msg_atualizada] /\
    forallb sem_mutacao pre = true /\
    forallb (interno SQL_UPDATE) mid = true /\
    (servidor w' = servidor w \/
     exists x, sem_sql SQL_UPDATE params (servidor w) = Some (servidor w', x)) /\
    (saudavel w ->
     exists x, sem_sql SQL_UPDATE params (servidor w) = Some (servidor w', x)).
Proof.
  intros Hbd H.
  unfold atualizar_encontrada, self_bd, bind, get, ret in H.
  cbn in H. rewrite Hbd in H.
  destruct (buscar_dados_spec SQL_SELECT_ATUAIS [VStr idt] w)
    as (rows & w3 & Hx & Hc3 & Hsem3 & (n3 & Hev3 & Hi3) & Hsa3).
  rewrite Hx in H; clear Hx.
  assert (Hs3 : servidor w3 = servidor w).
  { destruct Hsem3 as [(_ & [H0|(x & H0)])|H0]; auto; now inversion H0. }
  assert (He3 : estende sem_mutacao w w3).
  { eapply estende_lista; [exact Hev3|]. cbn.
    eapply forallb_mais; [|exact Hi3].
    intros e. now apply sem_mutacao_busca. }
  destruct Hc3 as (Hbd3 & Hen3 & Hre3 & _).
  destruct rows as [|primeira rows].
  { injection H as <- <-. left. cbn.
    repeat split; [congruence..|cadeia|].
    left. split; [reflexivity|].
    intros Hw. destruct (Hsa3 Hw) as (_ & Hrs).
    destruct (Hrs _ _ eq_refl) as (Hn & _).
    symmetry in Hn. apply map_eq_nil in Hn.
    destruct (find _ _) as [l|] eqn:Hf; [|reflexivity].
    apply find_some in Hf as (Hin & Hl).
    assert (Hin' : In l (filter (casa_id (VStr idt)) (tabela (servidor w))))
      by (apply filter_In; now split).
    rewrite Hn in Hin'. contradiction. }
  destruct Hsem3 as [(Hx & _)|Hsem3]; [discriminate|].
  injection Hsem3 as _ Hrows.
  destruct (filter (casa_id (VStr idt)) (tabela (servidor w)))
    as [|l ls] eqn:Hfil; [discriminate|].
  cbn in Hrows. injection Hrows as Hp _. subst primeira.
  apply filter_cabeca in Hfil.
  cbn in H. rewrite Hen3 in H.
  destruct (entrada w) as [|a e2] eqn:Hent.
  { injection H as <- <-; left; cbn.
    repeat split; [congruence..|cadeia|]. right; left. split; [reflexivity|lia]. }
  cbn in H.
  destruct e2 as [|b e3].
  { injection H as <- <-; left; cbn.
    repeat split; [congruence..|cadeia|]. right; left. split; [reflexivity|lia]. }
  cbn in H.
  destruct e3 as [|c e4].
  { injection H as <- <-; left; cbn.
    repeat split; [congruence..|cadeia|]. right; left. split; [reflexivity|lia]. }
  cbn in H.
  destruct e4 as [|st e5].
  { injection H as <- <-; left; cbn.
    repeat split; [congruence..|cadeia|]. right; left. split; [reflexivity|lia]. }
  cbn in H.
  destruct (ou_atual_texto st (col_status l)) as [(-> & Hnul & Hou)|(s2 & Hou)];
    rewrite Hou in H.
  { rewrite regra_data_conclusao_None in H.
    injection H as <- <-; left; cbn.
    repeat split; [congruence..|cadeia|]. right; right.
    exists a, b, c, e5, l. repeat split; first [assumption|reflexivity]. }
  rewrite regra_data_conclusao_texto in H. cbn in H.
  rewrite Hbd3, Hbd in H.
  match type of H with context [executar_comando ?c ?ps ?w0] =>
    destruct (executar_comando_spec c ps w0)
      as (w4 & Hx & Hc4 & Hsem4 & (n4 & Hev4 & Hi4) & Hsa4) end.
  rewrite Hx in H; clear Hx. cbn in H. injection H as <- <-.
  match type of Hev4 with eventos _ = eventos ?W ++ _ =>
    assert (Hpre : estende sem_mutacao w W) by cadeia end.
  destruct Hpre as (pre & Hp & Fp). rewrite Hp in Hev4.
  destruct Hc4 as (_ & Hen4 & Hre4 & _).
  cbn in Hsem4, Hen4, Hre4.
  rewrite Hre3 in *. rewrite Hs3 in *.
  right. exists a, b, c, st, e5, l, s2, pre, n4. cbn.
  split; [reflexivity|]. split; [assumption|]. split; [assumption|].
  split; [assumption|]. split; [reflexivity|]. split; [assumption|].
  split; [rewrite Hev4, <- !app_assoc; reflexivity|].
  split; [assumption|]. split; [assumption|]. split; [assumption|].
  intros Hw. destruct (Hsa3 Hw) as (Hw3 & _).
  destruct Hsa4 as (_ & Hex).
  { revert Hw3.
    apply saudavel_mesma_sessao; [reflexivity|cbn; congruence|reflexivity]. }
  cbn in Hex.
  destruct (sem_sql_update_aceita a b c s2 idt l (relogio w) (servidor w))
    as (s' & x & Hok).
  exists x. rewrite (Hex _ _ Hok). exact Hok.
Qed.

(* ================================================================== *)
(** ** The three changing operations, run by run *)

Lemma estende_sem_mutacao_prompt (w w0 : Mundo) (pre : list evento)
    (p : mensagem) :
  eventos w0 = eventos w ++ pre ++ [Prompt p] ->
  forallb ev_leitura pre = true ->
  estende sem_mutacao w w0.
Proof.
  intros He Fp. eapply estende_lista; [exact He|].
  rewrite forallb_app. cbn. rewrite andb_true_r.
  eapply forallb_mais; [exact sem_mutacao_leitura|exact Fp].
Qed.

(** Every run of [atualizar_tarefa] ends in one of two ways: without any
    change to stored rows, or after exactly one call of the gateway with
    the update statement, whose parameters are the answers of the
    operator over the first stored row of that id. *)
Lemma atualizar_tarefa_desfecho (w : Mundo) (r : resultado unit) (w' : Mundo) :
  atualizar_tarefa w = (r, w') ->
  (servidor w' = servidor w /\ relogio w' = relogio w /\
   estende sem_mutacao w w')
  \/
  exists idt a b c st resto l s2 pre mid,
    entrada w = idt :: a :: b :: c :: st :: resto /\
    entrada w' = resto /\
    find (casa_id (VStr idt)) (tabela (servidor w)) = Some l /\
    ou_atual st (de_texto (col_status l)) = VStr s2 /\
    let params :=
      [ou_atual a (VStr (col_titulo l));
       ou_atual b (de_texto (col_descricao l));
       ou_atual c (de_texto (col_responsavel l));
       VStr s2;
       regra_spec s2 (col_status l) (col_data_conclusao l) (relogio w);
       VStr idt] in
    r = Retorno tt /\
    relogio w' = relogio w /\
    eventos w' =
      eventos w ++ pre ++ Executar SQL_UPDATE params :: mid ++ [msg_atualizada] /\
    forallb sem_mutacao pre = true /\
    forallb (interno SQL_UPDATE) mid = true /\
    (servidor w' = servidor w \/
     exists x, sem_sql SQL_UPDATE params (servidor w) = Some (servidor w', x)) /\
    (saudavel w ->
     exists x, sem_sql SQL_UPDATE params (servidor w) = Some (servidor w', x)).
Proof.
  intros H. rewrite atualizar_tarefa_forma in H.
  apply seleciona_tarefa_casos in H
    as [(Hs & Hr & He & _)
       |(idt & resto & w0 & pre0 & Hpr & Hent & Hex & Hk & Hbd0 & Hs0 & Hr0
         & Hen0 & Hev0 & Fp0 & Hsa0)]; [left; auto|].
  pose proof (estende_sem_mutacao_prompt _ _ _ _ Hev0 Fp0) as He0.
  apply atualizar_encontrada_desfecho in Hk
    as [(Hs & Hr & He & _)
       |(a & b & c & st & e5 & l & s2 & pre & mid & Hent1 & Hen' & Hfind
         & Hou & Hret & Hrel & Hev & Fp & Fm & Hsem & Hsa)]; [| |exact Hbd0].
  - left. repeat split; [congruence..|]. eapply estende_trans; eauto.
  - right. destruct He0 as (n0 & Hn0 & Fn0).
    exists idt, a, b, c, st, e5, l, s2, (n0 ++ pre), mid.
    rewrite Hs0, Hr0 in *.
    split; [congruence|]. split; [assumption|]. split; [assumption|].
    split; [assumption|]. cbn.
    split; [assumption|]. split; [assumption|].
    split; [rewrite Hev, Hn0, <- !app_assoc; reflexivity|].
    split; [rewrite forallb_app, Fn0, Fp; reflexivity|].
    split; [assumption|]. split; [assumption|].
    intros Hw. apply Hsa. now apply Hsa0.
Qed.

(** The same for [excluir_tarefa], with the delete statement. *)
Lemma excluir_tarefa_desfecho (w : Mundo) (r : resultado unit) (w' : Mundo) :
  excluir_tarefa w = (r, w') ->
  (servidor w' = servidor w /\ relogio w' = relogio w /\
   estende sem_mutacao w w')
  \/
  exists idt resto pre mid,
    entrada w = idt :: resto /\
    entrada w' = resto /\
    existsb (casa_id (VStr idt)) (tabela (servidor w)) = true /\
    r = Retorno tt /\
    eventos w' =
      eventos w ++ pre ++ Executar SQL_DELETE [VStr idt] :: mid
      ++ [msg_excluida] /\
    forallb sem_mutacao pre = true /\
    forallb (interno SQL_DELETE) mid = true /\
    (servidor w' = servidor w \/
     exists x, sem_sql SQL_DELETE [VStr idt] (servidor w)
               = Some (servidor w', x)).
Proof.
  intros H. rewrite excluir_tarefa_forma in H.
  apply seleciona_tarefa_casos in H
    as [(Hs & Hr & He & _)
       |(idt & resto & w0 & pre0 & Hpr & Hent & Hex & Hk & Hbd0 & Hs0 & Hr0
         & Hen0 & Hev0 & Fp0 & Hsa0)]; [left; auto|].
  pose proof (estende_sem_mutacao_prompt _ _ _ _ Hev0 Fp0) as He0.
  unfold self_bd, bind, get in Hk. cbn in Hk. rewrite Hbd0 in Hk.
  destruct (executar_comando_spec SQL_DELETE [VStr idt] w0)
    as (w4 & Hx & Hc4 & Hsem4 & (n4 & Hev4 & Hi4) & _).
  rewrite Hx in Hk; clear Hx. cbn in Hk. injection Hk as <- <-.
  destruct Hc4 as (_ & Hen4 & _).
  destruct He0 as (n0 & Hn0 & Fn0).
  right. exists idt, resto, n0, n4. cbn. rewrite Hs0 in *.
  split; [assumption|]. split; [congruence|]. split; [assumption|].
  split; [reflexivity|].
  split; [rewrite Hev4, Hn0, <- !app_assoc; reflexivity|].
  split; [assumption|]. split; assumption.
Qed.

(** The title loop: it turns down every short line with a warning and a
    new prompt, and ends at the first line of twelve characters or more,
    or with [EOFError] when the lines run out. *)
Lemma laco_titulo_spec (linhas : list pystr) (w : Mundo) :
  exists w1,
    banco w1 = banco w /\ bd w1 = bd w /\ servidor w1 = servidor w /\
    relogio w1 = relogio w /\ falhas w1 = falhas w /\
    ((exists curtos t resto,
        linhas = curtos ++ t :: resto /\ Forall curto curtos /\
        (12 <= List.length t)%nat /\
        laco_titulo linhas w = (Retorno t, w1) /\
        entrada w1 = resto /\
        eventos w1 =
          eventos w ++ flat_map (fun _ => recusa_titulo) curtos
          ++ [Prompt [lit "Título da tarefa: "]])
     \/
     (Forall curto linhas /\
      laco_titulo linhas w = (Levanta EOFError, w1) /\
      eventos w1 =
        eventos w ++ flat_map (fun _ => recusa_titulo) linhas
        ++ [Prompt [lit "Título da tarefa: "]])).
Proof.
  revert w. induction linhas as [|t linhas IH]; intros w.
  - exists (snd (laco_titulo [] w)). repeat split. right.
    repeat split. constructor.
  - cbn [laco_titulo]. unfold bind, emite, set_entrada, logging, ret.
    cbn -[Nat.leb].
    destruct (12 <=? List.length t)%nat eqn:Hlen.
    + match goal with |- context [(Retorno t, ?W)] => exists W end.
      do 5 (split; [reflexivity|]). left. exists [], t, linhas.
      split; [reflexivity|]. split; [constructor|].
      split; [now apply Nat.leb_le|].
      repeat (split; [reflexivity|]). reflexivity.
    + apply Nat.leb_gt in Hlen.
      match goal with |- context [laco_titulo linhas ?w0] =>
        destruct (IH w0) as (w1 & Hb & Hd & Hs & Hr & Hf & Hcase) end.
      cbn in Hb, Hd, Hs, Hr, Hf. exists w1. repeat split; try assumption.
      destruct Hcase as [(curtos & t' & resto & -> & Hc & Ht & Hrun & Hen & Hev)
                        |(Hc & Hrun & Hev)].
      * left. exists (t :: curtos), t', resto.
        repeat split; try assumption.
        -- now constructor.
        -- rewrite Hev. cbn. rewrite <- !app_assoc. reflexivity.
      * right. repeat split; try assumption.
        -- now constructor.
        -- rewrite Hev. cbn. rewrite <- !app_assoc. reflexivity.
Qed.

Arguments laco_titulo : simpl never.

(** Every run of [cadastrar_tarefa]: no change to stored rows, or
    exactly one call of the gateway with the insert statement, binding a
    title of twelve characters or more, status [Pendente], the current
    time and a null completion. *)
Lemma cadastrar_tarefa_desfecho (w : Mundo) (r : resultado unit) (w' : Mundo) :
  cadastrar_tarefa w = (r, w') ->
  (servidor w' = servidor w /\ relogio w' = relogio w /\
   estende sem_mutacao w w' /\
   (pronto w = false
    \/
    (Forall curto (entrada w) /\ r = Levanta EOFError /\
     eventos w' =
       eventos w ++ flat_map (fun _ => recusa_titulo) (entrada w)
       ++ [Prompt [lit "Título da tarefa: "]])
    \/
    (exists curtos t resto,
       entrada w = curtos ++ t :: resto /\ Forall curto curtos /\
       (12 <= List.length t)%nat /\ (List.length resto < 2)%nat /\
       r = Levanta EOFError)))
  \/
  exists curtos t d resp resto mid,
    entrada w = curtos ++ t :: d :: resp :: resto /\
    Forall curto curtos /\ (12 <= List.length t)%nat /\
    entrada w' = resto /\
    let params :=
      [VStr t; VStr d; VStr resp; VStr (txt "Pendente");
       VData (relogio w); VNone] in
    r = Retorno tt /\
    relogio w' = relogio w /\
    eventos w' =
      eventos w ++
      (flat_map (fun _ => recusa_titulo) curtos ++
       [Prompt [lit "Título da tarefa: "];
        Prompt [lit "Descrição da tarefa: "];
        Prompt [lit "Responsável: "]]) ++
      Executar SQL_INSERT params :: mid ++ [msg_cadastrada] /\
    forallb (interno SQL_INSERT) mid = true /\
    (servidor w' = servidor w \/
     exists x, sem_sql SQL_INSERT params (servidor w) = Some (servidor w', x)).
Proof.
  intros H.
  unfold cadastrar_tarefa, is_bd_ready, self_bd, bind, get, ret in H.
  cbn in H. fold (pronto w) in H.
  destruct (pronto w) eqn:Hpr; cbn [negb] in H;
    [|injection H as <- <-; left; repeat split;
      [now apply estende_emite|now left]].
  assert (Hbd : bd w = true).
  { unfold pronto in Hpr. now apply andb_true_iff in Hpr. }
  cbn in H.
  destruct (laco_titulo_spec (entrada w) w)
    as (w1 & Hb1 & Hd1 & Hs1 & Hr1 & Hf1 & Hcase).
  assert (Hrec : forallb sem_mutacao recusa_titulo = true) by reflexivity.
  assert (Hfm : forall l : list pystr,
             forallb sem_mutacao (flat_map (fun _ => recusa_titulo) l) = true).
  { induction l as [|x l IHl]; [reflexivity|].
    cbn [flat_map]. now rewrite forallb_app, Hrec, IHl. }
  destruct Hcase as [(curtos & t & e1 & Hent & Hc & Ht & Hrun & Hen & Hev)
                    |(Hc & Hrun & Hev)]; rewrite Hrun in H; clear Hrun.
  2:{ injection H as <- <-. left. repeat split; try assumption.
      - eapply estende_lista; [exact Hev|].
        now rewrite forallb_app, Hfm.
      - right; left. repeat split; assumption. }
  assert (He1 : estende sem_mutacao w w1).
  { eapply estende_lista; [exact Hev|]. now rewrite forallb_app, Hfm. }
  cbn in H. rewrite Hen in H.
  destruct e1 as [|d e2].
  { injection H as <- <-; left; cbn; repeat split; [congruence..|cadeia|].
    right; right. exists curtos, t, []. repeat split; auto. }
  cbn in H.
  destruct e2 as [|resp e3].
  { injection H as <- <-; left; cbn; repeat split; [congruence..|cadeia|].
    right; right. exists curtos, t, [d]. repeat split; auto. }
  cbn in H. unfold Tarefa.init, datetime_now, bind, get, ret in H.
  cbn in H. rewrite Hd1, Hbd in H.
  match type of H with context [executar_comando ?c ?ps ?w0] =>
    destruct (executar_comando_spec c ps w0)
      as (w4 & Hx & Hc4 & Hsem4 & (n4 & Hev4 & Hi4) & _) end.
  rewrite Hx in H; clear Hx. cbn in H. injection H as <- <-.
  destruct Hc4 as (_ & Hen4 & Hre4 & _).
  cbn in Hsem4, Hen4, Hre4, Hev4. rewrite Hr1, Hs1 in *.
  right. exists curtos, t, d, resp, e3, n4. cbn.
  split; [assumption|]. split; [assumption|]. split; [assumption|].
  split; [assumption|]. split; [reflexivity|]. split; [assumption|].
  split; [|split; assumption].
  rewrite Hev4, Hev, <- !app_assoc. cbn. reflexivity.
Qed.

Lemma primeiro_longo_unico (c1 c2 : list pystr) (t1 t2 : pystr)
    (r1 r2 : list pystr) :
  Forall curto c1 -> Forall curto c2 ->
  (12 <= List.length t1)%nat -> (12 <= List.length t2)%nat ->
  c1 ++ t1 :: r1 = c2 ++ t2 :: r2 ->
  c1 = c2 /\ t1 = t2 /\ r1 = r2.
Proof.
  unfold curto. intros H1. revert c2.
  induction H1 as [|x c1 Hx _ IH]; intros [|y c2] H2 L1 L2 E;
    cbn in E; injection E as E1 E2; subst.
  - auto.
  - inversion H2; subst. lia.
  - lia.
  - inversion H2; subst.
    destruct (IH c2 H3 L1 L2 E2) as (-> & -> & ->). auto.
Qed.

Lemma Forall_curto_app (c : list pystr) (t : pystr) (r : list pystr) :
  (12 <= List.length t)%nat -> ~ Forall curto (c ++ t :: r).
Proof.
  intros L H. apply Forall_app in H as (_ & H).
  inversion H; subst. unfold curto in *. lia.
Qed.

Lemma find_existsb {A} (f : A -> bool) (l : list A) (x : A) :
  find f l = Some x -> existsb f l = true.
Proof.
  intros H. apply find_some in H as (Hin & Hf).
  apply existsb_exists. eauto.
Qed.

Lemma saudavel_pronto (w : Mundo) : saudavel w -> pronto w = true.
Proof. intros (Hb & Ha & _). unfold pronto. now rewrite Hb, Ha. Qed.

(** With the gateway in working order, the id on the console stored and
    four more lines to read, an update has two outcomes only: the
    statement is issued and executed, or a null status was kept and the
    comparison raised. *)
Lemma atualizar_tarefa_saudavel (w : Mundo) (idt a b c st : pystr)
    (resto : list pystr) (l : linha) (r : resultado unit) (w' : Mundo) :
  saudavel w ->
  entrada w = idt :: a :: b :: c :: st :: resto ->
  find (casa_id (VStr idt)) (tabela (servidor w)) = Some l ->
  atualizar_tarefa w = (r, w') ->
  (st = [] /\ col_status l = None /\ r = Levanta AttributeError /\
   servidor w' = servidor w /\ entrada w' = resto /\
   estende sem_mutacao w w')
  \/
  (exists s2 pre mid,
     ou_atual st (de_texto (col_status l)) = VStr s2 /\
     let params :=
       [ou_atual a (VStr (col_titulo l));
        ou_atual b (de_texto (col_descricao l));
        ou_atual c (de_texto (col_responsavel l));
        VStr s2;
        regra_spec s2 (col_status l) (col_data_conclusao l) (relogio w);
        VStr idt] in
     r = Retorno tt /\ entrada w' = resto /\
     eventos w' =
       eventos w ++ pre ++ Executar SQL_UPDATE params :: mid
       ++ [msg_atualizada] /\
     forallb sem_mutacao pre = true /\
     forallb (interno SQL_UPDATE) mid = true /\
     exists x,
       sem_sql SQL_UPDATE params (servidor w) = Some (servidor w', x)).
Proof.
  intros Hw Hent Hfind H. rewrite atualizar_tarefa_forma in H.
  pose proof (saudavel_pronto w Hw) as Hpr.
  pose proof (find_existsb _ _ _ Hfind) as Hex.
  apply seleciona_tarefa_casos in H
    as [(_ & _ & _ & [(Hp & _)|[(_ & _ & _ & _ & Hvazia)|[(_ & He & _)
         |(i & e & p & _ & He & Hn & _)]]])
       |(i & e & w0 & pre0 & _ & He & _ & Hk & Hbd0 & Hs0 & Hr0
         & Hen0 & Hev0 & Fp0 & Hsa0)].
  - congruence.
  - rewrite (Hvazia Hw) in Hfind. discriminate.
  - congruence.
  - rewrite Hent in He. injection He as <- <-. congruence.
  - rewrite Hent in He. injection He as <- <-.
    pose proof (estende_sem_mutacao_prompt _ _ _ _ Hev0 Fp0) as He0.
    specialize (Hsa0 Hw).
    apply atualizar_encontrada_desfecho in Hk
      as [(Hs & Hr & He & [(_ & Hnone)|[(_ & Hlen)
           |(a' & b' & c' & e' & l' & Hent' & Hfind' & Hnul & Hret & Hen')]])
         |(a' & b' & c' & st' & e' & l' & s2 & pre & mid & Hent' & Hen'
           & Hfind' & Hou & Hret & Hrel & Hev & Fp & Fm & _ & Hsa)];
      [| | | |exact Hbd0].
    + specialize (Hnone Hsa0). rewrite Hs0 in Hnone. congruence.
    + rewrite Hen0 in Hlen. cbn in Hlen. lia.
    + rewrite Hen0 in Hent'. injection Hent' as <- <- <- <- <-.
      rewrite Hs0, Hfind in Hfind'. injection Hfind' as <-.
      left. repeat split; try assumption; try congruence.
      eapply estende_trans; eauto.
    + rewrite Hen0 in Hent'. injection Hent' as <- <- <- <- <-.
      rewrite Hs0, Hfind in Hfind'. injection Hfind' as <-.
      right. destruct He0 as (n0 & Hn0 & Fn0).
      exists s2, (n0 ++ pre), mid. rewrite Hs0, Hr0 in *.
      split; [assumption|]. cbn.
      split; [assumption|]. split; [assumption|].
      split; [rewrite Hev, Hn0, <- !app_assoc; reflexivity|].
      split; [rewrite forallb_app, Fn0, Fp; reflexivity|].
      split; [assumption|]. exact (Hsa Hsa0).
Qed.

(* ================================================================== *)
(** ** Relations that every step of a run keeps *)

Section Respeita.

Variable R : Mundo -> Mundo -> Prop.
Hypothesis R_refl : forall w, R w w.
Hypothesis R_trans : forall a b c, R a b -> R b c -> R a c.

Lemma respeita_ret {A} (a : A) : respeita R (ret a).
Proof. intros w. apply R_refl. Qed.

Lemma respeita_raise {A} (e : excecao) : respeita R (@raise A e).
Proof. intros w. apply R_refl. Qed.

Lemma respeita_get {A} (f : Mundo -> A) : respeita R (get f).
Proof. intros w. apply R_refl. Qed.

Lemma respeita_bind {A B} (m : M A) (f : A -> M B) :
  respeita R m -> (forall a, respeita R (f a)) -> respeita R (bind m f).
Proof.
  intros Hm Hf w. unfold bind. specialize (Hm w).
  destruct (m w) as [[a|e] w1]; cbn [snd] in *.
  - eapply R_trans; [exact Hm|apply Hf].
  - exact Hm.
Qed.

End Respeita.

Ltac respeito_em Hrefl Htrans folhas :=
  repeat first
    [ folhas
    | apply (respeita_ret _ Hrefl)
    | apply (respeita_raise _ Hrefl)
    | apply (respeita_get _ Hrefl)
    | apply (respeita_bind _ Htrans); [|intros ?]
    | match goal with
      | |- respeita _ (if ?b then _ else _) => destruct b
      | |- respeita _ (match ?x with _ => _ end) => destruct x
      end
    | progress cbv zeta ].

Section Puros.

Variable R : Mundo -> Mundo -> Prop.
Hypothesis R_refl : forall w, R w w.
Hypothesis R_trans : forall a b c, R a b -> R b c -> R a c.

Lemma respeita_self_bd {A} (m : M A) : respeita R m -> respeita R (self_bd m).
Proof.
  intros Hm. unfold self_bd. respeito_em R_refl R_trans ltac:(exact Hm).
Qed.

Lemma respeita_procura_id (ids : list tupla) (idt : pystr) :
  respeita R (procura_id ids idt).
Proof.
  induction ids as [|t ids IH].
  - apply (respeita_ret _ R_refl).
  - change (procura_id (t :: ids) idt)
      with (bind (indice t 0)
              (fun v => if PyStr.eqb (py_str v) idt then ret true
                        else procura_id ids idt)).
    unfold indice. respeito_em R_refl R_trans ltac:(exact IH).
Qed.

Lemma respeita_regra_data_conclusao (a b c : valor) :
  respeita R (regra_data_conclusao a b c).
Proof.
  unfold regra_data_conclusao, py_and, py_or, metodo_lower, datetime_now.
  respeito_em R_refl R_trans fail.
Qed.

End Puros.

(** The confirmation of an update is only logged after the gateway was
    called for a change. *)
Lemma confirma_refl (w : Mundo) : confirma_apos_chamada w w.
Proof. exists []. split; [now rewrite app_nil_r|intros []]. Qed.

Lemma confirma_trans (a b c : Mundo) :
  confirma_apos_chamada a b -> confirma_apos_chamada b c ->
  confirma_apos_chamada a c.
Proof.
  intros (n1 & E1 & H1) (n2 & E2 & H2). exists (n1 ++ n2).
  split; [now rewrite E2, E1, app_assoc|].
  intros Hin. rewrite existsb_app. apply in_app_or in Hin as [Hin|Hin].
  - now rewrite (H1 Hin).
  - rewrite (H2 Hin). apply orb_true_r.
Qed.

Lemma confirma_emite (e : evento) :
  e <> msg_atualizada -> respeita confirma_apos_chamada (emite e).
Proof.
  intros Hne w. exists [e]. split; [reflexivity|].
  intros [H|[]]. congruence.
Qed.

Lemma confirma_lista (w w' : Mundo) (novos : list evento) :
  eventos w' = eventos w ++ novos -> ~ In msg_atualizada novos ->
  confirma_apos_chamada w w'.
Proof. intros He Hn. exists novos. split; [exact He|]. intros H. now elim Hn. Qed.

Lemma confirma_input (p : mensagem) :
  respeita confirma_apos_chamada (input p).
Proof.
  intros w. apply (confirma_lista _ _ [Prompt p]).
  - unfold input, bind, emite, get, set_entrada, raise, ret. cbn.
    destruct (entrada w); reflexivity.
  - intros [H|[]]. discriminate H.
Qed.

Lemma confirma_executar_comando (c : sql) (ps : tupla) :
  respeita confirma_apos_chamada (executar_comando c ps).
Proof.
  intros w.
  destruct (executar_comando_spec c ps w)
    as (w' & -> & _ & _ & (n & Hn & Fn) & _).
  apply (confirma_lista _ _ _ Hn). intros [H|H]; [discriminate H|].
  apply (proj1 (forallb_forall _ _) Fn) in H. discriminate H.
Qed.

Lemma confirma_buscar_dados (c : sql) (ps : tupla) :
  respeita confirma_apos_chamada (buscar_dados c ps).
Proof.
  intros w.
  destruct (buscar_dados_spec c ps w)
    as (rows & w' & -> & _ & _ & (n & Hn & Fn) & _).
  apply (confirma_lista _ _ _ Hn). intros [H|H]; [discriminate H|].
  apply (proj1 (forallb_forall _ _) Fn) in H. discriminate H.
Qed.

Ltac confirmo folhas :=
  respeito_em confirma_refl confirma_trans
    ltac:(first
      [ folhas
      | apply confirma_input
      | apply confirma_executar_comando
      | apply confirma_buscar_dados
      | apply (respeita_self_bd _ confirma_refl confirma_trans)
      | apply (respeita_procura_id _ confirma_refl confirma_trans)
      | apply (respeita_regra_data_conclusao _ confirma_refl confirma_trans)
      | apply confirma_emite; intros H;
        first [discriminate H | vm_compute in H; discriminate H] ]).

Lemma confirma_exibe_todas (rows : list tupla) :
  respeita confirma_apos_chamada (exibe_todas rows).
Proof.
  induction rows as [|t rows IH].
  - apply (respeita_ret _ confirma_refl).
  - change (exibe_todas (t :: rows))
      with (bind (exibe_tarefa t) (fun _ => exibe_todas rows)).
    unfold exibe_tarefa, indice, logging. confirmo ltac:(exact IH).
Qed.

Lemma confirma_exibir_tarefas :
  respeita confirma_apos_chamada exibir_tarefas.
Proof.
  unfold exibir_tarefas, is_bd_ready, logging.
  confirmo ltac:(apply confirma_exibe_todas).
Qed.

(** The last two steps of an update: the call of the gateway, then the
    confirmation. *)
Lemma confirma_atualiza (ps : tupla) :
  respeita confirma_apos_chamada
    (self_bd (executar_comando SQL_UPDATE ps) ;; emite msg_atualizada).
Proof.
  intros w. unfold self_bd, bind, get, raise.
  destruct (bd w); [|apply confirma_refl].
  destruct (executar_comando_spec SQL_UPDATE ps w)
    as (w' & -> & _ & _ & (n & Hn & _) & _).
  exists (Executar SQL_UPDATE ps :: n ++ [msg_atualizada]).
  split; [|reflexivity].
  cbn. rewrite Hn, <- app_assoc. reflexivity.
Qed.

Lemma confirma_atualizar_tarefa :
  respeita confirma_apos_chamada atualizar_tarefa.
Proof.
  unfold atualizar_tarefa, atualizar_encontrada, is_bd_ready, desempacota5,
    logging.
  confirmo ltac:(first [ apply confirma_atualiza
                       | apply confirma_exibir_tarefas ]).
Qed.

Lemma conclusao_gravada_regra (s2 : pystr) (l : linha) (agora : datetime)
    (dc : option datetime) :
  para_data (regra_spec s2 (col_status l) (col_data_conclusao l) agora)
  = Some dc ->
  conclusao_gravada s2 l dc.
Proof.
  unfold regra_spec, conclusao_gravada.
  destruct (eh_concluida s2 && negb (status_concluido (col_status l)));
    [cbn; intros H; injection H as <-; discriminate|].
  destruct (negb (eh_concluida s2) && status_concluido (col_status l));
    [cbn; congruence|].
  destruct (col_data_conclusao l); cbn; congruence.
Qed.

(** What an accepted update statement of the manager does to the
    table. *)
Lemma sem_sql_update_respostas (a b c s2 idt : pystr) (l : linha)
    (agora : datetime) (s s' : Servidor) (x : option (list tupla)) :
  sem_sql SQL_UPDATE
    [ou_atual a (VStr (col_titulo l));
     ou_atual b (de_texto (col_descricao l));
     ou_atual c (de_texto (col_responsavel l));
     VStr s2;
     regra_spec s2 (col_status l) (col_data_conclusao l) agora;
     VStr idt] s = Some (s', x) ->
  exists t' d' r' dc',
    ou_atual a (VStr (col_titulo l)) = VStr t' /\
    para_texto (ou_atual b (de_texto (col_descricao l))) = Some d' /\
    para_texto (ou_atual c (de_texto (col_responsavel l))) = Some r' /\
    conclusao_gravada s2 l dc' /\
    tabela s' =
      map (fun y => if casa_id (VStr idt) y
                    then reescreve t' d' r' (Some s2) dc' y else y)
          (tabela s).
Proof.
  intros Hsem. unfold sem_sql in Hsem.
  destruct (ou_atual a (VStr (col_titulo l))) as [| |t'|]; try discriminate.
  destruct (para_texto (ou_atual b (de_texto (col_descricao l)))) as [d'|];
    [|discriminate].
  destruct (para_texto (ou_atual c (de_texto (col_responsavel l)))) as [r'|];
    [|discriminate].
  cbn [para_texto] in Hsem.
  destruct (para_data
              (regra_spec s2 (col_status l) (col_data_conclusao l) agora))
    as [dc'|] eqn:Hdc; [|discriminate].
  injection Hsem as <- _.
  exists t', d', r', dc'. repeat split.
  exact (conclusao_gravada_regra _ _ _ _ Hdc).
Qed.

(* ================================================================== *)
(** ** The properties of the specification *)

Lemma is_bd_ready_pronto (w : Mundo) :
  is_bd_ready w = (Retorno (pronto w), w).
Proof. reflexivity. Qed.

Lemma rastro_de {A} (m : M A) (w : Mundo) (r : resultado A) (w' : Mundo)
    (novos : list evento) :
  m w = (r, w') -> eventos w' = eventos w ++ novos -> rastro m w = novos.
Proof. intros H E. apply rastro_app. now rewrite H. Qed.

Lemma rastro_estende {A} (p : evento -> bool) (m : M A) (w : Mundo)
    (r : resultado A) (w' : Mundo) :
  m w = (r, w') -> estende p w w' -> forallb p (rastro m w) = true.
Proof.
  intros H (novos & E & F). now rewrite (rastro_de m w r w' novos H E).
Qed.

Lemma sem_mutacao_In (l : list evento) (c : sql) (ps : tupla) :
  forallb sem_mutacao l = true -> mutante c = true ->
  ~ In (Executar c ps) l.
Proof.
  intros F Hc Hin. apply (proj1 (forallb_forall _ _) F) in Hin.
  unfold sem_mutacao in Hin. cbn in Hin. rewrite Hc in Hin. discriminate.
Qed.

Lemma interno_In (c c' : sql) (l : list evento) (ps : tupla) :
  forallb (interno c) l = true -> ~ In (Executar c' ps) l.
Proof.
  intros F Hin. apply (proj1 (forallb_forall _ _) F) in Hin. discriminate.
Qed.

Lemma regra_spec_casos (s2 : pystr) (s1 : option pystr)
    (antiga : option datetime) (agora : datetime) :
  (eh_concluida s2 = true -> status_concluido s1 = false ->
   regra_spec s2 s1 antiga agora = VData agora) /\
  (eh_concluida s2 = false -> status_concluido s1 = true ->
   regra_spec s2 s1 antiga agora = VNone) /\
  (eh_concluida s2 = status_concluido s1 ->
   regra_spec s2 s1 antiga agora = de_data antiga).
Proof.
  unfold regra_spec.
  destruct (eh_concluida s2), (status_concluido s1); cbn;
    repeat split; intros; congruence.
Qed.

(** C1 (amended).  The completion timestamp that an update statement
    writes is the current time if the new status is concluída and the
    stored one is not, null if the new status is not concluída and the
    stored one is, and the stored completion timestamp in every other
    case; all comparisons are case-insensitive and a null stored status
    counts as not concluída. *)
Theorem regra_de_transicao (w : Mundo) (ps : tupla) :
  In (Executar SQL_UPDATE ps) (rastro atualizar_tarefa w) ->
  exists t d r s2 dc idt l,
    ps = [t; d; r; VStr s2; dc; VStr idt] /\
    find (casa_id (VStr idt)) (tabela (servidor w)) = Some l /\
    (eh_concluida s2 = true -> status_concluido (col_status l) = false ->
     dc = VData (relogio w)) /\
    (eh_concluida s2 = false -> status_concluido (col_status l) = true ->
     dc = VNone) /\
    (eh_concluida s2 = status_concluido (col_status l) ->
     dc = de_data (col_data_conclusao l)).
Proof.
  intros Hin. destruct (atualizar_tarefa w) as [r w'] eqn:Hrun.
  destruct (atualizar_tarefa_desfecho w r w' Hrun)
    as [(_ & _ & He)
       |(idt & a & b & c & st & resto & l & s2 & pre & mid & _ & _ & Hfind
         & _ & _ & _ & Hev & Fp & Fm & _)].
  - exfalso. revert Hin. apply sem_mutacao_In; [|reflexivity].
    eapply rastro_estende; eauto.
  - rewrite (rastro_de _ _ _ _ _ Hrun Hev) in Hin.
    apply in_app_or in Hin as [Hin|[Heq|Hin]].
    + exfalso. revert Hin. now apply sem_mutacao_In.
    + injection Heq as <-. do 7 eexists. split; [reflexivity|].
      split; [exact Hfind|]. apply regra_spec_casos.
    + apply in_app_or in Hin as [Hin|[Heq|[]]]; [|discriminate].
      exfalso. revert Hin. now apply (interno_In SQL_UPDATE).
Qed.

Lemma regra_de_transicao_witness :
  exists t d r s2 dc idt l,
    [VStr (txt "Titulo Antigo"); VStr (txt "Desc Antiga");
     VStr (txt "Resp Antigo"); VStr (txt "Em Andamento"); VNone;
     VStr (txt "1")] = [t; d; r; VStr s2; dc; VStr idt] /\
    find (casa_id (VStr idt)) (tabela (servidor mundo_em_andamento)) = Some l /\
    (eh_concluida s2 = true -> status_concluido (col_status l) = false ->
     dc = VData (relogio mundo_em_andamento)) /\
    (eh_concluida s2 = false -> status_concluido (col_status l) = true ->
     dc = VNone) /\
    (eh_concluida s2 = status_concluido (col_status l) ->
     dc = de_data (col_data_conclusao l)).
Proof.
  apply (regra_de_transicao mundo_em_andamento). vm_compute. tauto.
Defined.

(** C1 as written fails: from [Pendente] to [Em Andamento] the update
    writes null, although the stored status was not concluída. *)
Lemma transicao_como_escrita_falha :
  ~ transicao_como_escrita mundo_em_andamento.
Proof.
  intros H.
  destruct (H (VStr (txt "Titulo Antigo")) (VStr (txt "Desc Antiga"))
              (VStr (txt "Resp Antigo")) (txt "Em Andamento") VNone
              (txt "1") (tarefa_1 (Some (txt "Pendente")) None))
    as (_ & (Hnull & _) & _).
  - vm_compute. tauto.
  - reflexivity.
  - destruct (Hnull eq_refl) as (_ & Habs). vm_compute in Habs. discriminate.
Qed.

(** C9.  When the stored status of the task is null and the operator
    leaves the status blank, the new status is null too, the comparison
    [novo_status.lower()] raises, and the update ends with that
    exception without having issued an update statement. *)
Theorem status_nulo_mantido_levanta (w : Mundo) (idt a b c : pystr)
    (resto : list pystr) (l : linha) :
  saudavel w ->
  entrada w = idt :: a :: b :: c :: [] :: resto ->
  find (casa_id (VStr idt)) (tabela (servidor w)) = Some l ->
  col_status l = None ->
  ou_atual [] (de_texto (col_status l)) = VNone /\
  fst (atualizar_tarefa w) = Levanta AttributeError /\
  (forall ps, ~ In (Executar SQL_UPDATE ps) (rastro atualizar_tarefa w)) /\
  forallb sem_mutacao (rastro atualizar_tarefa w) = true /\
  servidor (snd (atualizar_tarefa w)) = servidor w.
Proof.
  intros Hw Hent Hfind Hnul.
  destruct (atualizar_tarefa w) as [r w'] eqn:Hrun.
  assert (Hm : r = Levanta AttributeError /\ servidor w' = servidor w /\
               estende sem_mutacao w w').
  { destruct (atualizar_tarefa_saudavel _ _ _ _ _ _ _ _ _ _ Hw Hent Hfind Hrun)
      as [(_ & _ & Hr & Hs & _ & He)|(s2 & pre & mid & Hou & _)]; [auto|].
    rewrite Hnul in Hou. discriminate. }
  destruct Hm as (-> & Hs & He).
  pose proof (rastro_estende _ _ _ _ _ Hrun He) as Hf.
  rewrite Hnul. cbn. repeat split; try assumption.
  intros ps. now apply sem_mutacao_In.
Qed.

Lemma status_nulo_mantido_levanta_witness :
  ou_atual [] (de_texto (col_status (tarefa_1 None None))) = VNone /\
  fst (atualizar_tarefa mundo_status_nulo) = Levanta AttributeError /\
  (forall ps,
     ~ In (Executar SQL_UPDATE ps) (rastro atualizar_tarefa mundo_status_nulo)) /\
  forallb sem_mutacao (rastro atualizar_tarefa mundo_status_nulo) = true /\
  servidor (snd (atualizar_tarefa mundo_status_nulo))
  = servidor mundo_status_nulo.
Proof.
  apply (status_nulo_mantido_levanta mundo_status_nulo (txt "1") [] [] [] []
           (tarefa_1 None None)).
  - unfold saudavel. cbn. repeat split. constructor.
  - reflexivity.
  - reflexivity.
  - reflexivity.
Defined.

Lemma filter_nada {A} (f g : A -> bool) (l : list A) :
  (forall x, g x = true -> f x = false) ->
  forallb g l = true -> filter f l = [].
Proof.
  intros H F. induction l as [|x l IH]; [reflexivity|].
  cbn in *. apply andb_true_iff in F as (Fx & Fl).
  now rewrite (H x Fx), IH.
Qed.

Lemma sem_mutacao_chamada (e : evento) :
  sem_mutacao e = true -> chamada_mutante e = false.
Proof.
  unfold sem_mutacao. intros H.
  apply andb_true_iff in H as (H & _). apply andb_true_iff in H as (H & _).
  now apply negb_true_iff in H.
Qed.

Lemma interno_chamada (c : sql) (e : evento) :
  interno c e = true -> chamada_mutante e = false.
Proof. destruct e; cbn; congruence. Qed.

(** The gateway calls for a change, in a run that issued one statement. *)
Lemma filter_uma_chamada (c : sql) (ps : tupla) (pre mid : list evento)
    (fim : evento) :
  mutante c = true -> chamada_mutante fim = false ->
  forallb sem_mutacao pre = true -> forallb (interno c) mid = true ->
  filter chamada_mutante (pre ++ Executar c ps :: mid ++ [fim])
  = [Executar c ps].
Proof.
  intros Hc Hfim Fp Fm.
  rewrite filter_app. cbn [filter chamada_mutante]. rewrite Hc.
  rewrite filter_app. cbn [filter]. rewrite Hfim.
  rewrite (filter_nada _ _ _ sem_mutacao_chamada Fp).
  rewrite (filter_nada _ _ _ (interno_chamada c) Fm). reflexivity.
Qed.

(** What the update statement does to the table. *)
Lemma sem_sql_update_inv (t : valor) (d r st dco p : valor)
    (s s' : Servidor) (x : option (list tupla)) :
  sem_sql SQL_UPDATE [t; d; r; st; dco; p] s = Some (s', x) ->
  exists t' d' r' st' dco',
    t = VStr t' /\ para_texto d = Some d' /\ para_texto r = Some r' /\
    para_texto st = Some st' /\ para_data dco = Some dco' /\
    tabela s' = map (fun l => if casa_id p l
                              then reescreve t' d' r' st' dco' l else l)
                    (tabela s) /\
    prox_id s' = prox_id s.
Proof.
  unfold sem_sql. destruct t as [| |t'|]; try discriminate.
  destruct (para_texto d) as [d'|]; [|discriminate].
  destruct (para_texto r) as [r'|]; [|discriminate].
  destruct (para_texto st) as [st'|]; [|discriminate].
  destruct (para_data dco) as [dco'|]; [|discriminate].
  intros H. injection H as <- _.
  exists t', d', r', st', dco'. repeat split.
Qed.

Lemma reescreve_quadro (p : valor) (t : pystr) (d r st : option pystr)
    (dco : option datetime) (tab : list linha) :
  let tab' := map (fun l => if casa_id p l
                            then reescreve t d r st dco l else l) tab in
  map col_id tab' = map col_id tab /\
  map col_data_criacao tab' = map col_data_criacao tab.
Proof.
  cbn. rewrite !map_map. split; apply map_ext; intros l;
    destruct (casa_id p l); reflexivity.
Qed.

(** C7.  In every run an update calls the gateway for a change at most
    once, and only with the update statement, whose five [SET] slots
    (title, description, owner, status, completion timestamp) are bound
    to the operator's answers over the first stored row of the id
    typed, and whose key is that id as typed; the statement rewrites
    those five columns in the rows of that id and nothing else.  The
    statement is issued exactly once in the runs that log the
    confirmation of the update, and in no other.  No row loses or
    changes its id or its creation timestamp, in any run.  With the
    gateway in working order, a stored id and the four answers on the
    console (the status not left null), the run does confirm, so the
    statement is issued exactly once, and the rows of that id hold the
    answers afterwards. *)
Theorem atualizacao_preserva_id_e_criacao (w : Mundo) :
  let tr := rastro atualizar_tarefa w in
  let w' := snd (atualizar_tarefa w) in
  ((filter chamada_mutante tr = [] /\ servidor w' = servidor w)
   \/
   exists idt a b c st resto l s2,
     entrada w = idt :: a :: b :: c :: st :: resto /\
     find (casa_id (VStr idt)) (tabela (servidor w)) = Some l /\
     ou_atual st (de_texto (col_status l)) = VStr s2 /\
     filter chamada_mutante tr =
       [Executar SQL_UPDATE
          [ou_atual a (VStr (col_titulo l));
           ou_atual b (de_texto (col_descricao l));
           ou_atual c (de_texto (col_responsavel l));
           VStr s2;
           regra_spec s2 (col_status l) (col_data_conclusao l) (relogio w);
           VStr idt]] /\
     (servidor w' = servidor w \/
      exists t' d' r' dc',
        ou_atual a (VStr (col_titulo l)) = VStr t' /\
        para_texto (ou_atual b (de_texto (col_descricao l))) = Some d' /\
        para_texto (ou_atual c (de_texto (col_responsavel l))) = Some r' /\
        conclusao_gravada s2 l dc' /\
        tabela (servidor w') =
          map (fun y => if casa_id (VStr idt) y
                        then reescreve t' d' r' (Some s2) dc' y else y)
              (tabela (servidor w)))) /\
  (In msg_atualizada tr <->
   exists ps, filter chamada_mutante tr = [Executar SQL_UPDATE ps]) /\
  map col_id (tabela (servidor w')) = map col_id (tabela (servidor w)) /\
  map col_data_criacao (tabela (servidor w'))
  = map col_data_criacao (tabela (servidor w)) /\
  (forall idt a b c st resto l,
     saudavel w ->
     entrada w = idt :: a :: b :: c :: st :: resto ->
     find (casa_id (VStr idt)) (tabela (servidor w)) = Some l ->
     ou_atual st (de_texto (col_status l)) <> VNone ->
     In msg_atualizada tr /\
     exists t' d' r' s2 dc',
       ou_atual a (VStr (col_titulo l)) = VStr t' /\
       para_texto (ou_atual b (de_texto (col_descricao l))) = Some d' /\
       para_texto (ou_atual c (de_texto (col_responsavel l))) = Some r' /\
       ou_atual st (de_texto (col_status l)) = VStr s2 /\
       conclusao_gravada s2 l dc' /\
       tabela (servidor w') =
         map (fun y => if casa_id (VStr idt) y
                       then reescreve t' d' r' (Some s2) dc' y else y)
             (tabela (servidor w))).
Proof.
  cbn zeta. destruct (atualizar_tarefa w) as [r w'] eqn:Hrun. cbn [snd].
  assert (Hgeral :
    ((filter chamada_mutante (rastro atualizar_tarefa w) = [] /\
      servidor w' = servidor w)
     \/
     exists idt a b c st resto l s2,
       entrada w = idt :: a :: b :: c :: st :: resto /\
       find (casa_id (VStr idt)) (tabela (servidor w)) = Some l /\
       ou_atual st (de_texto (col_status l)) = VStr s2 /\
       filter chamada_mutante (rastro atualizar_tarefa w) =
         [Executar SQL_UPDATE
            [ou_atual a (VStr (col_titulo l));
             ou_atual b (de_texto (col_descricao l));
             ou_atual c (de_texto (col_responsavel l));
             VStr s2;
             regra_spec s2 (col_status l) (col_data_conclusao l) (relogio w);
             VStr idt]] /\
       (servidor w' = servidor w \/
        exists t' d' r' dc',
          ou_atual a (VStr (col_titulo l)) = VStr t' /\
          para_texto (ou_atual b (de_texto (col_descricao l))) = Some d' /\
          para_texto (ou_atual c (de_texto (col_responsavel l))) = Some r' /\
          conclusao_gravada s2 l dc' /\
          tabela (servidor w') =
            map (fun y => if casa_id (VStr idt) y
                          then reescreve t' d' r' (Some s2) dc' y else y)
                (tabela (servidor w)))) /\
    ((exists ps, filter chamada_mutante (rastro atualizar_tarefa w)
                 = [Executar SQL_UPDATE ps]) ->
     In msg_atualizada (rastro atualizar_tarefa w))).
  { destruct (atualizar_tarefa_desfecho w r w' Hrun)
      as [(Hs & _ & He)
         |(idt & a & b & c & st & resto & l & s2 & pre & mid & Hent & _
           & Hfind & Hou & _ & _ & Hev & Fp & Fm & Hsem & _)].
    - assert (Hf : filter chamada_mutante (rastro atualizar_tarefa w) = []).
      { eapply filter_nada; [exact sem_mutacao_chamada|].
        eapply rastro_estende; eauto. }
      split; [left; split; [exact Hf|exact Hs]|].
      intros (ps & Hps). rewrite Hf in Hps. discriminate.
    - rewrite (rastro_de _ _ _ _ _ Hrun Hev). split.
      + right. exists idt, a, b, c, st, resto, l, s2.
        split; [exact Hent|]. split; [exact Hfind|]. split; [exact Hou|].
        split; [now apply filter_uma_chamada|].
        destruct Hsem as [Hs|(x & Hsem)]; [now left|right].
        exact (sem_sql_update_respostas _ _ _ _ _ _ _ _ _ _ Hsem).
      + intros _. apply in_or_app. right. right.
        apply in_or_app. right. now left. }
  destruct Hgeral as (Hgeral & Hconf).
  split; [exact Hgeral|].
  assert (Hiff : In msg_atualizada (rastro atualizar_tarefa w) ->
                 exists ps, filter chamada_mutante (rastro atualizar_tarefa w)
                            = [Executar SQL_UPDATE ps]).
  { intros Hin.
    destruct (confirma_atualizar_tarefa w) as (novos & Hn & Hc).
    rewrite Hrun in Hn. cbn [snd] in Hn.
    assert (Hr : rastro atualizar_tarefa w = novos)
      by (eapply rastro_de; eauto).
    rewrite Hr in *. specialize (Hc Hin).
    destruct Hgeral as [(Hf & _)|(idt & a & b & c & st & resto & l & s2
                                  & _ & _ & _ & Hf & _)].
    - apply existsb_exists in Hc as (e & He & Hm).
      assert (Hfe : In e (filter chamada_mutante novos))
        by (apply filter_In; auto).
      rewrite Hf in Hfe. destruct Hfe.
    - eexists. exact Hf. }
  split; [split; [exact Hiff|exact Hconf]|].
  assert (Hq : map col_id (tabela (servidor w')) = map col_id (tabela (servidor w))
               /\ map col_data_criacao (tabela (servidor w'))
                  = map col_data_criacao (tabela (servidor w))).
  { destruct Hgeral as [(_ & ->)|(idt & a & b & c & st & resto & l & s2 & _
                                  & _ & _ & _
                                  & [->|(t' & d' & r' & dc' & _ & _ & _ & _
                                         & ->)])];
      auto. apply reescreve_quadro. }
  destruct Hq as (Hq1 & Hq2). split; [exact Hq1|]. split; [exact Hq2|].
  intros idt a b c st resto l Hw Hent Hfind Hst.
  destruct (atualizar_tarefa_saudavel _ _ _ _ _ _ _ _ _ _ Hw Hent Hfind Hrun)
    as [(-> & Hnul & _)|(s2 & pre & mid & Hou & _ & _ & Hev & Fp & Fm & x & Hsem)].
  - rewrite Hnul in Hst. now elim Hst.
  - split.
    + apply Hconf. eexists. rewrite (rastro_de _ _ _ _ _ Hrun Hev).
      now apply filter_uma_chamada.
    + destruct (sem_sql_update_respostas _ _ _ _ _ _ _ _ _ _ Hsem)
        as (t' & d' & r' & dc' & E1 & E2 & E3 & E4 & E5).
      exists t', d', r', s2, dc'. auto 10.
Qed.

Lemma atualizacao_preserva_id_e_criacao_witness :
  let w := mundo_em_andamento in
  let l := tarefa_1 (Some (txt "Pendente")) None in
  In msg_atualizada (rastro atualizar_tarefa w) /\
  exists t' d' r' s2 dc',
    ou_atual [] (VStr (col_titulo l)) = VStr t' /\
    para_texto (ou_atual [] (de_texto (col_descricao l))) = Some d' /\
    para_texto (ou_atual [] (de_texto (col_responsavel l))) = Some r' /\
    ou_atual (txt "Em Andamento") (de_texto (col_status l)) = VStr s2 /\
    conclusao_gravada s2 l dc' /\
    tabela (servidor (snd (atualizar_tarefa w))) =
      map (fun y => if casa_id (VStr (txt "1")) y
                    then reescreve t' d' r' (Some s2) dc' y else y)
          (tabela (servidor w)).
Proof.
  destruct (atualizacao_preserva_id_e_criacao mundo_em_andamento)
    as (_ & _ & _ & _ & H).
  apply (H (txt "1") [] [] [] (txt "Em Andamento") []
           (tarefa_1 (Some (txt "Pendente")) None)).
  - unfold saudavel. cbn. repeat split. constructor.
  - reflexivity.
  - reflexivity.
  - discriminate.
Defined.

Lemma ev_leitura_prompt (l : list evento) (p : mensagem) :
  forallb ev_leitura l = true -> ~ In (Prompt p) l.
Proof.
  intros F Hin. apply (proj1 (forallb_forall _ _) F) in Hin. discriminate.
Qed.

(** An id that no stored row prints as, through the steps that update
    and delete share. *)
Lemma seleciona_tarefa_id_inexistente (mi mv p : mensagem)
    (k : pystr -> M unit) (w : Mundo) (idt : pystr) (resto : list pystr) :
  pronto w = true ->
  entrada w = idt :: resto ->
  (forall l, In l (tabela (servidor w)) -> str_int (col_id l) <> idt) ->
  let op := seleciona_tarefa mi mv p k in
  fst (op w) = Retorno tt /\
  servidor (snd (op w)) = servidor w /\
  forallb sem_mutacao (rastro op w) = true /\
  (In (Prompt p) (rastro op w) ->
   entrada (snd (op w)) = resto /\
   exists pre,
     rastro op w =
       pre ++ [Prompt p;
               Log WARNING [lit "Tarefa com ID "; Fmt (VStr idt);
                            lit " não encontrada."]]).
Proof.
  intros Hpr Hent Hnao. cbn zeta.
  destruct (seleciona_tarefa mi mv p k w) as [r w'] eqn:Hrun. cbn [fst snd].
  destruct (seleciona_tarefa_casos _ _ _ _ _ _ _ Hrun)
    as [(Hs & _ & Hm & [(Hp & _)|[(_ & -> & _ & He & _)|[(_ & He & _)
         |(i & e & pre & _ & He & _ & -> & Hen & Hev & Fp)]]])
       |(i & e & w0 & pre0 & _ & He & Hex & _)].
  - congruence.
  - split; [reflexivity|]. split; [exact Hs|].
    split; [eapply rastro_estende; eauto|].
    intros Hin; exfalso; revert Hin; apply ev_leitura_prompt;
      eapply rastro_estende; eauto.
  - congruence.
  - rewrite Hent in He. injection He as <- <-.
    split; [reflexivity|]. split; [exact Hs|].
    split; [eapply rastro_estende; eauto|].
    intros _. split; [exact Hen|].
    exists pre. eapply rastro_de; eauto.
  - rewrite Hent in He. injection He as <- <-.
    apply existsb_exists in Hex as (l & Hin & Hl). cbn in Hl.
    apply pystr_eqb_eq in Hl. now elim (Hnao l Hin).
Qed.

(** C4.  When the id typed into update or delete is not the text of the
    id of any stored task, the operation returns without any call that
    changes rows and leaves the table as it was; and whenever it asked
    for the id at all, its last act is the warning that names that id. *)
Theorem id_inexistente_nao_altera (w : Mundo) (idt : pystr)
    (resto : list pystr) :
  pronto w = true ->
  entrada w = idt :: resto ->
  (forall l, In l (tabela (servidor w)) -> str_int (col_id l) <> idt) ->
  (fst (atualizar_tarefa w) = Retorno tt /\
   servidor (snd (atualizar_tarefa w)) = servidor w /\
   forallb sem_mutacao (rastro atualizar_tarefa w) = true /\
   (In (Prompt [lit "Digite o ID da tarefa que deseja atualizar: "])
       (rastro atualizar_tarefa w) ->
    entrada (snd (atualizar_tarefa w)) = resto /\
    exists pre,
      rastro atualizar_tarefa w =
        pre ++ [Prompt [lit "Digite o ID da tarefa que deseja atualizar: "];
                Log WARNING [lit "Tarefa com ID "; Fmt (VStr idt);
                             lit " não encontrada."]]))
  /\
  (fst (excluir_tarefa w) = Retorno tt /\
   servidor (snd (excluir_tarefa w)) = servidor w /\
   forallb sem_mutacao (rastro excluir_tarefa w) = true /\
   (In (Prompt [lit "Digite a ID para excluir uma tarefa: "])
       (rastro excluir_tarefa w) ->
    entrada (snd (excluir_tarefa w)) = resto /\
    exists pre,
      rastro excluir_tarefa w =
        pre ++ [Prompt [lit "Digite a ID para excluir uma tarefa: "];
                Log WARNING [lit "Tarefa com ID "; Fmt (VStr idt);
                             lit " não encontrada."]])).
Proof.
  intros Hpr Hent Hnao. split.
  - rewrite atualizar_tarefa_forma.
    now apply seleciona_tarefa_id_inexistente.
  - rewrite excluir_tarefa_forma.
    now apply seleciona_tarefa_id_inexistente.
Qed.

Lemma id_inexistente_nao_altera_witness :
  (fst (excluir_tarefa mundo_id_99) = Retorno tt /\
   servidor (snd (excluir_tarefa mundo_id_99)) = servidor mundo_id_99 /\
   forallb sem_mutacao (rastro excluir_tarefa mundo_id_99) = true /\
   (In (Prompt [lit "Digite a ID para excluir uma tarefa: "])
       (rastro excluir_tarefa mundo_id_99) ->
    entrada (snd (excluir_tarefa mundo_id_99)) = [] /\
    exists pre,
      rastro excluir_tarefa mundo_id_99 =
        pre ++ [Prompt [lit "Digite a ID para excluir uma tarefa: "];
                Log WARNING [lit "Tarefa com ID "; Fmt (VStr (txt "99"));
                             lit " não encontrada."]])).
Proof.
  apply (id_inexistente_nao_altera mundo_id_99 (txt "99") []).
  - reflexivity.
  - reflexivity.
  - intros l [<-|[]]. vm_compute. discriminate.
Defined.

(** The prompt for the id is indeed in the run of the sample world, so
    the warning is what that run ends with. *)
Example id_99_avisa :
  In (Prompt [lit "Digite a ID para excluir uma tarefa: "])
     (rastro excluir_tarefa mundo_id_99) /\
  last (rastro excluir_tarefa mundo_id_99) (Print [])
  = Log WARNING [lit "Tarefa com ID "; Fmt (VStr (txt "99"));
                 lit " não encontrada."].
Proof. vm_compute. split; [tauto|reflexivity]. Qed.

(** C3.  While the titles typed are shorter than twelve characters,
    create only warns and asks again, and inserts nothing; at the first
    title of twelve characters or more (followed by a description and an
    owner) it calls the gateway exactly once, with the insert statement
    binding that title, status [Pendente], the current time as creation
    timestamp and a null completion timestamp. *)
Theorem cadastro_exige_titulo_de_12 (w : Mundo) (curtos : list pystr) :
  pronto w = true ->
  Forall curto curtos ->
  (entrada w = curtos ->
   fst (cadastrar_tarefa w) = Levanta EOFError /\
   rastro cadastrar_tarefa w =
     flat_map (fun _ => recusa_titulo) curtos
     ++ [Prompt [lit "Título da tarefa: "]] /\
   filter chamada_mutante (rastro cadastrar_tarefa w) = [] /\
   servidor (snd (cadastrar_tarefa w)) = servidor w)
  /\
  (forall t d resp resto,
     (12 <= List.length t)%nat ->
     entrada w = curtos ++ t :: d :: resp :: resto ->
     let insert :=
       Executar SQL_INSERT
         [VStr t; VStr d; VStr resp; VStr (txt "Pendente");
          VData (relogio w); VNone] in
     fst (cadastrar_tarefa w) = Retorno tt /\
     entrada (snd (cadastrar_tarefa w)) = resto /\
     filter chamada_mutante (rastro cadastrar_tarefa w) = [insert] /\
     exists mid,
       forallb (interno SQL_INSERT) mid = true /\
       rastro cadastrar_tarefa w =
         (flat_map (fun _ => recusa_titulo) curtos
          ++ [Prompt [lit "Título da tarefa: "];
              Prompt [lit "Descrição da tarefa: "];
              Prompt [lit "Responsável: "]])
         ++ insert :: mid ++ [msg_cadastrada]).
Proof.
  intros Hpr Hc.
  destruct (cadastrar_tarefa w) as [r w'] eqn:Hrun. cbn [fst snd].
  pose proof (cadastrar_tarefa_desfecho w r w' Hrun) as Hd.
  split.
  - intros Hent. rewrite <- Hent in Hc.
    destruct Hd
      as [(Hs & _ & He & [Hp|[(_ & -> & Hev)|(c1 & t1 & r1 & E & _ & L & _)]])
         |(c1 & t1 & d1 & p1 & r1 & mid & E & _ & L & _)].
    + congruence.
    + rewrite Hent in Hev. split; [reflexivity|].
      split; [eapply rastro_de; eauto|].
      split; [|exact Hs].
      eapply filter_nada; [exact sem_mutacao_chamada|].
      eapply rastro_estende; eauto.
    + rewrite E in Hc. now elim (Forall_curto_app _ _ _ L Hc).
    + rewrite E in Hc. now elim (Forall_curto_app _ _ _ L Hc).
  - intros t d resp resto Lt Hent. cbn zeta.
    assert (Hfm : forall l : list pystr,
               forallb sem_mutacao (flat_map (fun _ => recusa_titulo) l) = true).
    { induction l as [|x l IHl]; [reflexivity|].
      cbn [flat_map]. now rewrite forallb_app, IHl. }
    destruct Hd
      as [(Hs & _ & He & [Hp|[(Hall & _)|(c1 & t1 & r1 & E & C1 & L & Hlen & _)]])
         |(c1 & t1 & d1 & p1 & r1 & mid & E & C1 & L & Hen & -> & _ & Hev
           & Fm & _)].
    + congruence.
    + rewrite Hent in Hall. now elim (Forall_curto_app _ _ _ Lt Hall).
    + rewrite Hent in E.
      destruct (primeiro_longo_unico _ _ _ _ _ _ Hc C1 Lt L E) as (_ & _ & <-).
      cbn in Hlen. lia.
    + rewrite Hent in E.
      destruct (primeiro_longo_unico _ _ _ _ _ _ Hc C1 Lt L E)
        as (<- & <- & E').
      injection E' as <- <- <-.
      pose proof (rastro_de _ _ _ _ _ Hrun Hev) as Htr.
      split; [reflexivity|]. split; [exact Hen|].
      split; [|exists mid; split; [exact Fm|exact Htr]].
      rewrite Htr. apply filter_uma_chamada; try reflexivity; [|exact Fm].
      now rewrite forallb_app, Hfm.
Qed.

Lemma cadastro_exige_titulo_de_12_witness :
  let insert :=
    Executar SQL_INSERT
      [VStr (txt "Implementar módulo X"); VStr (txt "desc"); VStr (txt "Ana");
       VStr (txt "Pendente"); VData (relogio mundo_cadastro); VNone] in
  fst (cadastrar_tarefa mundo_cadastro) = Retorno tt /\
  entrada (snd (cadastrar_tarefa mundo_cadastro)) = [] /\
  filter chamada_mutante (rastro cadastrar_tarefa mundo_cadastro) = [insert] /\
  exists mid,
    forallb (interno SQL_INSERT) mid = true /\
    rastro cadastrar_tarefa mundo_cadastro =
      (flat_map (fun _ => recusa_titulo) [txt "curto"]
       ++ [Prompt [lit "Título da tarefa: "];
           Prompt [lit "Descrição da tarefa: "];
           Prompt [lit "Responsável: "]])
      ++ insert :: mid ++ [msg_cadastrada].
Proof.
  assert (Hc : Forall curto [txt "curto"]).
  { constructor; [|constructor]. unfold curto. vm_compute. lia. }
  destruct (cadastro_exige_titulo_de_12 mundo_cadastro [txt "curto"]
              eq_refl Hc) as (_ & H).
  apply (H (txt "Implementar módulo X") (txt "desc") (txt "Ana") []).
  - vm_compute. lia.
  - reflexivity.
Defined.

Lemma regra_spec_coerente (s2 : pystr) (l : linha) (agora : datetime)
    (dco : option datetime) :
  linha_coerente l ->
  para_data (regra_spec s2 (col_status l) (col_data_conclusao l) agora)
  = Some dco ->
  dco <> None <-> eh_concluida s2 = true.
Proof.
  unfold linha_coerente, regra_spec. intros Hl.
  destruct (eh_concluida s2), (status_concluido (col_status l)); cbn;
    try (intros H; injection H as <-; split; congruence).
  - destruct (col_data_conclusao l); cbn; intros H; injection H as <-;
      split; try congruence. intros _. now apply Hl.
  - destruct (col_data_conclusao l) as [x|]; cbn; intros H;
      injection H as <-; split; try congruence. apply Hl.
Qed.

Lemma fechar_sistema_servidor (w : Mundo) :
  servidor (snd (fechar_sistema w)) = servidor w.
Proof.
  destruct w as [[[[[|]]|] [[f pe]|]] [|] s ent rel fs evs];
    unfold fechar_sistema; desdobra; reflexivity.
Qed.

Lemma invariante_operacao (o : operacao) (w : Mundo) :
  invariante (servidor w) -> invariante (servidor (snd (executa o w))).
Proof.
  intros Hinv. destruct o; cbn [executa].
  - destruct (cadastrar_tarefa w) as [r w'] eqn:Hrun. cbn [snd].
    destruct (cadastrar_tarefa_desfecho w r w' Hrun)
      as [(-> & _)|(c1 & t & d & p & r1 & mid & _ & _ & _ & _ & _ & _ & _ & _
                    & [->|(x & Hsem)])]; try assumption.
    unfold sem_sql in Hsem. cbn in Hsem. injection Hsem as <- _.
    unfold invariante. cbn. apply Forall_app. split; [exact Hinv|].
    constructor; [|constructor].
    unfold linha_coerente. cbn. split; [congruence|].
    vm_compute. discriminate.
  - destruct (exibir_tarefas_spec w) as (w' & Hx & _ & Hs & _).
    rewrite Hx. cbn [snd]. now rewrite Hs.
  - destruct (atualizar_tarefa w) as [r w'] eqn:Hrun. cbn [snd].
    destruct (atualizar_tarefa_desfecho w r w' Hrun)
      as [(-> & _)
         |(idt & a & b & c & st & resto & l & s2 & pre & mid & _ & _ & Hfind
           & _ & _ & _ & _ & _ & _ & [->|(x & Hsem)] & _)]; try assumption.
    apply sem_sql_update_inv in Hsem
      as (t' & d' & r' & st' & dco' & _ & _ & _ & E4 & E5 & Htab & _).
    cbn in E4. injection E4 as <-.
    apply find_some in Hfind as (Hin & _).
    pose proof (proj1 (Forall_forall _ _) Hinv l Hin) as Hl.
    pose proof (regra_spec_coerente _ _ _ _ Hl E5) as Hnovo.
    unfold invariante. rewrite Htab. apply Forall_forall.
    intros y Hy. apply in_map_iff in Hy as (z & <- & Hz).
    destruct (casa_id (VStr idt) z).
    + exact Hnovo.
    + exact (proj1 (Forall_forall _ _) Hinv z Hz).
  - destruct (excluir_tarefa w) as [r w'] eqn:Hrun. cbn [snd].
    destruct (excluir_tarefa_desfecho w r w' Hrun)
      as [(-> & _)|(idt & resto & pre & mid & _ & _ & _ & _ & _ & _ & _
                    & [->|(x & Hsem)])]; try assumption.
    unfold sem_sql in Hsem. injection Hsem as <- _.
    unfold invariante. cbn. apply Forall_forall. intros y Hy.
    apply filter_In in Hy as (Hy & _).
    exact (proj1 (Forall_forall _ _) Hinv y Hy).
  - now rewrite fechar_sistema_servidor.
Qed.

(** C2.  From any table in which every row has a completion timestamp
    exactly when its status is [Concluída] (compared as the transition
    rule compares it: case-insensitively, a null status not being
    concluded), every world that create, list, update, delete and exit
    lead to again has such a table, whatever the operator types,
    whatever the time, and whatever the backend does. *)
Theorem invariante_preservado (w0 w : Mundo) :
  invariante (servidor w0) -> alcancavel w0 w -> invariante (servidor w).
Proof.
  intros H0 Halc. induction Halc as [|o w _ IH|b ent rel fal w _ IH].
  - exact H0.
  - now apply invariante_operacao.
  - exact IH.
Qed.

Lemma invariante_preservado_witness :
  invariante
    (servidor
       (snd (executa Atualizar
               (ambiente banco_vivo
                  [txt "1"; []; []; []; txt "CONCLUÍDA"] instante_2 []
                  (snd (executa Cadastrar mundo_cadastro)))))).
Proof.
  apply (invariante_preservado mundo_cadastro).
  - constructor.
  - apply alc_operacao, alc_ambiente, alc_operacao, alc_inicio.
Defined.

(** The run of the witness does store a concluded task with its
    completion timestamp. *)
Example cadastro_depois_conclusao :
  map (fun l => (col_status l, col_data_conclusao l))
      (tabela
         (servidor
            (snd (executa Atualizar
                    (ambiente banco_vivo
                       [txt "1"; []; []; []; txt "CONCLUÍDA"] instante_2 []
                       (snd (executa Cadastrar mundo_cadastro)))))))
  = [(Some (txt "CONCLUÍDA"), Some instante_2)].
Proof. vm_compute. reflexivity. Qed.

(** The comparison of C2 has to be the case-insensitive one of the
    transition rule: compared letter by letter, a task set to
    ["concluída"] gets a completion timestamp without its status being
    ["Concluída"]. *)
Remark invariante_exato_nao_preservado :
  Forall linha_coerente_exata (tabela (servidor mundo_minusculas)) /\
  ~ Forall linha_coerente_exata
      (tabela (servidor (snd (executa Atualizar mundo_minusculas)))).
Proof.
  split.
  - constructor; [|constructor]. unfold linha_coerente_exata. cbn.
    split; [congruence|]. vm_compute. discriminate.
  - intros H. vm_compute in H. inversion H as [|x xs Hx _]; subst.
    unfold linha_coerente_exata in Hx. cbn in Hx.
    assert (Habs : Some instante_2 <> None) by discriminate.
    apply Hx in Habs. vm_compute in Habs. discriminate.
Qed.

(** With a cursor at hand, [criar_tabela] never raises and leaves rows,
    connection and cursor in place. *)
Lemma criar_tabela_spec (w : Mundo) :
  tem_cursor (banco w) = true ->
  exists w',
    criar_tabela w = (Retorno tt, w') /\
    mesmo_console w w' /\ servidor w' = servidor w.
Proof.
  destruct w as [[[[[|]]|] [[[|] pe]|]] r s ent rel fs evs];
    try discriminate; intros _;
    destruct fs as [|[e1|] [|[e2|] fs]];
    try destruct (errno e1 =? 1050) eqn:H1;
    try destruct (errno e2 =? 1050) eqn:H2;
    unfold criar_tabela; desdobra; unfold sem_sql; cbn; rewrite ?H1, ?H2; cbn;
    eexists; (split; [reflexivity|]); cbn; repeat split.
Qed.

Arguments criar_tabela : simpl never.

(** The constructor leaves a manager that is ready, or one without a
    gateway: [self.bd] is kept only for a connection that reports itself
    connected. *)
Lemma GerenciadorTarefas_init_spec (r : connect_resultado) (w : Mundo) :
  fst (GerenciadorTarefas_init r w) = Retorno tt /\
  bd (snd (GerenciadorTarefas_init r w)) =
    match r with ConnectObjeto true => true | _ => false end /\
  pronto (snd (GerenciadorTarefas_init r w))
  = bd (snd (GerenciadorTarefas_init r w)) /\
  servidor (snd (GerenciadorTarefas_init r w)) = servidor w.
Proof.
  unfold GerenciadorTarefas_init, BancoDeDados_init, _conectar, is_bd_ready,
    set_bd, set_banco, set_cursor, set_conexao, logging, emite, bind, get,
    ret, pronto.
  destruct r as [e|[|]]; cbn; try (repeat split; fail).
  match goal with |- context [criar_tabela ?w0] =>
    destruct (criar_tabela_spec w0 eq_refl)
      as (w' & Hx & (Hb & _ & _ & Ha & _) & Hs)
  end.
  cbn in Ha, Hs. rewrite Hx. cbn. rewrite Ha. cbn.
  split; [reflexivity|]. split; [reflexivity|]. split; [exact Ha|exact Hs].
Qed.

Example construtor_sem_conexao :
  let w := snd (GerenciadorTarefas_init (ConnectErro {| errno := 2003 |})
                  (mundo_vivo [] [])) in
  bd w = false /\ conexao (banco w) = None /\ pronto w = false /\
  map (fun e => match e with Log n _ => Some n | _ => None end) (eventos w)
  = [Some ERROR; Some CRITICAL].
Proof. vm_compute. repeat split. Qed.

Lemma nao_pronto (w : Mundo) :
  bd w = false \/ conexao (banco w) = None \/
  conexao (banco w) = Some {| conectada := false |} ->
  pronto w = false.
Proof.
  unfold pronto, conexao_ativa.
  intros [->|[->| ->]]; [reflexivity|apply andb_false_r..].
Qed.

(** C5.  When the liveness check fails (no gateway, no connection, or a
    connection that the backend reports closed), create, list, update
    and delete each do one thing only: they log one error-level message;
    the gateway is not called and nothing else in the world changes. *)
Theorem sem_conexao_so_registra_erro (w : Mundo) :
  bd w = false \/ conexao (banco w) = None \/
  conexao (banco w) = Some {| conectada := false |} ->
  is_bd_ready w = (Retorno false, w) /\
  cadastrar_tarefa w =
    logging ERROR
      [lit "Não é possível cadastrar tarefa. A conexão com o banco de dados não está ativa!"] w /\
  exibir_tarefas w =
    logging ERROR
      [lit "Não é possível exibir tarefas. Conexão com o banco de dados não está ativa."] w /\
  atualizar_tarefa w =
    logging ERROR
      [lit "Não é possível atualizar tarefa. Conexão com o banco de dados não está ativa."] w /\
  excluir_tarefa w =
    logging ERROR
      [lit "Não é possível excluir tarefa. Conexão com o banco de dados não está ativa."] w /\
  forall m,
    fst (logging ERROR m w) = Retorno tt /\
    rastro (logging ERROR m) w = [Log ERROR m] /\
    filter chamada_armazenamento (rastro (logging ERROR m) w) = [] /\
    so_eventos w (snd (logging ERROR m w)).
Proof.
  intros H. apply nao_pronto in H.
  unfold cadastrar_tarefa, exibir_tarefas, atualizar_tarefa, excluir_tarefa,
    is_bd_ready, bind, get, ret.
  fold (pronto w). rewrite H. cbn [negb].
  do 5 (split; [reflexivity|]).
  assert (Hr : forall m, rastro (logging ERROR m) w = [Log ERROR m])
    by (intros m; now apply rastro_app).
  intros m. split; [reflexivity|]. split; [apply Hr|].
  split; [now rewrite Hr|repeat split].
Qed.

Lemma sem_conexao_so_registra_erro_witness :
  is_bd_ready mundo_desconectado = (Retorno false, mundo_desconectado) /\
  cadastrar_tarefa mundo_desconectado =
    logging ERROR
      [lit "Não é possível cadastrar tarefa. A conexão com o banco de dados não está ativa!"]
      mundo_desconectado /\
  exibir_tarefas mundo_desconectado =
    logging ERROR
      [lit "Não é possível exibir tarefas. Conexão com o banco de dados não está ativa."]
      mundo_desconectado /\
  atualizar_tarefa mundo_desconectado =
    logging ERROR
      [lit "Não é possível atualizar tarefa. Conexão com o banco de dados não está ativa."]
      mundo_desconectado /\
  excluir_tarefa mundo_desconectado =
    logging ERROR
      [lit "Não é possível excluir tarefa. Conexão com o banco de dados não está ativa."]
      mundo_desconectado /\
  forall m,
    fst (logging ERROR m mundo_desconectado) = Retorno tt /\
    rastro (logging ERROR m) mundo_desconectado = [Log ERROR m] /\
    filter chamada_armazenamento (rastro (logging ERROR m) mundo_desconectado)
    = [] /\
    so_eventos mundo_desconectado (snd (logging ERROR m mundo_desconectado)).
Proof.
  apply (sem_conexao_so_registra_erro mundo_desconectado).
  right; right. reflexivity.
Defined.

(** C6.  The gateway keeps backend errors to itself.
    [executar_comando] returns [None] on every path, and after a backend
    error the only trace is an error-level log.  [buscar_dados] returns
    the empty list when the gateway is not live, when the statement
    raises and when the fetch raises; when all goes well it returns the
    rows of the result set, in their order, which for a query without
    matching rows is the empty list again. *)
Theorem gateway_engole_erros :
  (forall c ps w, fst (executar_comando c ps w) = Retorno tt) /\
  (forall c ps w e resto,
     conexao_ativa (banco w) = true -> tem_cursor (banco w) = true ->
     falhas w = Some e :: resto ->
     servidor (snd (executar_comando c ps w)) = servidor w /\
     rastro (executar_comando c ps) w =
       [Executar c ps; CursorExecute c ps;
        Log ERROR [lit "Erro ao executar comando '"; FmtSql c; lit "' : ";
                   FmtErro e]]) /\
  (forall c ps w,
     exists rows,
       fst (buscar_dados c ps w) = Retorno rows /\
       (conexao_ativa (banco w) = false \/ tem_cursor (banco w) = false ->
        rows = []) /\
       (forall e resto, falhas w = Some e :: resto -> rows = []) /\
       (forall e resto, falhas w = None :: Some e :: resto -> rows = []) /\
       (saudavel w ->
        forall s' rs,
          sem_sql c ps (servidor w) = Some (s', Some rs) -> rows = rs)) /\
  (forall w,
     saudavel w ->
     fst (buscar_dados SQL_SELECT_TUDO [] w)
     = Retorno (map tupla_tudo (tabela (servidor w))) /\
     forall p,
       fst (buscar_dados SQL_SELECT_ATUAIS [p] w)
       = Retorno (map tupla_atuais (filter (casa_id p) (tabela (servidor w))))).
Proof.
  split; [|split; [|split]].
  - intros c ps w.
    destruct (executar_comando_spec c ps w) as (w' & -> & _). reflexivity.
  - intros c ps w e resto Ha Hc Hf.
    destruct w as [[[[[|]]|] [[fe pe]|]] r s ent rel fs evs];
      try discriminate.
    cbn in Hf. subst fs. split.
    + unfold executar_comando. desdobra. reflexivity.
    + apply rastro_app. unfold executar_comando. desdobra. cbn.
      rewrite <- !app_assoc. reflexivity.
  - intros c ps w.
    destruct (buscar_dados_spec c ps w) as (rows & w' & Hrun & _ & _ & _ & Hsa).
    exists rows. split; [now rewrite Hrun|].
    assert (Hfalha :
      (conexao_ativa (banco w) = false \/ tem_cursor (banco w) = false ->
       rows = []) /\
      (forall e resto, falhas w = Some e :: resto -> rows = []) /\
      (forall e resto, falhas w = None :: Some e :: resto -> rows = [])).
    { clear Hsa. revert Hrun.
      destruct w as [[[[[|]]|] [[[|] pe]|]] r s ent rel fs evs];
        destruct fs as [|[e1|] [|[e2|] fs]];
        destruct (sem_sql c ps s) as [[s' [rs|]]|] eqn:Hsem;
        unfold buscar_dados; desdobra; cbn; rewrite ?Hsem; cbn;
        intros Hrun; injection Hrun as <- _;
        (split; [|split]); try reflexivity;
        first [ intros [H|H]; discriminate
              | intros e resto H; discriminate ]. }
    destruct Hfalha as (H1 & H2 & H3).
    split; [exact H1|]. split; [exact H2|]. split; [exact H3|].
    intros Hw s' rs Hsem. destruct (Hsa Hw) as (_ & Hrs).
    now destruct (Hrs _ _ Hsem).
  - intros w Hw. split; [|intros p].
    + destruct (buscar_dados_spec SQL_SELECT_TUDO [] w)
        as (rows & w' & -> & _ & _ & _ & Hsa).
      destruct (Hsa Hw) as (_ & Hrs).
      now destruct (Hrs _ _ eq_refl) as (-> & _).
    + destruct (buscar_dados_spec SQL_SELECT_ATUAIS [p] w)
        as (rows & w' & -> & _ & _ & _ & Hsa).
      destruct (Hsa Hw) as (_ & Hrs).
      now destruct (Hrs _ _ eq_refl) as (-> & _).
Qed.

(** A failed query and a query over an empty table give the caller the
    same answer. *)
Example falha_ou_vazio :
  fst (buscar_dados SQL_SELECT_TUDO []
         (ambiente banco_vivo [] instante_2 [Some {| errno := 1146 |}]
            (mundo_vivo [tarefa_1 None None] [])))
  = Retorno [] /\
  fst (buscar_dados SQL_SELECT_TUDO [] (mundo_vivo [] [])) = Retorno [].
Proof. split; reflexivity. Qed.

Lemma gateway_engole_erros_witness :
  servidor
    (snd (executar_comando SQL_DELETE [VStr (txt "1")]
            (ambiente banco_vivo [] instante_2 [Some {| errno := 1205 |}]
               (mundo_vivo [tarefa_1 None None] []))))
  = servidor (mundo_vivo [tarefa_1 None None] []) /\
  rastro (executar_comando SQL_DELETE [VStr (txt "1")])
    (ambiente banco_vivo [] instante_2 [Some {| errno := 1205 |}]
       (mundo_vivo [tarefa_1 None None] []))
  = [Executar SQL_DELETE [VStr (txt "1")];
     CursorExecute SQL_DELETE [VStr (txt "1")];
     Log ERROR [lit "Erro ao executar comando '"; FmtSql SQL_DELETE;
                lit "' : "; FmtErro {| errno := 1205 |}]].
Proof.
  destruct gateway_engole_erros as (_ & H & _).
  apply (H SQL_DELETE [VStr (txt "1")]
           (ambiente banco_vivo [] instante_2 [Some {| errno := 1205 |}]
              (mundo_vivo [tarefa_1 None None] []))
           {| errno := 1205 |} []); reflexivity.
Defined.

Arguments rastro : simpl never.

Ltac fecha_rastro :=
  apply rastro_app; cbn; rewrite <- ?app_assoc; reflexivity.

(** C8.  Closing a gateway without an active connection raises nothing
    and only logs that there was nothing to close.  Closing a live one
    closes the cursor, if there is one, and then the connection, and
    logs that; closing once more after any close is the first case. *)
Theorem fechar_conexao_idempotente (w : Mundo) :
  (conexao_ativa (banco w) = false ->
   fechar_conexao w =
     logging INFO [lit "Nenhuma conexão ativa para fechar."] w) /\
  (conexao_ativa (banco w) = true ->
   fst (fechar_conexao w) = Retorno tt /\
   conexao (banco (snd (fechar_conexao w))) = Some {| conectada := false |} /\
   cursor (banco (snd (fechar_conexao w))) =
     match cursor (banco w) with
     | Some _ => Some {| fechado := true; pendente := None |}
     | None => None
     end /\
   rastro fechar_conexao w =
     (if tem_cursor (banco w) then [CursorClose] else [])
     ++ [ConexaoClose;
         Log INFO [lit "Conexão com o banco de dados fechada."]]) /\
  fechar_conexao (snd (fechar_conexao w)) =
    logging INFO [lit "Nenhuma conexão ativa para fechar."]
      (snd (fechar_conexao w)) /\
  fst (fechar_sistema w) = Retorno tt /\
  fst (fechar_sistema (snd (fechar_sistema w))) = Retorno tt /\
  rastro fechar_sistema (snd (fechar_sistema w)) =
    (if bd w
     then [Log INFO [lit "Nenhuma conexão ativa para fechar."]] else [])
    ++ [Log INFO [lit "Sistema encerrado"]].
Proof.
  destruct w as [[[[[|]]|] [[fe pe]|]] [|] s ent rel fs evs];
    unfold fechar_sistema; desdobra; cbn;
    (split; [intros H; first [discriminate|reflexivity]|]);
    (split; [intros H; try discriminate;
             repeat (split; [reflexivity|]); fecha_rastro|]);
    (split; [reflexivity|]); (split; [reflexivity|]);
    (split; [reflexivity|]); fecha_rastro.
Qed.

Lemma fechar_conexao_idempotente_witness :
  fst (fechar_conexao (mundo_vivo [] [])) = Retorno tt /\
  conexao (banco (snd (fechar_conexao (mundo_vivo [] []))))
  = Some {| conectada := false |} /\
  cursor (banco (snd (fechar_conexao (mundo_vivo [] [])))) =
    match cursor (banco (mundo_vivo [] [])) with
    | Some _ => Some {| fechado := true; pendente := None |}
    | None => None
    end /\
  rastro fechar_conexao (mundo_vivo [] []) =
    (if tem_cursor (banco (mundo_vivo [] [])) then [CursorClose] else [])
    ++ [ConexaoClose;
        Log INFO [lit "Conexão com o banco de dados fechada."]].
Proof.
  destruct (fechar_conexao_idempotente (mundo_vivo [] [])) as (_ & H & _).
  apply H. reflexivity.
Defined.

Lemma visivel_leitura (e : evento) :
  ev_leitura e = true -> visivel e = true -> exists m, e = Log ERROR m.
Proof.
  destruct e as [[] m| | | | | | | | |]; cbn; try discriminate; eauto.
Qed.

Lemma forallb_filter_nada {A} (f : A -> bool) (l : list A) :
  forallb (fun x => negb (f x)) l = true -> filter f l = [].
Proof.
  apply filter_nada. intros x H. now apply negb_true_iff in H.
Qed.

(** The last event of a run that called the gateway for a change. *)
Lemma ultimo_evento (pre mid : list evento) (e fim : evento) :
  exists antes, pre ++ e :: mid ++ [fim] = antes ++ [fim].
Proof. exists (pre ++ e :: mid). now rewrite <- app_assoc. Qed.

Lemma rastro_imprime_menu (w : Mundo) :
  rastro imprime_menu w =
  [Print [Lit [10%N]; lit "--- Gestão de Tarefas ---"];
   Print [lit "1 - Cadastrar Tarefa"];
   Print [lit "2 - Exibir Tarefas"];
   Print [lit "3 - Atualizar Tarefa"];
   Print [lit "4 - Excluir Tarefa"];
   Print [lit "5 - Sair do Sistema"]].
Proof. apply rastro_app. cbn. rewrite <- !app_assoc. reflexivity. Qed.

(** C10.  The logger is configured at [WARNING], so a log record shows
    on the terminal exactly when it is a warning, an error or critical;
    everything [print] and the prompts write shows.  Hence the listing
    shows nothing but error records (no row, and not the "no tasks"
    line, which are info records), and the confirmation that create,
    update and delete log after calling the gateway does not show. *)
Theorem registros_info_suprimidos :
  nivel_configurado = WARNING /\
  (forall n m,
     visivel (Log n m) = true <-> n = WARNING \/ n = ERROR \/ n = CRITICAL) /\
  (forall m, visivel (Print m) = true /\ visivel (Prompt m) = true) /\
  (forall w,
     forallb visivel (rastro imprime_menu w) = true /\
     List.length (rastro imprime_menu w) = 6%nat) /\
  (forall w e,
     In e (rastro exibir_tarefas w) -> visivel e = true ->
     exists m, e = Log ERROR m) /\
  (forall w, saudavel w -> filter visivel (rastro exibir_tarefas w) = []) /\
  (visivel msg_cadastrada = false /\ visivel msg_atualizada = false /\
   visivel msg_excluida = false) /\
  (forall w,
     (filter chamada_mutante (rastro cadastrar_tarefa w) <> [] ->
      exists antes, rastro cadastrar_tarefa w = antes ++ [msg_cadastrada]) /\
     (filter chamada_mutante (rastro atualizar_tarefa w) <> [] ->
      exists antes, rastro atualizar_tarefa w = antes ++ [msg_atualizada]) /\
     (filter chamada_mutante (rastro excluir_tarefa w) <> [] ->
      exists antes, rastro excluir_tarefa w = antes ++ [msg_excluida])).
Proof.
  split; [reflexivity|].
  split; [intros [] m; cbn; split; intros H; try discriminate; auto;
          destruct H as [H|[H|H]]; discriminate|].
  split; [intros m; split; reflexivity|].
  split; [intros w; rewrite rastro_imprime_menu; split; reflexivity|].
  split.
  { intros w e Hin Hv.
    destruct (exibir_tarefas_spec w) as (w' & Hrun & _ & _ & He & _).
    pose proof (rastro_estende _ _ _ _ _ Hrun He) as F.
    apply (proj1 (forallb_forall _ _) F) in Hin.
    now apply visivel_leitura. }
  split.
  { intros w Hw.
    destruct (exibir_tarefas_spec w) as (w' & Hrun & _ & _ & _ & Hsa).
    destruct (Hsa Hw) as (_ & He).
    apply forallb_filter_nada. eapply rastro_estende; eauto. }
  split; [repeat split|].
  intros w. split; [|split]; intros Hne.
  - destruct (cadastrar_tarefa w) as [r w'] eqn:Hrun.
    destruct (cadastrar_tarefa_desfecho w r w' Hrun)
      as [(_ & _ & He & _)
         |(c1 & t & d & p & r1 & mid & _ & _ & _ & _ & _ & _ & Hev & _)].
    + elim Hne. eapply filter_nada; [exact sem_mutacao_chamada|].
      eapply rastro_estende; eauto.
    + rewrite (rastro_de _ _ _ _ _ Hrun Hev). apply ultimo_evento.
  - destruct (atualizar_tarefa w) as [r w'] eqn:Hrun.
    destruct (atualizar_tarefa_desfecho w r w' Hrun)
      as [(_ & _ & He)
         |(idt & a & b & c & st & resto & l & s2 & pre & mid & _ & _ & _
           & _ & _ & _ & Hev & _)].
    + elim Hne. eapply filter_nada; [exact sem_mutacao_chamada|].
      eapply rastro_estende; eauto.
    + rewrite (rastro_de _ _ _ _ _ Hrun Hev). apply ultimo_evento.
  - destruct (excluir_tarefa w) as [r w'] eqn:Hrun.
    destruct (excluir_tarefa_desfecho w r w' Hrun)
      as [(_ & _ & He)
         |(idt & resto & pre & mid & _ & _ & _ & _ & Hev & _)].
    + elim Hne. eapply filter_nada; [exact sem_mutacao_chamada|].
      eapply rastro_estende; eauto.
    + rewrite (rastro_de _ _ _ _ _ Hrun Hev). apply ultimo_evento.
Qed.

Lemma registros_info_suprimidos_witness :
  filter visivel (rastro exibir_tarefas (mundo_vivo [tarefa_1 None None] []))
  = [].
Proof.
  destruct registros_info_suprimidos as (_ & _ & _ & _ & _ & H & _).
  apply H. unfold saudavel. cbn. repeat split. constructor.
Defined.

(** What the listing logs for one stored task, and for none: info
    records only (and the debug record of the gateway), none of which
    shows. *)
Example listagem_de_uma_tarefa :
  map (fun e => match e with Log n _ => Some n | _ => None end)
      (rastro exibir_tarefas (mundo_vivo [tarefa_1 None None] []))
  = [None; None; None; Some DEBUG; Some INFO; Some INFO; Some INFO;
     Some INFO; Some INFO; Some INFO; Some INFO; Some INFO] /\
  rastro exibir_tarefas (mundo_vivo [] [])
  = [Buscar SQL_SELECT_TUDO []; CursorExecute SQL_SELECT_TUDO [];
     CursorFetchall;
     Log DEBUG [lit "Dados buscados com sucesso: "; FmtSql SQL_SELECT_TUDO;
                lit " com "; FmtTupla []];
     Log INFO [lit "Nenhuma tarefa cadastrada."]].
Proof. split; reflexivity. Qed.

(* ================================================================== *)
(** ** Further properties: the gateway and the listing, step by step *)

Lemma com_eventos_nil (w : Mundo) : com_eventos [] w = w.
Proof. destruct w. unfold com_eventos. cbn. now rewrite app_nil_r. Qed.

Lemma com_eventos_app (a b : list evento) (w : Mundo) :
  com_eventos b (com_eventos a w) = com_eventos (a ++ b) w.
Proof. unfold com_eventos. cbn. now rewrite app_assoc. Qed.

(** A statement that the backend accepts, on a gateway in working
    order: it reaches the cursor, is committed, and nothing is logged. *)
Lemma executar_comando_vivo (c : sql) (ps : tupla) (w : Mundo)
    (s' : Servidor) (r : option (list tupla)) :
  saudavel w ->
  sem_sql c ps (servidor w) = Some (s', r) ->
  executar_comando c ps w =
  (Retorno tt,
   {| banco := {| conexao := conexao (banco w);
                  cursor := Some {| fechado := false; pendente := r |} |};
      bd := bd w; servidor := s'; entrada := entrada w;
      relogio := relogio w; falhas := skipn 2 (falhas w);
      eventos := eventos w ++ [Executar c ps; CursorExecute c ps;
                               ConexaoCommit] |}).
Proof.
  destruct w as [[[[[|]]|] [[[|] pe]|]] b s ent rel fs evs];
    unfold saudavel; cbn; intros (Hbd & Hat & Hcu & Hfs) Hsem;
    try discriminate.
  destruct fs as [|[e1|] [|[e2|] fs]]; sem_erro;
    unfold executar_comando; desdobra; cbn; rewrite Hsem; cbn;
    rewrite <- ?app_assoc; reflexivity.
Qed.

(** The statement raises at the cursor: one error record, no commit. *)
Lemma executar_comando_falha (c : sql) (ps : tupla) (w : Mundo)
    (e : Error) (fs : list (option Error)) :
  conexao_ativa (banco w) = true -> tem_cursor (banco w) = true ->
  falhas w = Some e :: fs ->
  executar_comando c ps w =
  (Retorno tt,
   {| banco := banco w; bd := bd w; servidor := servidor w;
      entrada := entrada w; relogio := relogio w; falhas := fs;
      eventos := eventos w ++
        [Executar c ps; CursorExecute c ps;
         Log ERROR [lit "Erro ao executar comando '"; FmtSql c; lit "' : ";
                    FmtErro e]] |}).
Proof.
  destruct w as [[[[[|]]|] [[fe pe]|]] b s ent rel fs0 evs];
    cbn; intros Hat Hcu Hfs; try discriminate. subst fs0.
  unfold executar_comando. desdobra. cbn. rewrite <- ?app_assoc.
  reflexivity.
Qed.

(** The commit raises: the same record, after the commit was tried. *)
Lemma executar_comando_falha_commit (c : sql) (ps : tupla) (w : Mundo)
    (e : Error) (fs : list (option Error)) (s' : Servidor)
    (r : option (list tupla)) :
  conexao_ativa (banco w) = true -> cursor_aberto (banco w) = true ->
  falhas w = None :: Some e :: fs ->
  sem_sql c ps (servidor w) = Some (s', r) ->
  fst (executar_comando c ps w) = Retorno tt /\
  rastro (executar_comando c ps) w =
    [Executar c ps; CursorExecute c ps; ConexaoCommit;
     Log ERROR [lit "Erro ao executar comando '"; FmtSql c; lit "' : ";
                FmtErro e]].
Proof.
  destruct w as [[[[[|]]|] [[[|] pe]|]] b s ent rel fs0 evs];
    cbn; intros Hat Hcu Hfs Hsem; try discriminate. subst fs0.
  split.
  - unfold executar_comando. desdobra. cbn. rewrite Hsem. reflexivity.
  - apply rastro_app. unfold executar_comando. desdobra. cbn.
    rewrite Hsem. cbn. rewrite <- ?app_assoc. reflexivity.
Qed.

(** The query raises at the cursor: one error record and no row. *)
Lemma buscar_dados_falha (c : sql) (ps : tupla) (w : Mundo)
    (e : Error) (fs : list (option Error)) :
  conexao_ativa (banco w) = true -> tem_cursor (banco w) = true ->
  falhas w = Some e :: fs ->
  buscar_dados c ps w =
  (Retorno [],
   {| banco := banco w; bd := bd w; servidor := servidor w;
      entrada := entrada w; relogio := relogio w; falhas := fs;
      eventos := eventos w ++
        [Buscar c ps; CursorExecute c ps;
         Log ERROR [lit "Erro ao buscar os dados com o comando '"; FmtSql c;
                    lit "' com parâmetros "; FmtTupla ps; lit ": ";
                    FmtErro e]] |}).
Proof.
  destruct w as [[[[[|]]|] [[fe pe]|]] b s ent rel fs0 evs];
    cbn; intros Hat Hcu Hfs; try discriminate. subst fs0.
  unfold buscar_dados. desdobra. cbn. rewrite <- ?app_assoc.
  reflexivity.
Qed.

(** The records of one row, and of all of them. *)
Lemma exibe_tarefa_linha (l : linha) (w : Mundo) :
  exibe_tarefa (tupla_tudo l) w
  = (Retorno tt, com_eventos (registros_de_linha l) w).
Proof.
  unfold exibe_tarefa, tupla_tudo, registros_de_linha, indice, logging,
    emite, bind, ret, com_eventos.
  destruct (col_data_conclusao l); cbn; rewrite <- ?app_assoc; reflexivity.
Qed.

Lemma exibe_todas_linhas (tab : list linha) (w : Mundo) :
  exibe_todas (map tupla_tudo tab) w
  = (Retorno tt, com_eventos (flat_map registros_de_linha tab) w).
Proof.
  revert w. induction tab as [|l tab IH]; intros w.
  - cbn [map flat_map]. now rewrite com_eventos_nil.
  - cbn [map flat_map].
    change (exibe_todas (tupla_tudo l :: map tupla_tudo tab) w)
      with (bind (exibe_tarefa (tupla_tudo l))
                 (fun _ => exibe_todas (map tupla_tudo tab)) w).
    unfold bind. rewrite exibe_tarefa_linha, IH, com_eventos_app.
    reflexivity.
Qed.

(** The listing on a gateway in working order, event by event. *)
Lemma exibir_tarefas_saudavel (w : Mundo) :
  saudavel w ->
  exists w' m,
    exibir_tarefas w = (Retorno tt, w') /\
    saudavel w' /\ mesmo_console w w' /\ servidor w' = servidor w /\
    eventos w' =
      eventos w ++
      [Buscar SQL_SELECT_TUDO []; CursorExecute SQL_SELECT_TUDO [];
       CursorFetchall; Log DEBUG m]
      ++ registros_da_listagem (tabela (servidor w)).
Proof.
  intros Hw. pose proof (saudavel_pronto w Hw) as Hpr.
  assert (Hbd : bd w = true) by apply Hw.
  unfold exibir_tarefas, is_bd_ready, self_bd, bind, get, ret.
  fold (pronto w). rewrite Hpr. cbn [negb]. rewrite Hbd.
  destruct (buscar_dados_spec SQL_SELECT_TUDO [] w)
    as (rows & w1 & -> & Hc & Hsem & _ & Hs).
  destruct (Hs Hw) as (Hw1 & Hrs).
  destruct (Hrs _ _ eq_refl) as (-> & m & Hev).
  assert (Hsrv : servidor w1 = servidor w).
  { destruct Hsem as [(_ & [H|(r & H)])|H]; auto;
      exact (sem_sql_consulta SQL_SELECT_TUDO _ _ _ _ eq_refl H). }
  destruct (tabela (servidor w)) as [|l tab] eqn:Htab.
  - cbn [map]. eexists. exists m. split; [reflexivity|]. cbn.
    split; [exact Hw1|]. split; [exact Hc|]. split; [exact Hsrv|].
    rewrite Hev, <- app_assoc. reflexivity.
  - cbn [map]. unfold logging, emite.
    change (tupla_tudo l :: map tupla_tudo tab)
      with (map tupla_tudo (l :: tab)).
    rewrite exibe_todas_linhas.
    eexists. exists m. split; [reflexivity|]. cbn.
    split; [exact Hw1|]. split; [exact Hc|]. split; [exact Hsrv|].
    rewrite Hev, <- !app_assoc. reflexivity.
Qed.

(* ================================================================== *)
(** ** Further properties: create, delete and update on their main path *)

(** The title loop over a console whose first long line is [t]. *)
Lemma laco_titulo_aceita (curtos : list pystr) (t : pystr)
    (resto : list pystr) (w : Mundo) :
  Forall curto curtos -> (12 <= List.length t)%nat ->
  laco_titulo (curtos ++ t :: resto) w =
  (Retorno t,
   {| banco := banco w; bd := bd w; servidor := servidor w;
      entrada := resto; relogio := relogio w; falhas := falhas w;
      eventos := eventos w ++ flat_map (fun _ => recusa_titulo) curtos
                 ++ [Prompt [lit "Título da tarefa: "]] |}).
Proof.
  intros Hc Ht. revert w.
  induction Hc as [|x curtos Hx _ IH]; intros w.
  - apply Nat.leb_le in Ht. unfold laco_titulo, bind, emite, set_entrada, ret.
    cbn -[Nat.leb]. rewrite Ht. reflexivity.
  - unfold curto in Hx. apply Nat.leb_gt in Hx.
    change (laco_titulo ((x :: curtos) ++ t :: resto) w)
      with (bind (emite (Prompt [lit "Título da tarefa: "]))
              (fun _ =>
                 bind (set_entrada (curtos ++ t :: resto))
                   (fun _ =>
                      if (12 <=? List.length x)%nat then ret x
                      else
                        bind (logging WARNING
                                [lit "Título da tarefa deve ser maior que 12 caracteres."])
                             (fun _ => laco_titulo (curtos ++ t :: resto)))) w).
    unfold bind, emite, set_entrada, logging, ret. cbn -[Nat.leb].
    rewrite Hx, IH. cbn. rewrite <- !app_assoc. reflexivity.
Qed.

(** A create with a title, a description and an owner on the console
    comes down to the call of the gateway, after the prompts. *)
Lemma cadastrar_tarefa_caminho (w : Mundo) (curtos : list pystr)
    (t d resp : pystr) (resto : list pystr) :
  pronto w = true ->
  entrada w = curtos ++ t :: d :: resp :: resto ->
  Forall curto curtos -> (12 <= List.length t)%nat ->
  cadastrar_tarefa w =
  (executar_comando SQL_INSERT
     [VStr t; VStr d; VStr resp; VStr (txt "Pendente");
      VData (relogio w); VNone] ;;
   logging INFO [lit "Tarefa cadastrada com sucesso!"])
    {| banco := banco w; bd := bd w; servidor := servidor w;
       entrada := resto; relogio := relogio w; falhas := falhas w;
       eventos := eventos w ++
         flat_map (fun _ => recusa_titulo) curtos ++
         [Prompt [lit "Título da tarefa: "];
          Prompt [lit "Descrição da tarefa: "];
          Prompt [lit "Responsável: "]] |}.
Proof.
  intros Hpr Hent Hc Ht.
  assert (Hbd : bd w = true).
  { unfold pronto in Hpr. now apply andb_true_iff in Hpr. }
  unfold cadastrar_tarefa, is_bd_ready, bind, get, ret.
  fold (pronto w). rewrite Hpr. cbn [negb]. rewrite Hent.
  rewrite (laco_titulo_aceita _ _ _ _ Hc Ht).
  unfold input, Tarefa.init, datetime_now, self_bd, bind, get, emite,
    set_entrada, logging, ret. cbn. rewrite Hbd. rewrite <- !app_assoc. cbn.
  reflexivity.
Qed.

Lemma Forall_None_skipn (n : nat) (l : list (option Error)) :
  Forall (eq None) l -> Forall (eq None) (skipn n l).
Proof.
  revert l. induction n as [|n IH]; intros l H; [exact H|].
  destruct l as [|x l]; [constructor|]. cbn. apply IH. now inversion H.
Qed.

(** A create on a gateway in working order. *)
Lemma cadastrar_tarefa_saudavel (w : Mundo) (curtos : list pystr)
    (t d resp : pystr) (resto : list pystr) :
  saudavel w ->
  entrada w = curtos ++ t :: d :: resp :: resto ->
  Forall curto curtos -> (12 <= List.length t)%nat ->
  exists w',
    cadastrar_tarefa w = (Retorno tt, w') /\
    saudavel w' /\ entrada w' = resto /\ relogio w' = relogio w /\
    servidor w' =
      {| tabela := tabela (servidor w)
                   ++ [linha_nova (servidor w) t d resp (relogio w)];
         prox_id := prox_id (servidor w) + 1 |} /\
    eventos w' =
      eventos w ++ flat_map (fun _ => recusa_titulo) curtos ++
      [Prompt [lit "Título da tarefa: "];
       Prompt [lit "Descrição da tarefa: "];
       Prompt [lit "Responsável: "];
       Executar SQL_INSERT
         [VStr t; VStr d; VStr resp; VStr (txt "Pendente");
          VData (relogio w); VNone];
       CursorExecute SQL_INSERT
         [VStr t; VStr d; VStr resp; VStr (txt "Pendente");
          VData (relogio w); VNone];
       ConexaoCommit; msg_cadastrada].
Proof.
  intros Hw Hent Hc Ht.
  rewrite (cadastrar_tarefa_caminho w curtos t d resp resto
             (saudavel_pronto w Hw) Hent Hc Ht).
  unfold bind.
  erewrite executar_comando_vivo;
    [|eapply saudavel_mesma_sessao; [| | |exact Hw]; reflexivity
     |unfold sem_sql; cbn; reflexivity].
  unfold logging, emite. eexists. split; [reflexivity|]. cbn.
  destruct Hw as (Hbd & Hat & Hcu & Hfs).
  split.
  - unfold saudavel. cbn. split; [exact Hbd|]. split; [exact Hat|].
    split; [reflexivity|]. exact (Forall_None_skipn 2 _ Hfs).
  - do 3 (split; [reflexivity|]). rewrite <- !app_assoc. reflexivity.
Qed.

(** A delete on a gateway in working order, for an id that is stored. *)
Lemma excluir_tarefa_saudavel (w : Mundo) (idt : pystr)
    (resto : list pystr) :
  saudavel w ->
  entrada w = idt :: resto ->
  existsb (casa_id (VStr idt)) (tabela (servidor w)) = true ->
  exists w' pre,
    excluir_tarefa w = (Retorno tt, w') /\
    saudavel w' /\ entrada w' = resto /\ relogio w' = relogio w /\
    servidor w' =
      {| tabela := filter (fun l => negb (casa_id (VStr idt) l))
                          (tabela (servidor w));
         prox_id := prox_id (servidor w) |} /\
    eventos w' =
      eventos w ++ pre ++
      [Prompt [lit "Digite a ID para excluir uma tarefa: "];
       Executar SQL_DELETE [VStr idt]; CursorExecute SQL_DELETE [VStr idt];
       ConexaoCommit; msg_excluida] /\
    forallb ev_leitura pre = true.
Proof.
  intros Hw Hent Hex.
  destruct (excluir_tarefa w) as [r w'] eqn:Hrun.
  rewrite excluir_tarefa_forma in Hrun.
  pose proof (saudavel_pronto w Hw) as Hpr.
  apply seleciona_tarefa_casos in Hrun
    as [(_ & _ & _ & [(Hp & _)|[(_ & _ & _ & _ & Hvazia)|[(_ & He & _)
         |(i & e & p & _ & He & Hn & _)]]])
       |(i & e & w0 & pre0 & _ & He & _ & Hk & Hbd0 & Hs0 & Hr0
         & Hen0 & Hev0 & Fp0 & Hsa0)].
  - congruence.
  - rewrite (Hvazia Hw) in Hex. discriminate.
  - congruence.
  - rewrite Hent in He. injection He as <- <-. congruence.
  - rewrite Hent in He. injection He as <- <-.
    specialize (Hsa0 Hw).
    unfold self_bd, bind, get in Hk. rewrite Hbd0 in Hk.
    erewrite executar_comando_vivo in Hk;
      [|exact Hsa0|unfold sem_sql; reflexivity].
    unfold logging, emite in Hk. injection Hk as <- <-.
    eexists. exists pre0. split; [reflexivity|]. cbn.
    destruct Hsa0 as (Hbd & Hat & Hcu & Hfs).
    split.
    { unfold saudavel. cbn. split; [exact Hbd|]. split; [exact Hat|].
      split; [reflexivity|]. exact (Forall_None_skipn 2 _ Hfs). }
    split; [exact Hen0|]. split; [exact Hr0|].
    split; [now rewrite Hs0|]. split; [|exact Fp0].
    rewrite Hev0, <- !app_assoc. reflexivity.
Qed.

(** X1.  On a gateway in working order the listing returns, reads no
    line and changes no row; after its query it logs, at info level,
    either the one line that no task is registered (empty table) or the
    header followed by seven records per stored row, in table order:
    id, title, description, owner, status, creation and completion, the
    last one reading "Não concluída" for a null completion. *)
Theorem listagem_registra_cada_tarefa (w : Mundo) :
  saudavel w ->
  fst (exibir_tarefas w) = Retorno tt /\
  servidor (snd (exibir_tarefas w)) = servidor w /\
  entrada (snd (exibir_tarefas w)) = entrada w /\
  exists m,
    rastro exibir_tarefas w =
      [Buscar SQL_SELECT_TUDO []; CursorExecute SQL_SELECT_TUDO [];
       CursorFetchall; Log DEBUG m]
      ++ registros_da_listagem (tabela (servidor w)).
Proof.
  intros Hw.
  destruct (exibir_tarefas_saudavel w Hw)
    as (w' & m & Hrun & _ & (_ & He & _) & Hs & Hev).
  rewrite Hrun. cbn [fst snd]. split; [reflexivity|]. split; [exact Hs|].
  split; [exact He|]. exists m. apply rastro_app. now rewrite Hrun.
Qed.

Lemma listagem_registra_cada_tarefa_witness :
  exists m,
    rastro exibir_tarefas (mundo_vivo [tarefa_1 (Some (txt "Pendente")) None] []) =
      [Buscar SQL_SELECT_TUDO []; CursorExecute SQL_SELECT_TUDO [];
       CursorFetchall; Log DEBUG m]
      ++ registros_da_listagem [tarefa_1 (Some (txt "Pendente")) None].
Proof.
  apply (listagem_registra_cada_tarefa
           (mundo_vivo [tarefa_1 (Some (txt "Pendente")) None] [])).
  unfold saudavel. cbn. repeat split. constructor.
Defined.

(** X2.  When the query of the listing raises at the cursor, the
    listing still returns: the gateway logs the error, hands back no
    row, and the listing then logs that no task is registered, whatever
    the table holds; no row is changed. *)
Theorem listagem_com_falha_diz_vazio (w : Mundo) (e : Error)
    (fs : list (option Error)) :
  pronto w = true -> tem_cursor (banco w) = true ->
  falhas w = Some e :: fs ->
  fst (exibir_tarefas w) = Retorno tt /\
  servidor (snd (exibir_tarefas w)) = servidor w /\
  rastro exibir_tarefas w =
    [Buscar SQL_SELECT_TUDO []; CursorExecute SQL_SELECT_TUDO [];
     Log ERROR [lit "Erro ao buscar os dados com o comando '";
                FmtSql SQL_SELECT_TUDO; lit "' com parâmetros ";
                FmtTupla []; lit ": "; FmtErro e];
     Log INFO [lit "Nenhuma tarefa cadastrada."]].
Proof.
  intros Hpr Hcu Hfs.
  assert (Hbd : bd w = true /\ conexao_ativa (banco w) = true).
  { unfold pronto in Hpr. now apply andb_true_iff in Hpr. }
  destruct Hbd as (Hbd & Hat).
  assert (Hrun : exibir_tarefas w =
            (Retorno tt,
             {| banco := banco w; bd := bd w; servidor := servidor w;
                entrada := entrada w; relogio := relogio w; falhas := fs;
                eventos := eventos w ++
                  [Buscar SQL_SELECT_TUDO []; CursorExecute SQL_SELECT_TUDO [];
                   Log ERROR [lit "Erro ao buscar os dados com o comando '";
                              FmtSql SQL_SELECT_TUDO; lit "' com parâmetros ";
                              FmtTupla []; lit ": "; FmtErro e];
                   Log INFO [lit "Nenhuma tarefa cadastrada."]] |})).
  { unfold exibir_tarefas, is_bd_ready, self_bd, bind, get, ret.
    fold (pronto w). rewrite Hpr. cbn [negb]. rewrite Hbd.
    rewrite (buscar_dados_falha _ _ _ _ _ Hat Hcu Hfs).
    unfold logging, emite. cbn. rewrite <- !app_assoc, ?Hbd. reflexivity. }
  rewrite Hrun. cbn [fst snd servidor]. split; [reflexivity|].
  split; [reflexivity|]. apply rastro_app. now rewrite Hrun.
Qed.

Lemma listagem_com_falha_diz_vazio_witness :
  let w := ambiente banco_vivo [] instante_2 [Some {| errno := 2013 |}]
             (mundo_vivo [tarefa_1 (Some (txt "Pendente")) None] []) in
  fst (exibir_tarefas w) = Retorno tt /\
  servidor (snd (exibir_tarefas w)) = servidor w /\
  rastro exibir_tarefas w =
    [Buscar SQL_SELECT_TUDO []; CursorExecute SQL_SELECT_TUDO [];
     Log ERROR [lit "Erro ao buscar os dados com o comando '";
                FmtSql SQL_SELECT_TUDO; lit "' com parâmetros ";
                FmtTupla []; lit ": "; FmtErro {| errno := 2013 |}];
     Log INFO [lit "Nenhuma tarefa cadastrada."]].
Proof.
  apply (listagem_com_falha_diz_vazio
           (ambiente banco_vivo [] instante_2 [Some {| errno := 2013 |}]
              (mundo_vivo [tarefa_1 (Some (txt "Pendente")) None] []))
           {| errno := 2013 |} []); reflexivity.
Defined.

(** X3.  A create on a gateway in working order, with a title of twelve
    characters or more (after any number of shorter lines), a
    description and an owner on the console, appends exactly one row to
    the table and changes no other: the row has the next id, the three
    answers, status [Pendente], a creation timestamp and no completion
    timestamp.  (The creation timestamp is bound to the time of the
    call; of that moment the [DATETIME] column keeps what it holds.) *)
Theorem cadastro_armazena_a_tarefa (w : Mundo) (curtos : list pystr)
    (t d resp : pystr) (resto : list pystr) :
  saudavel w ->
  entrada w = curtos ++ t :: d :: resp :: resto ->
  Forall curto curtos -> (12 <= List.length t)%nat ->
  fst (cadastrar_tarefa w) = Retorno tt /\
  entrada (snd (cadastrar_tarefa w)) = resto /\
  (exists nova,
     tabela (servidor (snd (cadastrar_tarefa w)))
     = tabela (servidor w) ++ [nova] /\
     col_id nova = prox_id (servidor w) /\
     col_titulo nova = t /\
     col_descricao nova = Some d /\
     col_responsavel nova = Some resp /\
     col_status nova = Some (txt "Pendente") /\
     col_data_criacao nova <> None /\
     col_data_conclusao nova = None) /\
  prox_id (servidor (snd (cadastrar_tarefa w))) = prox_id (servidor w) + 1 /\
  saudavel (snd (cadastrar_tarefa w)).
Proof.
  intros Hw Hent Hc Ht.
  destruct (cadastrar_tarefa_saudavel w curtos t d resp resto Hw Hent Hc Ht)
    as (w' & -> & Hw' & He & _ & Hs & _).
  cbn [fst snd]. split; [reflexivity|]. split; [exact He|].
  rewrite Hs. cbn [tabela prox_id]. split.
  - eexists. split; [reflexivity|]. cbn. repeat split. discriminate.
  - split; [reflexivity|exact Hw'].
Qed.

Lemma cadastro_armazena_a_tarefa_witness :
  fst (cadastrar_tarefa mundo_cadastro) = Retorno tt /\
  entrada (snd (cadastrar_tarefa mundo_cadastro)) = [] /\
  (exists nova,
     tabela (servidor (snd (cadastrar_tarefa mundo_cadastro)))
     = tabela (servidor mundo_cadastro) ++ [nova] /\
     col_id nova = prox_id (servidor mundo_cadastro) /\
     col_titulo nova = txt "Implementar módulo X" /\
     col_descricao nova = Some (txt "desc") /\
     col_responsavel nova = Some (txt "Ana") /\
     col_status nova = Some (txt "Pendente") /\
     col_data_criacao nova <> None /\
     col_data_conclusao nova = None) /\
  prox_id (servidor (snd (cadastrar_tarefa mundo_cadastro)))
  = prox_id (servidor mundo_cadastro) + 1 /\
  saudavel (snd (cadastrar_tarefa mundo_cadastro)).
Proof.
  apply (cadastro_armazena_a_tarefa mundo_cadastro [txt "curto"]
           (txt "Implementar módulo X") (txt "desc") (txt "Ana") []).
  - unfold saudavel. cbn. repeat split. constructor.
  - reflexivity.
  - constructor; [|constructor]. unfold curto. vm_compute. lia.
  - vm_compute. lia.
Defined.



(** X5.  When the insert raises at the cursor, the create still
    returns and still logs its confirmation: after the three prompts
    the run is the call of the gateway, the statement at the cursor, the
    gateway's error record and "Tarefa cadastrada com sucesso!"; no row
    is stored and nothing is committed. *)
Theorem cadastro_confirma_apesar_da_falha (w : Mundo) (t d resp : pystr)
    (resto : list pystr) (e : Error) (fs : list (option Error)) :
  pronto w = true -> tem_cursor (banco w) = true ->
  falhas w = Some e :: fs ->
  entrada w = t :: d :: resp :: resto -> (12 <= List.length t)%nat ->
  let params := [VStr t; VStr d; VStr resp; VStr (txt "Pendente");
                 VData (relogio w); VNone] in
  fst (cadastrar_tarefa w) = Retorno tt /\
  servidor (snd (cadastrar_tarefa w)) = servidor w /\
  rastro cadastrar_tarefa w =
    [Prompt [lit "Título da tarefa: "];
     Prompt [lit "Descrição da tarefa: "];
     Prompt [lit "Responsável: "];
     Executar SQL_INSERT params; CursorExecute SQL_INSERT params;
     Log ERROR [lit "Erro ao executar comando '"; FmtSql SQL_INSERT;
                lit "' : "; FmtErro e];
     msg_cadastrada].
Proof.
  intros Hpr Hcu Hfs Hent Ht params.
  assert (Hat : conexao_ativa (banco w) = true).
  { unfold pronto in Hpr. now apply andb_true_iff in Hpr. }
  assert (Hrun : cadastrar_tarefa w =
            (Retorno tt,
             {| banco := banco w; bd := bd w; servidor := servidor w;
                entrada := resto; relogio := relogio w; falhas := fs;
                eventos := eventos w ++
                  [Prompt [lit "Título da tarefa: "];
                   Prompt [lit "Descrição da tarefa: "];
                   Prompt [lit "Responsável: "];
                   Executar SQL_INSERT params; CursorExecute SQL_INSERT params;
                   Log ERROR [lit "Erro ao executar comando '";
                              FmtSql SQL_INSERT; lit "' : "; FmtErro e];
                   msg_cadastrada] |})).
  { rewrite (cadastrar_tarefa_caminho w [] t d resp resto Hpr Hent
               (Forall_nil _) Ht).
    unfold bind.
    erewrite executar_comando_falha; [|exact Hat|exact Hcu|exact Hfs].
    unfold logging, emite. cbn. rewrite <- !app_assoc. reflexivity. }
  rewrite Hrun. cbn [fst snd servidor]. split; [reflexivity|].
  split; [reflexivity|]. apply rastro_app. rewrite Hrun. reflexivity.
Qed.

Lemma cadastro_confirma_apesar_da_falha_witness :
  let w := ambiente banco_vivo
             [txt "Implementar módulo X"; txt "desc"; txt "Ana"]
             instante_2 [Some {| errno := 1406 |}] (mundo_vivo [] []) in
  let params := [VStr (txt "Implementar módulo X"); VStr (txt "desc");
                 VStr (txt "Ana"); VStr (txt "Pendente");
                 VData (relogio w); VNone] in
  fst (cadastrar_tarefa w) = Retorno tt /\
  servidor (snd (cadastrar_tarefa w)) = servidor w /\
  rastro cadastrar_tarefa w =
    [Prompt [lit "Título da tarefa: "];
     Prompt [lit "Descrição da tarefa: "];
     Prompt [lit "Responsável: "];
     Executar SQL_INSERT params; CursorExecute SQL_INSERT params;
     Log ERROR [lit "Erro ao executar comando '"; FmtSql SQL_INSERT;
                lit "' : "; FmtErro {| errno := 1406 |}];
     msg_cadastrada].
Proof.
  apply (cadastro_confirma_apesar_da_falha
           (ambiente banco_vivo
              [txt "Implementar módulo X"; txt "desc"; txt "Ana"]
              instante_2 [Some {| errno := 1406 |}] (mundo_vivo [] []))
           (txt "Implementar módulo X") (txt "desc") (txt "Ana") []
           {| errno := 1406 |} []).
  - reflexivity.
  - reflexivity.
  - reflexivity.
  - reflexivity.
  - vm_compute. lia.
Defined.

Lemma chamada_mutante_leitura (e : evento) :
  ev_leitura e = true -> chamada_mutante e = false.
Proof. intros H. now apply sem_mutacao_chamada, sem_mutacao_leitura. Qed.

Lemma existsb_casa_id (idt : pystr) (l : linha) (tab : list linha) :
  In l tab -> str_int (col_id l) = idt ->
  existsb (casa_id (VStr idt)) tab = true.
Proof.
  intros Hin Hid. apply existsb_exists. exists l. split; [exact Hin|].
  cbn. now apply pystr_eqb_eq.
Qed.

(** X6.  A delete on a gateway in working order, for an id typed as the
    stored id prints, removes the rows of that id and no other: the
    table afterwards is the table before without them, in the same
    order.  The run calls the gateway for a change exactly once, with
    the delete statement bound to the text typed, and ends with the
    statement at the cursor, the commit and the confirmation. *)
Theorem exclusao_remove_a_tarefa (w : Mundo) (idt : pystr)
    (resto : list pystr) (l : linha) :
  saudavel w ->
  entrada w = idt :: resto ->
  In l (tabela (servidor w)) -> str_int (col_id l) = idt ->
  fst (excluir_tarefa w) = Retorno tt /\
  entrada (snd (excluir_tarefa w)) = resto /\
  tabela (servidor (snd (excluir_tarefa w))) =
    filter (fun r => negb (PyStr.eqb (str_int (col_id r)) idt))
           (tabela (servidor w)) /\
  prox_id (servidor (snd (excluir_tarefa w))) = prox_id (servidor w) /\
  filter chamada_mutante (rastro excluir_tarefa w)
  = [Executar SQL_DELETE [VStr idt]] /\
  exists antes,
    rastro excluir_tarefa w =
      antes ++ [Executar SQL_DELETE [VStr idt];
                CursorExecute SQL_DELETE [VStr idt];
                ConexaoCommit; msg_excluida].
Proof.
  intros Hw Hent Hin Hid.
  destruct (excluir_tarefa_saudavel w idt resto Hw Hent
              (existsb_casa_id idt l _ Hin Hid))
    as (w' & pre & Hrun & _ & He & _ & Hs & Hev & Fp).
  assert (Hr : rastro excluir_tarefa w =
               pre ++ [Prompt [lit "Digite a ID para excluir uma tarefa: "];
                       Executar SQL_DELETE [VStr idt];
                       CursorExecute SQL_DELETE [VStr idt];
                       ConexaoCommit; msg_excluida]).
  { apply rastro_app. now rewrite Hrun. }
  rewrite Hrun. cbn [fst snd]. split; [reflexivity|]. split; [exact He|].
  rewrite Hs. cbn [tabela prox_id]. split; [reflexivity|].
  split; [reflexivity|]. rewrite Hr. split.
  - rewrite filter_app.
    rewrite (filter_nada _ _ _ chamada_mutante_leitura Fp). reflexivity.
  - exists (pre ++ [Prompt [lit "Digite a ID para excluir uma tarefa: "]]).
    rewrite <- app_assoc. reflexivity.
Qed.

Lemma exclusao_remove_a_tarefa_witness :
  let w := mundo_vivo [tarefa_1 (Some (txt "Pendente")) None] [txt "1"] in
  fst (excluir_tarefa w) = Retorno tt /\
  entrada (snd (excluir_tarefa w)) = [] /\
  tabela (servidor (snd (excluir_tarefa w))) =
    filter (fun r => negb (PyStr.eqb (str_int (col_id r)) (txt "1")))
           (tabela (servidor w)) /\
  prox_id (servidor (snd (excluir_tarefa w))) = prox_id (servidor w) /\
  filter chamada_mutante (rastro excluir_tarefa w)
  = [Executar SQL_DELETE [VStr (txt "1")]] /\
  exists antes,
    rastro excluir_tarefa w =
      antes ++ [Executar SQL_DELETE [VStr (txt "1")];
                CursorExecute SQL_DELETE [VStr (txt "1")];
                ConexaoCommit; msg_excluida].
Proof.
  apply (exclusao_remove_a_tarefa
           (mundo_vivo [tarefa_1 (Some (txt "Pendente")) None] [txt "1"])
           (txt "1") [] (tarefa_1 (Some (txt "Pendente")) None)).
  - unfold saudavel. cbn. repeat split. constructor.
  - reflexivity.
  - left. reflexivity.
  - reflexivity.
Defined.

(** X7.  Delete, then delete or update the same id again: after a
    delete that went through, the id is not found any more, so the
    second operation returns without sending any statement that
    changes rows and leaves the table as the first delete left it. *)
Theorem exclusao_repetida_nao_encontra (w : Mundo) (idt : pystr)
    (resto : list pystr) (l : linha) :
  saudavel w ->
  entrada w = idt :: idt :: resto ->
  In l (tabela (servidor w)) -> str_int (col_id l) = idt ->
  let w1 := snd (excluir_tarefa w) in
  (fst (excluir_tarefa w1) = Retorno tt /\
   servidor (snd (excluir_tarefa w1)) = servidor w1 /\
   forallb sem_mutacao (rastro excluir_tarefa w1) = true) /\
  (fst (atualizar_tarefa w1) = Retorno tt /\
   servidor (snd (atualizar_tarefa w1)) = servidor w1 /\
   forallb sem_mutacao (rastro atualizar_tarefa w1) = true).
Proof.
  intros Hw Hent Hin Hid.
  destruct (excluir_tarefa_saudavel w idt (idt :: resto) Hw Hent
              (existsb_casa_id idt l _ Hin Hid))
    as (w' & pre & Hrun & Hw' & He & _ & Hs & _).
  rewrite Hrun. cbn [snd]. cbn zeta.
  assert (Hnao : forall r, In r (tabela (servidor w')) ->
                           str_int (col_id r) <> idt).
  { intros r Hr. rewrite Hs in Hr. cbn [tabela] in Hr.
    apply filter_In in Hr as (_ & Hr). apply negb_true_iff in Hr.
    intros E. apply pystr_eqb_eq in E. cbn in Hr. congruence. }
  pose proof (saudavel_pronto w' Hw') as Hpr.
  split.
  - rewrite excluir_tarefa_forma.
    destruct (seleciona_tarefa_id_inexistente
                [lit "Não é possível excluir tarefa. Conexão com o banco de dados não está ativa."]
                [lit "Nenhuma tarefa cadastrada para excluir."]
                [lit "Digite a ID para excluir uma tarefa: "]
                (fun id_tarefa =>
                   self_bd (executar_comando SQL_DELETE [VStr id_tarefa]) ;;
                   logging INFO [lit "Tarefa excluída com sucesso!"])
                w' idt resto Hpr He Hnao) as (H1 & H2 & H3 & _).
    auto.
  - rewrite atualizar_tarefa_forma.
    destruct (seleciona_tarefa_id_inexistente
                [lit "Não é possível atualizar tarefa. Conexão com o banco de dados não está ativa."]
                [lit "Nenhuma tarefa cadastrada para atualizar."]
                [lit "Digite o ID da tarefa que deseja atualizar: "]
                atualizar_encontrada
                w' idt resto Hpr He Hnao) as (H1 & H2 & H3 & _).
    auto.
Qed.

Lemma exclusao_repetida_nao_encontra_witness :
  let w := mundo_vivo [tarefa_1 (Some (txt "Pendente")) None]
                      [txt "1"; txt "1"] in
  let w1 := snd (excluir_tarefa w) in
  (fst (excluir_tarefa w1) = Retorno tt /\
   servidor (snd (excluir_tarefa w1)) = servidor w1 /\
   forallb sem_mutacao (rastro excluir_tarefa w1) = true) /\
  (fst (atualizar_tarefa w1) = Retorno tt /\
   servidor (snd (atualizar_tarefa w1)) = servidor w1 /\
   forallb sem_mutacao (rastro atualizar_tarefa w1) = true).
Proof.
  apply (exclusao_repetida_nao_encontra
           (mundo_vivo [tarefa_1 (Some (txt "Pendente")) None]
                       [txt "1"; txt "1"])
           (txt "1") [] (tarefa_1 (Some (txt "Pendente")) None)).
  - unfold saudavel. cbn. repeat split. constructor.
  - reflexivity.
  - left. reflexivity.
  - reflexivity.
Defined.

Lemma resposta_ou_atual (novo : pystr) (atual : option pystr)
    (x : option pystr) :
  para_texto (ou_atual novo (de_texto atual)) = Some x ->
  x = resposta novo atual.
Proof. destruct novo, atual; cbn; congruence. Qed.

Lemma conclusao_escrita_regra (s2 : pystr) (l : linha) (agora : datetime)
    (x : option datetime) :
  para_data (regra_spec s2 (col_status l) (col_data_conclusao l) agora)
  = Some x ->
  x = conclusao_escrita s2 l agora.
Proof.
  unfold regra_spec, conclusao_escrita.
  destruct (eh_concluida s2 && negb (status_concluido (col_status l)));
    [cbn; congruence|].
  destruct (negb (eh_concluida s2) && status_concluido (col_status l));
    [cbn; congruence|].
  destruct (col_data_conclusao l); cbn; congruence.
Qed.

(** An update on a gateway in working order, with a stored id, the four
    answers on the console and a status that is not left null. *)
Lemma atualizar_tarefa_escreve (w : Mundo) (idt a b c st : pystr)
    (resto : list pystr) (l : linha) (s2 : pystr) :
  saudavel w ->
  entrada w = idt :: a :: b :: c :: st :: resto ->
  find (casa_id (VStr idt)) (tabela (servidor w)) = Some l ->
  resposta st (col_status l) = Some s2 ->
  exists w' pre mid,
    atualizar_tarefa w = (Retorno tt, w') /\ entrada w' = resto /\
    tabela (servidor w') =
      map (fun r =>
             if casa_id (VStr idt) r
             then reescreve (titulo_respondido a (col_titulo l))
                            (resposta b (col_descricao l))
                            (resposta c (col_responsavel l))
                            (Some s2)
                            (conclusao_escrita s2 l (relogio w)) r
             else r)
          (tabela (servidor w)) /\
    prox_id (servidor w') = prox_id (servidor w) /\
    eventos w' =
      eventos w ++ pre ++
      Executar SQL_UPDATE
        [VStr (titulo_respondido a (col_titulo l));
         de_texto (resposta b (col_descricao l));
         de_texto (resposta c (col_responsavel l));
         VStr s2; de_data (conclusao_escrita s2 l (relogio w)); VStr idt]
      :: mid ++ [msg_atualizada] /\
    forallb sem_mutacao pre = true /\
    forallb (interno SQL_UPDATE) mid = true.
Proof.
  intros Hw Hent Hfind Hst.
  destruct (atualizar_tarefa w) as [r w'] eqn:Hrun.
  destruct (atualizar_tarefa_saudavel w idt a b c st resto l r w'
              Hw Hent Hfind Hrun)
    as [(-> & Hnul & _)
       |(s2' & pre & mid & Hou & -> & He & Hev & Fp & Fm & x & Hsem)].
  - rewrite Hnul in Hst. discriminate.
  - assert (s2' = s2) as ->.
    { destruct st, (col_status l); cbn in Hou, Hst; congruence. }
    apply sem_sql_update_inv in Hsem
      as (t' & d' & r' & st' & dco' & E1 & E2 & E3 & E4 & E5 & Htab & Hpx).
    apply resposta_ou_atual in E2, E3. cbn in E4. injection E4 as <-.
    apply conclusao_escrita_regra in E5.
    assert (t' = titulo_respondido a (col_titulo l)) as ->.
    { destruct a; cbn in E1 |- *; congruence. }
    subst d' r' dco'.
    exists w', pre, mid. split; [reflexivity|]. split; [exact He|].
    split; [exact Htab|]. split; [exact Hpx|].
    split; [|split; assumption].
    rewrite Hev. do 3 f_equal.
    unfold regra_spec, conclusao_escrita.
    destruct a, b, c, (col_descricao l), (col_responsavel l),
      (eh_concluida s2 && negb (status_concluido (col_status l))),
      (negb (eh_concluida s2) && status_concluido (col_status l));
      reflexivity.
Qed.

Lemma conclusao_gravada_escrita (s2 : pystr) (l : linha) (agora : datetime) :
  conclusao_gravada s2 l (conclusao_escrita s2 l agora).
Proof.
  unfold conclusao_gravada, conclusao_escrita.
  destruct (eh_concluida s2 && negb (status_concluido (col_status l)));
    [discriminate|].
  destruct (negb (eh_concluida s2) && status_concluido (col_status l));
    reflexivity.
Qed.

(** X8.  An update on a gateway in working order, for a stored id,
    writes into the rows of that id exactly the answers of the
    operator: each of title, description, owner and status that was
    left blank keeps the value of the first stored row of that id, each
    one that was typed replaces it, and the completion timestamp is
    some timestamp when the status becomes [Concluída], none when it
    stops being so, and the stored one otherwise; rows of another id,
    and the next id of the table, stay as they are.  (The status must
    not end up null: typed, or stored.) *)
Theorem atualizacao_escreve_as_respostas (w : Mundo) (idt a b c st : pystr)
    (resto : list pystr) (l : linha) (s2 : pystr) :
  saudavel w ->
  entrada w = idt :: a :: b :: c :: st :: resto ->
  find (casa_id (VStr idt)) (tabela (servidor w)) = Some l ->
  resposta st (col_status l) = Some s2 ->
  fst (atualizar_tarefa w) = Retorno tt /\
  entrada (snd (atualizar_tarefa w)) = resto /\
  (exists dc,
     conclusao_gravada s2 l dc /\
     tabela (servidor (snd (atualizar_tarefa w))) =
       map (fun r =>
              if PyStr.eqb (str_int (col_id r)) idt
              then {| col_id := col_id r;
                      col_titulo := titulo_respondido a (col_titulo l);
                      col_descricao := resposta b (col_descricao l);
                      col_responsavel := resposta c (col_responsavel l);
                      col_status := Some s2;
                      col_data_criacao := col_data_criacao r;
                      col_data_conclusao := dc |}
              else r)
           (tabela (servidor w))) /\
  prox_id (servidor (snd (atualizar_tarefa w))) = prox_id (servidor w).
Proof.
  intros Hw Hent Hfind Hst.
  destruct (atualizar_tarefa_escreve w idt a b c st resto l s2
              Hw Hent Hfind Hst)
    as (w' & pre & mid & -> & He & Htab & Hpx & _).
  cbn [fst snd]. split; [reflexivity|]. split; [exact He|].
  split; [|exact Hpx].
  exists (conclusao_escrita s2 l (relogio w)).
  split; [apply conclusao_gravada_escrita|exact Htab].
Qed.

Lemma atualizacao_escreve_as_respostas_witness :
  let w := mundo_em_andamento in
  let l := tarefa_1 (Some (txt "Pendente")) None in
  fst (atualizar_tarefa w) = Retorno tt /\
  entrada (snd (atualizar_tarefa w)) = [] /\
  (exists dc,
     conclusao_gravada (txt "Em Andamento") l dc /\
     tabela (servidor (snd (atualizar_tarefa w))) =
       map (fun r =>
              if PyStr.eqb (str_int (col_id r)) (txt "1")
              then {| col_id := col_id r;
                      col_titulo := titulo_respondido [] (col_titulo l);
                      col_descricao := resposta [] (col_descricao l);
                      col_responsavel := resposta [] (col_responsavel l);
                      col_status := Some (txt "Em Andamento");
                      col_data_criacao := col_data_criacao r;
                      col_data_conclusao := dc |}
              else r)
           (tabela (servidor w))) /\
  prox_id (servidor (snd (atualizar_tarefa w))) = prox_id (servidor w).
Proof.
  apply (atualizacao_escreve_as_respostas mundo_em_andamento
           (txt "1") [] [] [] (txt "Em Andamento") []
           (tarefa_1 (Some (txt "Pendente")) None) (txt "Em Andamento")).
  - unfold saudavel. cbn. repeat split. constructor.
  - reflexivity.
  - reflexivity.
  - reflexivity.
Defined.

(** X9.  An update with all four answers left blank, for an id that one
    stored row has and whose status is not null, still sends the update
    statement once, bound to the stored values, and leaves the table
    exactly as it was. *)
Theorem atualizacao_toda_em_branco (w : Mundo) (idt : pystr)
    (resto : list pystr) (l : linha) (s1 : pystr) :
  saudavel w ->
  entrada w = idt :: [] :: [] :: [] :: [] :: resto ->
  In l (tabela (servidor w)) -> str_int (col_id l) = idt ->
  (forall r, In r (tabela (servidor w)) -> str_int (col_id r) = idt ->
             r = l) ->
  col_status l = Some s1 ->
  fst (atualizar_tarefa w) = Retorno tt /\
  servidor (snd (atualizar_tarefa w)) = servidor w /\
  filter chamada_mutante (rastro atualizar_tarefa w) =
    [Executar SQL_UPDATE
       [VStr (col_titulo l); de_texto (col_descricao l);
        de_texto (col_responsavel l); VStr s1;
        de_data (col_data_conclusao l); VStr idt]].
Proof.
  intros Hw Hent Hin Hid Hun Hst.
  assert (Hfind : find (casa_id (VStr idt)) (tabela (servidor w)) = Some l).
  { destruct (find (casa_id (VStr idt)) (tabela (servidor w))) as [r|] eqn:Hf.
    - apply find_some in Hf as (Hr & Hc). cbn in Hc.
      apply pystr_eqb_eq in Hc. now rewrite (Hun r Hr Hc).
    - exfalso. apply (find_none _ _ Hf) in Hin. cbn in Hin.
      apply pystr_eqb_eq in Hid. congruence. }
  assert (Hres : resposta [] (col_status l) = Some s1) by exact Hst.
  destruct (atualizar_tarefa_escreve w idt [] [] [] [] resto l s1
              Hw Hent Hfind Hres)
    as (w' & pre & mid & Hrun & He & Htab & Hpx & Hev & Fp & Fm).
  assert (Hce : conclusao_escrita s1 l (relogio w) = col_data_conclusao l).
  { unfold conclusao_escrita. rewrite Hst. cbn.
    destruct (eh_concluida s1); reflexivity. }
  rewrite Hce in *. cbn [titulo_respondido resposta] in *.
  rewrite Hrun. cbn [fst snd]. split; [reflexivity|]. split.
  - destruct (servidor w') as [tab' px'], (servidor w) as [tab px].
    cbn in *. subst px'. f_equal. rewrite Htab.
    rewrite <- (map_id tab) at 2. apply map_ext_in. intros r Hr.
    destruct (PyStr.eqb (str_int (col_id r)) idt) eqn:Hc; [|reflexivity].
    apply pystr_eqb_eq in Hc. rewrite (Hun r Hr Hc).
    destruct l. cbn in *. subst. reflexivity.
  - erewrite rastro_app; [|rewrite Hrun; exact Hev].
    now apply filter_uma_chamada.
Qed.

Lemma atualizacao_toda_em_branco_witness :
  let l := tarefa_1 (Some (txt "Pendente")) None in
  let w := mundo_vivo [l] [txt "1"; []; []; []; []] in
  fst (atualizar_tarefa w) = Retorno tt /\
  servidor (snd (atualizar_tarefa w)) = servidor w /\
  filter chamada_mutante (rastro atualizar_tarefa w) =
    [Executar SQL_UPDATE
       [VStr (col_titulo l); de_texto (col_descricao l);
        de_texto (col_responsavel l); VStr (txt "Pendente");
        de_data (col_data_conclusao l); VStr (txt "1")]].
Proof.
  apply (atualizacao_toda_em_branco
           (mundo_vivo [tarefa_1 (Some (txt "Pendente")) None]
                       [txt "1"; []; []; []; []])
           (txt "1") [] (tarefa_1 (Some (txt "Pendente")) None)
           (txt "Pendente")).
  - unfold saudavel. cbn. repeat split. constructor.
  - reflexivity.
  - left. reflexivity.
  - reflexivity.
  - intros r [<-|[]] _. reflexivity.
  - reflexivity.
Defined.

(* ================================================================== *)
(** ** Further properties: the constructor and the shutdown *)

(** [criar_tabela] on a live connection with a cursor. *)
Lemma criar_tabela_casos (w : Mundo) :
  conexao_ativa (banco w) = true -> tem_cursor (banco w) = true ->
  exists w',
    criar_tabela w = (Retorno tt, w') /\
    servidor w' = servidor w /\ bd w' = bd w /\ entrada w' = entrada w /\
    (cursor (banco w) = Some {| fechado := false; pendente := None |} ->
     banco w' = banco w) /\
    (exists meio,
       eventos w' = eventos w ++ CursorExecute SQL_CREATE_TABLE [] :: meio) /\
    (forall e fs,
       falhas w = Some e :: fs ->
       eventos w' =
         eventos w ++ [CursorExecute SQL_CREATE_TABLE [];
                       registro_criar_tabela e]) /\
    (forall e fs,
       falhas w = None :: Some e :: fs -> cursor_aberto (banco w) = true ->
       eventos w' =
         eventos w ++ [CursorExecute SQL_CREATE_TABLE []; ConexaoCommit;
                       registro_criar_tabela e]) /\
    (cursor_aberto (banco w) = true -> Forall (eq None) (falhas w) ->
     eventos w' =
       eventos w ++ [CursorExecute SQL_CREATE_TABLE []; ConexaoCommit;
                     Log INFO [lit "Tabela criada ou já existente."]]).
Proof.
  destruct w as [[[[[|]]|] [[[|] pe]|]] r s ent rel fs evs];
    try discriminate; intros _ _;
    destruct fs as [|[e1|] [|[e2|] fs]];
    unfold criar_tabela, registro_criar_tabela; desdobra; unfold sem_sql; cbn;
    try destruct (errno e1 =? 1050) eqn:H1;
    try destruct (errno e2 =? 1050) eqn:H2;
    cbn; rewrite <- ?app_assoc; cbn;
    eexists; (split; [reflexivity|]); cbn;
    do 3 (split; [reflexivity|]);
    (split; [intros H; first [reflexivity | discriminate H
                             | injection H as ->; reflexivity]|]);
    (split; [eexists; reflexivity|]);
    (split; [intros e fs' H; try discriminate H; injection H as <- _;
             rewrite ?H1; reflexivity|]);
    (split; [intros e fs' H Hc; try discriminate H; try discriminate Hc;
             injection H as <- _; rewrite ?H2; reflexivity|]);
    cbn; intros Hc Hf; try discriminate Hc;
    sem_erro; reflexivity.
Qed.

(** X10.  [criar_tabela] has three ways to go.  Without a live
    connection it only logs a warning.  On a live connection with a
    cursor it never raises and changes no row: an error of the backend
    is logged, and not propagated, at info level when its number is
    1050 (the table exists) and at error level otherwise; and when
    nothing fails the statement is sent, committed and reported at info
    level.  On a live connection without a cursor the attribute lookup
    raises [AttributeError], which the method does not catch. *)
Theorem criar_tabela_trata_erros (w : Mundo) :
  (conexao_ativa (banco w) = false ->
   criar_tabela w =
     logging WARNING
       [lit "Não há conexão ativa com o banco de dados para criar a tabela!"]
       w) /\
  (conexao_ativa (banco w) = true -> tem_cursor (banco w) = true ->
   fst (criar_tabela w) = Retorno tt /\
   servidor (snd (criar_tabela w)) = servidor w /\
   (forall e fs,
      falhas w = Some e :: fs ->
      rastro criar_tabela w =
        [CursorExecute SQL_CREATE_TABLE [];
         if errno e =? 1050
         then Log INFO [lit "Tabela 'tarefas' já existe. ("; FmtErro e;
                        lit ")"]
         else Log ERROR [lit "Erro ao criar a tabela: "; FmtErro e]]) /\
   (forall e fs,
      falhas w = None :: Some e :: fs -> cursor_aberto (banco w) = true ->
      rastro criar_tabela w =
        [CursorExecute SQL_CREATE_TABLE []; ConexaoCommit;
         if errno e =? 1050
         then Log INFO [lit "Tabela 'tarefas' já existe. ("; FmtErro e;
                        lit ")"]
         else Log ERROR [lit "Erro ao criar a tabela: "; FmtErro e]]) /\
   (cursor_aberto (banco w) = true -> Forall (eq None) (falhas w) ->
    rastro criar_tabela w =
      [CursorExecute SQL_CREATE_TABLE []; ConexaoCommit;
       Log INFO [lit "Tabela criada ou já existente."]])) /\
  (conexao_ativa (banco w) = true -> tem_cursor (banco w) = false ->
   criar_tabela w = (Levanta AttributeError, w)).
Proof.
  split; [|split].
  - intros H. unfold criar_tabela, bind, get. now rewrite H.
  - intros Ha Hc.
    destruct (criar_tabela_casos w Ha Hc)
      as (w' & Hrun & Hs & _ & _ & _ & _ & H1 & H2 & H3).
    rewrite Hrun. cbn [fst snd]. split; [reflexivity|]. split; [exact Hs|].
    split; [|split].
    + intros e fs Hf. apply rastro_app. rewrite Hrun. exact (H1 e fs Hf).
    + intros e fs Hf Hca. apply rastro_app. rewrite Hrun.
      exact (H2 e fs Hf Hca).
    + intros Hca Hf. apply rastro_app. rewrite Hrun. exact (H3 Hca Hf).
  - intros Ha Hc. unfold criar_tabela, bind, get. rewrite Ha. cbn [negb].
    unfold try_except_Error, cursor_execute, bind, get, raise.
    unfold tem_cursor in Hc. destruct (cursor (banco w)); [discriminate|].
    reflexivity.
Qed.

Lemma criar_tabela_trata_erros_witness :
  let w := ambiente banco_vivo [] instante_2 [Some {| errno := 1050 |}]
             (mundo_vivo [] []) in
  fst (criar_tabela w) = Retorno tt /\
  servidor (snd (criar_tabela w)) = servidor w /\
  rastro criar_tabela w =
    [CursorExecute SQL_CREATE_TABLE [];
     Log INFO [lit "Tabela 'tarefas' já existe. (";
               FmtErro {| errno := 1050 |}; lit ")"]].
Proof.
  destruct (criar_tabela_trata_erros
              (ambiente banco_vivo [] instante_2 [Some {| errno := 1050 |}]
                 (mundo_vivo [] []))) as (_ & H & _).
  destruct (H eq_refl eq_refl) as (H1 & H2 & H3 & _).
  split; [exact H1|]. split; [exact H2|].
  exact (H3 {| errno := 1050 |} [] eq_refl).
Defined.

(** The constructor over a connection that is connected. *)
Lemma construtor_conectado (w : Mundo) :
  exists w',
    GerenciadorTarefas_init (ConnectObjeto true) w = (Retorno tt, w') /\
    servidor w' = servidor w /\ entrada w' = entrada w /\
    bd w' = true /\ banco w' = banco_vivo /\
    (exists meio,
       eventos w' =
         eventos w ++
         Log INFO [lit "Conexão com o MariaDB estabelecida com sucesso!"]
         :: CursorExecute SQL_CREATE_TABLE [] :: meio) /\
    (Forall (eq None) (falhas w) ->
     eventos w' =
       eventos w ++
       [Log INFO [lit "Conexão com o MariaDB estabelecida com sucesso!"];
        CursorExecute SQL_CREATE_TABLE []; ConexaoCommit;
        Log INFO [lit "Tabela criada ou já existente."]]).
Proof.
  unfold GerenciadorTarefas_init, BancoDeDados_init, _conectar,
    is_bd_ready, set_bd, set_banco, set_cursor, set_conexao, logging,
    emite, bind, get, ret. cbn.
  match goal with |- context [criar_tabela ?w0] =>
    destruct (criar_tabela_casos w0 eq_refl eq_refl)
      as (w' & Hx & Hs & Hb & He & Hbanco & (meio & Hm) & _ & _ & Hok)
  end.
  cbn in Hs, Hb, He, Hbanco, Hm, Hok. specialize (Hbanco eq_refl).
  rewrite Hx. cbn. rewrite Hbanco. cbn.
  eexists. split; [reflexivity|]. cbn.
  split; [exact Hs|]. split; [exact He|]. split; [reflexivity|].
  split; [reflexivity|]. split.
  - exists meio. rewrite Hm, <- app_assoc. reflexivity.
  - intros Hf. rewrite (Hok eq_refl Hf), <- ?app_assoc. reflexivity.
Qed.

(** The constructor when [connect] raises, or hands back a connection
    that is not connected. *)
Lemma construtor_sem_gateway (r : connect_resultado) (w : Mundo) :
  r <> ConnectObjeto true ->
  GerenciadorTarefas_init r w =
  (Retorno tt,
   {| banco := match r with
               | ConnectErro _ => {| conexao := None; cursor := None |}
               | ConnectObjeto _ =>
                   {| conexao := Some {| conectada := false |};
                      cursor := None |}
               end;
      bd := false; servidor := servidor w; entrada := entrada w;
      relogio := relogio w; falhas := falhas w;
      eventos := eventos w ++
        [match r with
         | ConnectErro e =>
             Log ERROR [lit "Erro ao conectar ao MariaDB: "; FmtErro e]
         | ConnectObjeto _ =>
             Log WARNING [lit "Não foi possível conectar ao MariaDB!"]
         end;
         Log CRITICAL
           [lit "Não foi possível inicializar o gerenciador de tarefas devido a um problema de conexão com o banco de dados!"]] |}).
Proof.
  intros Hr. destruct r as [e|[|]]; [|congruence|];
    unfold GerenciadorTarefas_init, BancoDeDados_init, _conectar, is_bd_ready,
      set_bd, set_banco, set_cursor, set_conexao, logging, emite, bind, get,
      ret; cbn; rewrite <- app_assoc; reflexivity.
Qed.

(** X11.  The constructors never raise and never touch a row or the
    console.  When [connect] raises, the gateway logs the error and
    keeps neither connection nor cursor; when it hands back a
    connection that is not connected, the gateway logs a warning and
    has no cursor; in both cases the manager logs a critical record and
    drops its gateway.  When the connection is connected, the manager
    keeps the gateway, with an open cursor, and is ready, whether or
    not creating the table failed. *)
Theorem construtor_desfechos (r : connect_resultado) (w : Mundo) :
  fst (GerenciadorTarefas_init r w) = Retorno tt /\
  servidor (snd (GerenciadorTarefas_init r w)) = servidor w /\
  entrada (snd (GerenciadorTarefas_init r w)) = entrada w /\
  match r with
  | ConnectErro e =>
      bd (snd (GerenciadorTarefas_init r w)) = false /\
      banco (snd (GerenciadorTarefas_init r w))
      = {| conexao := None; cursor := None |} /\
      rastro (GerenciadorTarefas_init r) w =
        [Log ERROR [lit "Erro ao conectar ao MariaDB: "; FmtErro e];
         Log CRITICAL
           [lit "Não foi possível inicializar o gerenciador de tarefas devido a um problema de conexão com o banco de dados!"]]
  | ConnectObjeto false =>
      bd (snd (GerenciadorTarefas_init r w)) = false /\
      banco (snd (GerenciadorTarefas_init r w))
      = {| conexao := Some {| conectada := false |}; cursor := None |} /\
      rastro (GerenciadorTarefas_init r) w =
        [Log WARNING [lit "Não foi possível conectar ao MariaDB!"];
         Log CRITICAL
           [lit "Não foi possível inicializar o gerenciador de tarefas devido a um problema de conexão com o banco de dados!"]]
  | ConnectObjeto true =>
      bd (snd (GerenciadorTarefas_init r w)) = true /\
      banco (snd (GerenciadorTarefas_init r w)) = banco_vivo /\
      pronto (snd (GerenciadorTarefas_init r w)) = true /\
      (exists meio,
         rastro (GerenciadorTarefas_init r) w =
           Log INFO [lit "Conexão com o MariaDB estabelecida com sucesso!"]
           :: CursorExecute SQL_CREATE_TABLE [] :: meio) /\
      (Forall (eq None) (falhas w) ->
       rastro (GerenciadorTarefas_init r) w =
         [Log INFO [lit "Conexão com o MariaDB estabelecida com sucesso!"];
          CursorExecute SQL_CREATE_TABLE []; ConexaoCommit;
          Log INFO [lit "Tabela criada ou já existente."]])
  end.
Proof.
  destruct r as [e|[|]].
  - rewrite (construtor_sem_gateway (ConnectErro e) w) by discriminate.
    cbn [fst snd servidor entrada bd banco].
    do 5 (split; [reflexivity|]). apply rastro_app.
    rewrite (construtor_sem_gateway (ConnectErro e) w) by discriminate.
    reflexivity.
  - destruct (construtor_conectado w)
      as (w' & Hrun & Hs & He & Hb & Hba & (meio & Hm) & Hok).
    rewrite Hrun. cbn [fst snd].
    split; [reflexivity|]. split; [exact Hs|]. split; [exact He|].
    split; [exact Hb|]. split; [exact Hba|].
    split; [unfold pronto; rewrite Hb, Hba; reflexivity|]. split.
    + exists meio. apply rastro_app. now rewrite Hrun.
    + intros Hf. apply rastro_app. rewrite Hrun. exact (Hok Hf).
  - rewrite (construtor_sem_gateway (ConnectObjeto false) w) by discriminate.
    cbn [fst snd servidor entrada bd banco].
    do 5 (split; [reflexivity|]). apply rastro_app.
    rewrite (construtor_sem_gateway (ConnectObjeto false) w) by discriminate.
    reflexivity.
Qed.

Lemma operacao_recusada (o : operacao) (w : Mundo) :
  pronto w = false -> o <> Sair ->
  exists m, executa o w = logging ERROR m w.
Proof.
  intros H Ho. destruct o; try congruence; cbn [executa];
    unfold cadastrar_tarefa, exibir_tarefas, atualizar_tarefa, excluir_tarefa,
      is_bd_ready, bind, get, ret;
    fold (pronto w); rewrite H; cbn [negb]; eexists; reflexivity.
Qed.

Lemma fechar_sistema_encerra (w : Mundo) :
  exists w',
    fechar_sistema w = (Retorno tt, w') /\
    pronto w' = false /\ bd w' = bd w /\ servidor w' = servidor w /\
    entrada w' = entrada w /\
    (bd w = true -> conexao_ativa (banco w') = false) /\
    exists antes,
      eventos w' = eventos w ++ antes ++ [Log INFO [lit "Sistema encerrado"]].
Proof.
  destruct w as [[[[[|]]|] [[f pe]|]] [|] s ent rel fs evs];
    unfold fechar_sistema, pronto; desdobra; cbn;
    eexists; (split; [reflexivity|]); cbn; do 4 (split; [reflexivity|]);
    (split; [intros H; first [reflexivity|discriminate H]|]);
    first
      [ exists []; cbn; rewrite <- ?app_assoc; reflexivity
      | exists [Log INFO [lit "Nenhuma conexão ativa para fechar."]];
        cbn; rewrite <- ?app_assoc; reflexivity
      | exists [ConexaoClose;
                Log INFO [lit "Conexão com o banco de dados fechada."]];
        cbn; rewrite <- ?app_assoc; reflexivity
      | exists [CursorClose; ConexaoClose;
                Log INFO [lit "Conexão com o banco de dados fechada."]];
        cbn; rewrite <- ?app_assoc; reflexivity ].
Qed.

(** X12.  After [fechar_sistema], whatever the state before, the
    manager is not ready; so create, list, update and delete that
    follow each log one error and do nothing else: no prompt, no call
    of the gateway, no change of any row. *)
Theorem depois_de_encerrar_nada_opera (w : Mundo) (o : operacao) :
  o <> Sair ->
  let w1 := snd (fechar_sistema w) in
  pronto w1 = false /\
  exists m, executa o w1 = (Retorno tt, com_eventos [Log ERROR m] w1).
Proof.
  intros Ho. cbn zeta.
  destruct (fechar_sistema_encerra w) as (w' & -> & Hp & _).
  cbn [snd]. split; [exact Hp|].
  destruct (operacao_recusada o w' Hp Ho) as (m & ->).
  exists m. reflexivity.
Qed.

Lemma depois_de_encerrar_nada_opera_witness :
  let w1 := snd (fechar_sistema
                   (mundo_vivo [tarefa_1 (Some (txt "Pendente")) None]
                               [txt "1"])) in
  pronto w1 = false /\
  exists m, executa Excluir w1 = (Retorno tt, com_eventos [Log ERROR m] w1).
Proof.
  apply (depois_de_encerrar_nada_opera
           (mundo_vivo [tarefa_1 (Some (txt "Pendente")) None] [txt "1"])
           Excluir).
  discriminate.
Defined.

(* ================================================================== *)
(** ** Further properties: the menu loop *)

Lemma avanca_refl (w : Mundo) : avanca w w.
Proof.
  split; [reflexivity|]. split; [apply Nat.le_refl|].
  exists []. now rewrite app_nil_r.
Qed.

Lemma avanca_trans (a b c : Mundo) : avanca a b -> avanca b c -> avanca a c.
Proof.
  intros (B1 & L1 & n1 & E1) (B2 & L2 & n2 & E2).
  split; [congruence|]. split; [eapply Nat.le_trans; eassumption|].
  exists (n1 ++ n2). now rewrite E2, E1, app_assoc.
Qed.

Lemma avanca_emite (e : evento) : respeita avanca (emite e).
Proof.
  intros w. split; [reflexivity|]. split; [apply Nat.le_refl|].
  now exists [e].
Qed.

Lemma avanca_input (p : mensagem) : respeita avanca (input p).
Proof.
  intros w. unfold input, bind, emite, get, set_entrada, raise, ret. cbn.
  destruct (entrada w) as [|x resto] eqn:He; unfold avanca; cbn;
    rewrite He; (split; [reflexivity|]); (split; [cbn; lia|]);
    now exists [Prompt p].
Qed.

Lemma avanca_mesmo_console (w w' : Mundo) (novos : list evento) :
  mesmo_console w w' -> eventos w' = eventos w ++ novos -> avanca w w'.
Proof.
  intros (Hb & He & _) Hev. split; [exact Hb|]. split; [now rewrite He|].
  now exists novos.
Qed.

Lemma avanca_executar_comando (c : sql) (ps : tupla) :
  respeita avanca (executar_comando c ps).
Proof.
  intros w.
  destruct (executar_comando_spec c ps w) as (w' & -> & Hc & _ & (n & Hn & _) & _).
  exact (avanca_mesmo_console _ _ _ Hc Hn).
Qed.

Lemma avanca_buscar_dados (c : sql) (ps : tupla) :
  respeita avanca (buscar_dados c ps).
Proof.
  intros w.
  destruct (buscar_dados_spec c ps w)
    as (rows & w' & -> & Hc & _ & (n & Hn & _) & _).
  exact (avanca_mesmo_console _ _ _ Hc Hn).
Qed.

Lemma avanca_exibir_tarefas : respeita avanca exibir_tarefas.
Proof.
  intros w.
  destruct (exibir_tarefas_spec w) as (w' & -> & Hc & _ & (n & Hn & _) & _).
  exact (avanca_mesmo_console _ _ _ Hc Hn).
Qed.

Lemma avanca_fechar_sistema : respeita avanca fechar_sistema.
Proof.
  intros w.
  destruct (fechar_sistema_encerra w)
    as (w' & -> & _ & Hb & _ & He & _ & antes & Hev).
  split; [exact Hb|]. split; [cbn; now rewrite He|]. eexists. exact Hev.
Qed.

Ltac respeito_com tac :=
  repeat first
    [ tac
    | apply avanca_emite
    | apply avanca_input
    | apply avanca_executar_comando
    | apply avanca_buscar_dados
    | apply avanca_exibir_tarefas
    | apply avanca_fechar_sistema
    | apply (respeita_ret avanca avanca_refl)
    | apply (respeita_raise avanca avanca_refl)
    | apply (respeita_get avanca avanca_refl)
    | apply (respeita_bind avanca avanca_trans); [|intros ?]
    | match goal with
      | |- respeita _ (if ?b then _ else _) => destruct b
      | |- respeita _ (match ?x with _ => _ end) => destruct x
      end
    | progress cbv zeta ].

Ltac respeito := respeito_com fail.

Lemma avanca_procura_id (ids : list tupla) (idt : pystr) :
  respeita avanca (procura_id ids idt).
Proof.
  induction ids as [|t ids IH].
  - apply (respeita_ret avanca avanca_refl).
  - change (procura_id (t :: ids) idt)
      with (bind (indice t 0)
              (fun v => if PyStr.eqb (py_str v) idt then ret true
                        else procura_id ids idt)).
    unfold indice. respeito. exact IH.
Qed.

Lemma avanca_regra_data_conclusao (a b c : valor) :
  respeita avanca (regra_data_conclusao a b c).
Proof.
  unfold regra_data_conclusao, py_and, py_or, metodo_lower, datetime_now.
  respeito.
Qed.

Ltac respeito_op :=
  respeito_com
    ltac:(first [ apply avanca_procura_id
                | apply avanca_regra_data_conclusao ]).

Lemma avanca_seleciona_tarefa (mi mv p : mensagem) (k : pystr -> M unit) :
  (forall idt, respeita avanca (k idt)) ->
  respeita avanca (seleciona_tarefa mi mv p k).
Proof.
  intros Hk. unfold seleciona_tarefa, is_bd_ready, self_bd, logging.
  respeito_com
    ltac:(first [ apply avanca_procura_id | apply Hk ]).
Qed.

Lemma avanca_excluir_tarefa : respeita avanca excluir_tarefa.
Proof.
  rewrite excluir_tarefa_forma. apply avanca_seleciona_tarefa.
  intros idt. unfold self_bd, logging. respeito.
Qed.

Lemma avanca_atualizar_tarefa : respeita avanca atualizar_tarefa.
Proof.
  rewrite atualizar_tarefa_forma. apply avanca_seleciona_tarefa.
  intros idt. unfold atualizar_encontrada, self_bd, desempacota5, logging.
  respeito_op.
Qed.

Lemma avanca_laco_titulo (linhas : list pystr) (w : Mundo) :
  (List.length linhas <= List.length (entrada w))%nat ->
  avanca w (snd (laco_titulo linhas w)).
Proof.
  revert w. induction linhas as [|t linhas IH]; intros w Hlen.
  - unfold laco_titulo, bind, emite, raise. cbn.
    split; [reflexivity|]. split; [apply Nat.le_refl|]. eexists; reflexivity.
  - change (laco_titulo (t :: linhas) w)
      with (bind (emite (Prompt [lit "Título da tarefa: "]))
              (fun _ =>
                 bind (set_entrada linhas)
                   (fun _ =>
                      if (12 <=? List.length t)%nat then ret t
                      else
                        bind (logging WARNING
                                [lit "Título da tarefa deve ser maior que 12 caracteres."])
                             (fun _ => laco_titulo linhas))) w).
    unfold bind, emite, set_entrada, logging, ret. cbn -[Nat.leb].
    cbn in Hlen.
    destruct (12 <=? List.length t)%nat; cbn.
    + unfold avanca. cbn.
      split; [reflexivity|]. split; [lia|]. eexists; reflexivity.
    + match goal with |- avanca _ (snd (laco_titulo linhas ?w0)) =>
        pose proof (IH w0 (Nat.le_refl _)) as (Hb & Hl & n & Hn)
      end.
      cbn in Hb, Hl, Hn. unfold avanca. split; [exact Hb|]. split; [lia|].
      eexists. rewrite Hn, <- !app_assoc. reflexivity.
Qed.

Lemma avanca_bind_de {A B} (m : M A) (f : A -> M B) (w : Mundo) :
  avanca w (snd (m w)) -> (forall a, respeita avanca (f a)) ->
  avanca w (snd (bind m f w)).
Proof.
  intros Hm Hf. unfold bind.
  destruct (m w) as [[a|e] w1]; cbn [snd] in *; [|exact Hm].
  eapply avanca_trans; [exact Hm|apply Hf].
Qed.

Lemma avanca_cadastrar_tarefa : respeita avanca cadastrar_tarefa.
Proof.
  unfold cadastrar_tarefa, is_bd_ready.
  apply (respeita_bind avanca avanca_trans); [respeito|].
  intros pronto. destruct (negb pronto); [apply avanca_emite|].
  intros w.
  change (avanca w
    (snd (bind (laco_titulo (entrada w))
       (fun titulo =>
          descricao <- input [lit "Descrição da tarefa: "] ;;
          responsavel <- input [lit "Responsável: "] ;;
          tarefa <- Tarefa.init titulo descricao responsavel ;;
          self_bd (executar_comando SQL_INSERT
                  [VStr (Tarefa.titulo tarefa); VStr (Tarefa.descricao tarefa);
                   VStr (Tarefa.responsavel tarefa);
                   VStr (Tarefa.status tarefa);
                   VData (Tarefa.data_criacao tarefa);
                   Tarefa.data_conclusao tarefa]) ;;
          logging INFO [lit "Tarefa cadastrada com sucesso!"]) w))).
  apply avanca_bind_de.
  - apply avanca_laco_titulo, Nat.le_refl.
  - intros t. unfold Tarefa.init, datetime_now, self_bd, logging. respeito.
Qed.

Lemma avanca_executa (o : operacao) : respeita avanca (executa o).
Proof.
  destruct o; cbn [executa];
    auto using avanca_cadastrar_tarefa, avanca_exibir_tarefas,
      avanca_atualizar_tarefa, avanca_excluir_tarefa, avanca_fechar_sistema.
Qed.

Section Turno.

Variable py_int : pystr -> option Z.
Variable str_excecao : excecao -> pystr.

Lemma imprime_menu_mundo (w : Mundo) :
  imprime_menu w = (Retorno tt, com_eventos menu w).
Proof.
  unfold imprime_menu, print, emite, bind, com_eventos, menu. cbn.
  rewrite <- !app_assoc. reflexivity.
Qed.

(** A turn over a console with a line: the line is read, and the turn
    is what [int], the [match] and the handlers make of it. *)
Lemma turno_linha (w : Mundo) (linha : pystr) (resto : list pystr) :
  entrada w = linha :: resto ->
  turno py_int str_excecao w =
  try_except (arg <- int_linha py_int linha ;; escolhe arg)
             (trata str_excecao) (apos_escolha resto w).
Proof.
  intros He. unfold turno. unfold bind at 1. rewrite imprime_menu_mundo.
  unfold try_except, bind at 1 3, input, bind, emite, get, set_entrada, ret,
    com_eventos, apos_escolha.
  cbn. rewrite He. cbn. rewrite <- !app_assoc. reflexivity.
Qed.

Lemma turno_numero (w : Mundo) (linha : pystr) (resto : list pystr)
    (arg : Z) :
  entrada w = linha :: resto -> py_int linha = Some arg ->
  turno py_int str_excecao w =
  try_except (escolhe arg) (trata str_excecao) (apos_escolha resto w).
Proof.
  intros He Ha. rewrite (turno_linha w linha resto He).
  unfold try_except, bind, int_linha. rewrite Ha. reflexivity.
Qed.

Lemma turno_nao_numero (w : Mundo) (linha : pystr) (resto : list pystr) :
  entrada w = linha :: resto -> py_int linha = None ->
  turno py_int str_excecao w =
  trata str_excecao ValueError (apos_escolha resto w).
Proof.
  intros He Ha. rewrite (turno_linha w linha resto He).
  unfold try_except, bind, int_linha. rewrite Ha. reflexivity.
Qed.

(** A turn over an empty console. *)
Lemma turno_sem_linha (w : Mundo) :
  entrada w = [] ->
  turno py_int str_excecao w =
  trata str_excecao EOFError
    (com_eventos (menu ++ [Prompt [lit "Escolha uma opção: "]]) w).
Proof.
  intros He. unfold turno. unfold bind at 1. rewrite imprime_menu_mundo.
  unfold try_except, bind at 1, input, bind, emite, get, raise, com_eventos.
  cbn. rewrite He. cbn. rewrite <- !app_assoc. reflexivity.
Qed.

Lemma escolhe_casos (arg : Z) :
  (exists o, operacao_de arg = Some o /\
             escolhe arg =
               (executa o ;;
                ret (match o with Sair => true | _ => false end)))
  \/
  (operacao_de arg = None /\
   escolhe arg =
     (logging WARNING [lit "Opção não encontrada! Tente novamente!"] ;;
      ret false)).
Proof.
  destruct arg as [|p|p]; [right; split; reflexivity| |right; split; reflexivity].
  destruct p as [[[p|p|]|[p|p|]|]|[[p|p|]|[p|p|]|]|];
    first [ right; split; reflexivity
          | left; eexists; split; reflexivity ].
Qed.

Lemma encerrou_depois (w w1 w' : Mundo) :
  (exists novos, eventos w1 = eventos w ++ novos) ->
  encerrou w1 w' -> encerrou w w'.
Proof.
  intros (n & Hn) (Hc & a & Ha). split; [exact Hc|].
  exists (n ++ a). now rewrite Ha, Hn, <- !app_assoc.
Qed.

Lemma fechar_sistema_encerrou (w : Mundo) :
  bd w = true ->
  exists w',
    fechar_sistema w = (Retorno tt, w') /\ avanca w w' /\
    servidor w' = servidor w /\ entrada w' = entrada w /\ encerrou w w'.
Proof.
  intros Hbd. pose proof (avanca_fechar_sistema w) as Hav.
  destruct (fechar_sistema_encerra w)
    as (w' & Hrun & _ & _ & Hs & He & Hc & Hev).
  rewrite Hrun in Hav. exists w'. split; [exact Hrun|].
  split; [exact Hav|]. split; [exact Hs|]. split; [exact He|].
  split; [exact (Hc Hbd)|exact Hev].
Qed.

(** The handlers always return; a [ValueError] keeps the loop going,
    anything else ends it after the shutdown. *)
Lemma trata_passo (e : excecao) (w : Mundo) :
  bd w = true ->
  exists b w',
    trata str_excecao e w = (Retorno b, w') /\ avanca w w' /\
    servidor w' = servidor w /\
    (b = false <-> e = ValueError) /\
    (b = true -> encerrou w w').
Proof.
  intros Hbd.
  assert (Hcrit : e <> ValueError ->
    exists w',
      trata str_excecao e w = (Retorno true, w') /\ avanca w w' /\
      servidor w' = servidor w /\ encerrou w w').
  { intros Hne.
    destruct (fechar_sistema_encerrou
                (com_eventos [erro_inesperado str_excecao e] w) Hbd)
      as (w' & Hrun & Hav & Hs & _ & Hen).
    exists w'. split.
    - assert (Hforma : trata str_excecao e w =
                (fechar_sistema ;; ret true)
                  (com_eventos [erro_inesperado str_excecao e] w))
        by (destruct e; try congruence; reflexivity).
      rewrite Hforma. unfold bind. rewrite Hrun. reflexivity.
    - split; [|split; [exact Hs|]].
      + eapply avanca_trans; [|exact Hav].
        apply (avanca_emite (erro_inesperado str_excecao e)).
      + eapply encerrou_depois; [|exact Hen]. eexists; reflexivity. }
  destruct e;
    try (destruct Hcrit as (w' & Hrun & Hav & Hs & Hen); [discriminate|];
         exists true, w'; split; [exact Hrun|]; split; [exact Hav|];
         split; [exact Hs|]; split; [split; discriminate|]; intros _;
         exact Hen).
  exists false. eexists. split; [reflexivity|].
  split; [apply avanca_emite|]. split; [reflexivity|].
  split; [split; reflexivity|discriminate].
Qed.

(** The [match]: it runs the operation of the number, or warns. *)
Lemma escolhe_passo (arg : Z) (w : Mundo) :
  bd w = true ->
  avanca w (snd (escolhe arg w)) /\
  (invariante (servidor w) -> invariante (servidor (snd (escolhe arg w)))) /\
  (fst (escolhe arg w) = Retorno true -> encerrou w (snd (escolhe arg w))).
Proof.
  intros Hbd.
  destruct (escolhe_casos arg) as [(o & _ & ->)|(_ & ->)].
  - unfold bind. pose proof (avanca_executa o w) as Hav.
    pose proof (invariante_operacao o w) as Hinv.
    destruct (executa o w) as [[[]|e] w'] eqn:Hrun; cbn [fst snd ret] in *.
    + split; [exact Hav|]. split; [exact Hinv|].
      destruct o; try discriminate. intros _. cbn [executa] in Hrun.
      destruct (fechar_sistema_encerrou w Hbd) as (w2 & Hrun2 & _ & _ & _ & H).
      rewrite Hrun in Hrun2. injection Hrun2 as <-. exact H.
    + split; [exact Hav|]. split; [exact Hinv|]. discriminate.
  - unfold bind, logging, emite, ret. cbn [fst snd].
    split; [apply (avanca_emite _ w)|]. split; [auto|discriminate].
Qed.

(** One turn always returns, keeps the invariant of the table, and
    either uses up a line of the console or ends with the shutdown. *)
Lemma turno_passo (w : Mundo) :
  bd w = true ->
  exists b w',
    turno py_int str_excecao w = (Retorno b, w') /\ bd w' = true /\
    (invariante (servidor w) -> invariante (servidor w')) /\
    (exists novos, eventos w' = eventos w ++ novos) /\
    (b = false ->
     (List.length (entrada w') < List.length (entrada w))%nat) /\
    (b = true -> encerrou w w').
Proof.
  intros Hbd. destruct (entrada w) as [|linha resto] eqn:He.
  - rewrite (turno_sem_linha w He).
    destruct (trata_passo EOFError
                (com_eventos (menu ++ [Prompt [lit "Escolha uma opção: "]]) w)
                Hbd)
      as (b & w' & -> & (Hb & _ & n & Hn) & Hs & Hf & Ht).
    cbn in Hb, Hs, Hn. exists b, w'. split; [reflexivity|].
    split; [congruence|]. split; [now rewrite Hs|].
    split; [eexists; rewrite Hn, <- app_assoc; reflexivity|]. split.
    + intros ->. destruct Hf as (Hf & _). discriminate (Hf eq_refl).
    + intros Hb1. eapply encerrou_depois; [|exact (Ht Hb1)].
      eexists; reflexivity.
  - rewrite (turno_linha w linha resto He).
    set (w0 := apos_escolha resto w).
    assert (Hbd0 : bd w0 = true) by exact Hbd.
    assert (Hev0 : exists novos, eventos w0 = eventos w ++ novos)
      by (eexists; reflexivity).
    assert (Hfim : forall e w1,
              avanca w0 w1 ->
              (invariante (servidor w) -> invariante (servidor w1)) ->
              exists b w',
                trata str_excecao e w1 = (Retorno b, w') /\ bd w' = true /\
                (invariante (servidor w) -> invariante (servidor w')) /\
                (exists novos, eventos w' = eventos w ++ novos) /\
                (b = false ->
                 (List.length (entrada w') < S (List.length resto))%nat) /\
                (b = true -> encerrou w w')).
    { intros e w1 (Hb1 & Hl1 & n1 & Hn1) Hi1.
      assert (Hbd1 : bd w1 = true) by congruence.
      destruct (trata_passo e w1 Hbd1)
        as (b & w' & Hrun & (Hb & Hl & n & Hn) & Hs & _ & Ht).
      exists b, w'. split; [exact Hrun|]. split; [congruence|].
      split; [now rewrite Hs|].
      assert (Hev1 : exists novos, eventos w1 = eventos w ++ novos).
      { destruct Hev0 as (n0 & Hn0). exists (n0 ++ n1).
        now rewrite Hn1, Hn0, app_assoc. }
      split.
      { destruct Hev1 as (m1 & Hm1). exists (m1 ++ n).
        now rewrite Hn, Hm1, app_assoc. }
      split.
      - intros _. unfold w0 in Hl1. cbn in Hl1. lia.
      - intros Hb'. eapply encerrou_depois; [exact Hev1|exact (Ht Hb')]. }
    unfold try_except, bind at 1, int_linha.
    destruct (py_int linha) as [arg|].
    + unfold ret. pose proof (escolhe_passo arg w0 Hbd0) as (Hav & Hinv & Hen).
      destruct (escolhe arg w0) as [[b|e] w1]; cbn [fst snd] in *.
      * destruct Hav as (Hb1 & Hl1 & n1 & Hn1).
        exists b, w1. split; [reflexivity|]. split; [congruence|].
        split; [exact Hinv|].
        assert (Hev1 : exists novos, eventos w1 = eventos w ++ novos).
        { destruct Hev0 as (n0 & Hn0). exists (n0 ++ n1).
          now rewrite Hn1, Hn0, app_assoc. }
        split; [exact Hev1|]. split.
        -- intros _. unfold w0 in Hl1. cbn in Hl1 |- *. lia.
        -- intros ->. eapply encerrou_depois; [exact Hev0|exact (Hen eq_refl)].
      * exact (Hfim e w1 Hav Hinv).
    + unfold raise. apply Hfim; [apply avanca_refl|auto].
Qed.

(** The loop ends within as many turns as the console has lines, plus
    one. *)
Lemma laco_principal_passo (n : nat) (w : Mundo) :
  bd w = true ->
  (List.length (entrada w) < n)%nat ->
  exists w',
    laco_principal py_int str_excecao n w = (Retorno (Some tt), w') /\
    bd w' = true /\
    (invariante (servidor w) -> invariante (servidor w')) /\
    encerrou w w'.
Proof.
  revert w. induction n as [|n IH]; intros w Hbd Hlen; [lia|].
  cbn [laco_principal]. unfold bind.
  destruct (turno_passo w Hbd)
    as (b & w1 & -> & Hbd1 & Hinv1 & Hev1 & Hf & Ht).
  destruct b.
  - exists w1. split; [reflexivity|]. split; [exact Hbd1|].
    split; [exact Hinv1|exact (Ht eq_refl)].
  - specialize (Hf eq_refl).
    destruct (IH w1 Hbd1 ltac:(lia)) as (w' & Hrun & Hbd' & Hinv' & Hen).
    exists w'. split; [exact Hrun|]. split; [exact Hbd'|].
    split; [auto|]. eapply encerrou_depois; eassumption.
Qed.

End Turno.

Lemma operacao_de_faixa (arg : Z) (o : operacao) :
  operacao_de arg = Some o -> 1 <= arg <= 5.
Proof.
  destruct arg as [|p|p]; try discriminate.
  destruct p as [[[p|p|]|[p|p|]|]|[[p|p|]|[p|p|]|]|]; cbn;
    try discriminate; intros _; lia.
Qed.

Lemma escolhe_operacao (arg : Z) (o : operacao) :
  operacao_de arg = Some o ->
  escolhe arg =
    (executa o ;; ret (match o with Sair => true | _ => false end)).
Proof.
  intros H. destruct (escolhe_casos arg) as [(o' & H' & ->)|(H' & _)].
  - assert (o' = o) as -> by congruence. reflexivity.
  - congruence.
Qed.

Lemma trata_inesperado (str_excecao : excecao -> pystr) (e : excecao)
    (w : Mundo) :
  e <> ValueError ->
  trata str_excecao e w =
  (fechar_sistema ;; ret true) (com_eventos [erro_inesperado str_excecao e] w).
Proof. intros H. destruct e; try congruence; reflexivity. Qed.

Lemma fechar_sistema_depois (w : Mundo) :
  fst (fechar_sistema w) = Retorno tt /\
  servidor (snd (fechar_sistema w)) = servidor w /\
  entrada (snd (fechar_sistema w)) = entrada w /\
  pronto (snd (fechar_sistema w)) = false.
Proof.
  destruct (fechar_sistema_encerra w) as (w' & -> & Hp & _ & Hs & He & _).
  cbn [fst snd]. auto.
Qed.

(** X13.  When the constructor leaves the manager without a gateway
    ([connect] raised, or the connection does not report itself
    connected), [main] logs one more critical record and returns: no
    menu is printed, no line is read from the console, and no row is
    touched. *)
Theorem main_sem_conexao (py_int : pystr -> option Z)
    (str_excecao : excecao -> pystr) (r : connect_resultado) (n : nat)
    (w : Mundo) :
  r <> ConnectObjeto true ->
  fst (main py_int str_excecao r n w) = Retorno (Some tt) /\
  servidor (snd (main py_int str_excecao r n w)) = servidor w /\
  entrada (snd (main py_int str_excecao r n w)) = entrada w /\
  rastro (main py_int str_excecao r n) w =
    [match r with
     | ConnectErro e =>
         Log ERROR [lit "Erro ao conectar ao MariaDB: "; FmtErro e]
     | ConnectObjeto _ =>
         Log WARNING [lit "Não foi possível conectar ao MariaDB!"]
     end;
     Log CRITICAL
       [lit "Não foi possível inicializar o gerenciador de tarefas devido a um problema de conexão com o banco de dados!"];
     Log CRITICAL
       [lit "Encerrando o programa devido a falha na conexão com o Banco de dados!"]].
Proof.
  intros Hr.
  assert (Hrun : exists w',
            main py_int str_excecao r n w = (Retorno (Some tt), w') /\
            servidor w' = servidor w /\ entrada w' = entrada w /\
            eventos w' = eventos w ++
              [match r with
               | ConnectErro e =>
                   Log ERROR [lit "Erro ao conectar ao MariaDB: "; FmtErro e]
               | ConnectObjeto _ =>
                   Log WARNING [lit "Não foi possível conectar ao MariaDB!"]
               end;
               Log CRITICAL
                 [lit "Não foi possível inicializar o gerenciador de tarefas devido a um problema de conexão com o banco de dados!"];
               Log CRITICAL
                 [lit "Encerrando o programa devido a falha na conexão com o Banco de dados!"]]).
  { unfold main. unfold bind at 1.
    rewrite (construtor_sem_gateway r w Hr).
    unfold is_bd_ready, logging, emite, bind, get, ret. cbn.
    eexists. split; [reflexivity|]. cbn. rewrite <- app_assoc.
    repeat split. }
  destruct Hrun as (w' & Hrun & Hs & He & Hev). rewrite Hrun. cbn [fst snd].
  split; [reflexivity|]. split; [exact Hs|]. split; [exact He|].
  apply rastro_app. now rewrite Hrun.
Qed.

Lemma main_sem_conexao_witness :
  let r := ConnectErro {| errno := 2003 |} in
  let w := mundo_vivo [] [txt "1"] in
  fst (main leitura_amostra str_excecao_amostra r 0 w) = Retorno (Some tt) /\
  servidor (snd (main leitura_amostra str_excecao_amostra r 0 w)) = servidor w /\
  entrada (snd (main leitura_amostra str_excecao_amostra r 0 w)) = entrada w /\
  rastro (main leitura_amostra str_excecao_amostra r 0) w =
    [Log ERROR [lit "Erro ao conectar ao MariaDB: ";
                FmtErro {| errno := 2003 |}];
     Log CRITICAL
       [lit "Não foi possível inicializar o gerenciador de tarefas devido a um problema de conexão com o banco de dados!"];
     Log CRITICAL
       [lit "Encerrando o programa devido a falha na conexão com o Banco de dados!"]].
Proof.
  apply (main_sem_conexao leitura_amostra str_excecao_amostra
           (ConnectErro {| errno := 2003 |}) 0 (mundo_vivo [] [txt "1"])).
  discriminate.
Defined.

(** X14.  A line at the menu that [int] rejects costs one error record,
    and an integer outside 1 to 5 one warning; in both cases the turn
    takes that one line from the console, calls no operation, changes
    nothing else and does not leave the loop. *)
Theorem turno_escolha_invalida (py_int : pystr -> option Z)
    (str_excecao : excecao -> pystr) (w : Mundo) (linha : pystr)
    (resto : list pystr) :
  entrada w = linha :: resto ->
  match py_int linha with
  | Some arg => arg < 1 \/ 5 < arg
  | None => True
  end ->
  turno py_int str_excecao w =
  (Retorno false,
   com_eventos
     [match py_int linha with
      | Some _ =>
          Log WARNING [lit "Opção não encontrada! Tente novamente!"]
      | None =>
          Log ERROR
            [lit "Entrada inválida. Por favor, digite um número inteiro."]
      end]
     (apos_escolha resto w)).
Proof.
  intros He Harg. destruct (py_int linha) as [arg|] eqn:Hint.
  - rewrite (turno_numero py_int str_excecao w linha resto arg He Hint).
    destruct (escolhe_casos arg) as [(o & Ho & _)|(_ & ->)].
    + apply operacao_de_faixa in Ho. lia.
    + reflexivity.
  - rewrite (turno_nao_numero py_int str_excecao w linha resto He Hint).
    reflexivity.
Qed.

Lemma turno_escolha_invalida_witness :
  let w := mundo_vivo [] [txt "abc"; txt "5"] in
  turno leitura_amostra str_excecao_amostra w =
  (Retorno false,
   com_eventos
     [match leitura_amostra (txt "abc") with
      | Some _ =>
          Log WARNING [lit "Opção não encontrada! Tente novamente!"]
      | None =>
          Log ERROR
            [lit "Entrada inválida. Por favor, digite um número inteiro."]
      end]
     (apos_escolha [txt "5"] w)).
Proof.
  apply (turno_escolha_invalida leitura_amostra str_excecao_amostra
           (mundo_vivo [] [txt "abc"; txt "5"]) (txt "abc") [txt "5"]).
  - reflexivity.
  - vm_compute. exact I.
Defined.

(** X15.  Option 5 shuts the system down and leaves the loop at once:
    the lines that are still on the console are not read, no row is
    touched, and afterwards the manager is not ready. *)
Theorem opcao_5_encerra (py_int : pystr -> option Z)
    (str_excecao : excecao -> pystr) (w : Mundo) (linha : pystr)
    (resto : list pystr) (n : nat) :
  entrada w = linha :: resto -> py_int linha = Some 5 ->
  let w' := snd (fechar_sistema (apos_escolha resto w)) in
  laco_principal py_int str_excecao (S n) w = (Retorno (Some tt), w') /\
  entrada w' = resto /\ servidor w' = servidor w /\ pronto w' = false.
Proof.
  intros He Harg. cbn zeta.
  destruct (fechar_sistema_depois (apos_escolha resto w))
    as (Hf & Hs & Hen & Hp).
  split; [|split; [exact Hen|split; [exact Hs|exact Hp]]].
  cbn [laco_principal]. unfold bind at 1.
  rewrite (turno_numero py_int str_excecao w linha resto 5 He Harg).
  unfold try_except. change (escolhe 5) with (fechar_sistema ;; ret true).
  unfold bind.
  destruct (fechar_sistema (apos_escolha resto w)) as [[[]|e] w1];
    [reflexivity|discriminate].
Qed.

Lemma opcao_5_encerra_witness :
  let w := mundo_vivo [tarefa_1 (Some (txt "Pendente")) None]
                      [txt "5"; txt "1"] in
  let w' := snd (fechar_sistema (apos_escolha [txt "1"] w)) in
  laco_principal leitura_amostra str_excecao_amostra 1 w
  = (Retorno (Some tt), w') /\
  entrada w' = [txt "1"] /\ servidor w' = servidor w /\ pronto w' = false.
Proof.
  apply (opcao_5_encerra leitura_amostra str_excecao_amostra
           (mundo_vivo [tarefa_1 (Some (txt "Pendente")) None]
                       [txt "5"; txt "1"])
           (txt "5") [txt "1"] 0).
  - reflexivity.
  - vm_compute. reflexivity.
Defined.

(** X16.  An exception other than [ValueError] that escapes an
    operation of the menu ends the program: the last handler logs it
    as critical, shuts the system down and leaves the loop.  The rows
    and the console stay as the operation left them, and the manager is
    not ready afterwards. *)
Theorem erro_inesperado_encerra (py_int : pystr -> option Z)
    (str_excecao : excecao -> pystr) (w : Mundo) (linha : pystr)
    (resto : list pystr) (arg : Z) (o : operacao) (e : excecao)
    (w1 : Mundo) (n : nat) :
  entrada w = linha :: resto -> py_int linha = Some arg ->
  operacao_de arg = Some o ->
  executa o (apos_escolha resto w) = (Levanta e, w1) ->
  e <> ValueError ->
  let w2 := snd (fechar_sistema
                   (com_eventos [erro_inesperado str_excecao e] w1)) in
  laco_principal py_int str_excecao (S n) w = (Retorno (Some tt), w2) /\
  servidor w2 = servidor w1 /\ entrada w2 = entrada w1 /\
  pronto w2 = false.
Proof.
  intros He Harg Ho Hrun Hne. cbn zeta.
  destruct (fechar_sistema_depois
              (com_eventos [erro_inesperado str_excecao e] w1))
    as (Hf & Hs & Hen & Hp).
  split; [|split; [exact Hs|split; [exact Hen|exact Hp]]].
  cbn [laco_principal]. unfold bind at 1.
  rewrite (turno_numero py_int str_excecao w linha resto arg He Harg).
  unfold try_except. rewrite (escolhe_operacao arg o Ho).
  unfold bind at 1. rewrite Hrun.
  rewrite (trata_inesperado str_excecao e w1 Hne). unfold bind.
  destruct (fechar_sistema (com_eventos [erro_inesperado str_excecao e] w1))
    as [[[]|e'] w2]; [reflexivity|discriminate].
Qed.

Lemma erro_inesperado_encerra_witness :
  let w1 := snd (executa Atualizar
                   (apos_escolha [txt "1"; []; []; []; []]
                      mundo_menu_status_nulo)) in
  let w2 := snd (fechar_sistema
                   (com_eventos
                      [erro_inesperado str_excecao_amostra AttributeError]
                      w1)) in
  laco_principal leitura_amostra str_excecao_amostra 1 mundo_menu_status_nulo
  = (Retorno (Some tt), w2) /\
  servidor w2 = servidor w1 /\ entrada w2 = entrada w1 /\
  pronto w2 = false.
Proof.
  apply (erro_inesperado_encerra leitura_amostra str_excecao_amostra
           mundo_menu_status_nulo (txt "3") [txt "1"; []; []; []; []]
           3 Atualizar AttributeError
           (snd (executa Atualizar
                   (apos_escolha [txt "1"; []; []; []; []]
                      mundo_menu_status_nulo))) 0).
  - reflexivity.
  - vm_compute. reflexivity.
  - reflexivity.
  - vm_compute. reflexivity.
  - discriminate.
Defined.

(** X17.  [main] always ends.  Whatever [connect] answers, whatever
    the lines of a finite console are and whatever the backend does, a
    run of [main] returns within one turn of the loop per line of the
    console, plus one: every turn that does not leave the loop takes a
    line, and the end of the console raises [EOFError] at the prompt,
    which the last handler turns into a shutdown.  At the end the
    manager is not ready (the connection was closed, or never there),
    the last record is "Sistema encerrado" (or, without a connection,
    the critical record of [main]), and a table that satisfied the
    invariant of status and completion timestamp still does. *)
Theorem main_sempre_termina (py_int : pystr -> option Z)
    (str_excecao : excecao -> pystr) (r : connect_resultado) (n : nat)
    (w : Mundo) :
  (List.length (entrada w) < n)%nat ->
  exists w',
    main py_int str_excecao r n w = (Retorno (Some tt), w') /\
    pronto w' = false /\
    (invariante (servidor w) -> invariante (servidor w')) /\
    exists antes,
      eventos w' =
        eventos w ++ antes ++
        [match r with
         | ConnectObjeto true => sistema_encerrado
         | _ =>
             Log CRITICAL
               [lit "Encerrando o programa devido a falha na conexão com o Banco de dados!"]
         end].
Proof.
  intros Hlen.
  assert (Hsem : r <> ConnectObjeto true ->
    exists w',
      main py_int str_excecao r n w = (Retorno (Some tt), w') /\
      pronto w' = false /\ servidor w' = servidor w /\
      exists antes,
        eventos w' =
          eventos w ++ antes ++
          [Log CRITICAL
             [lit "Encerrando o programa devido a falha na conexão com o Banco de dados!"]]).
  { intros Hr. unfold main. unfold bind at 1.
    rewrite (construtor_sem_gateway r w Hr).
    unfold is_bd_ready, logging, emite, bind, get, ret. cbn.
    eexists. split; [reflexivity|]. cbn. split; [reflexivity|].
    split; [reflexivity|]. eexists. rewrite <- app_assoc. reflexivity. }
  destruct r as [e|[|]].
  - destruct Hsem as (w' & Hrun & Hp & Hs & Hev); [discriminate|].
    exists w'. split; [exact Hrun|]. split; [exact Hp|].
    split; [now rewrite Hs|exact Hev].
  - destruct (construtor_conectado w)
      as (w0 & Hrun0 & Hs0 & He0 & Hb0 & Hba0 & (meio & Hm) & _).
    destruct (laco_principal_passo py_int str_excecao n w0 Hb0
                ltac:(now rewrite He0))
      as (w' & Hrun & Hbd' & Hinv & Hen).
    exists w'. split.
    + unfold main. unfold bind at 1. rewrite Hrun0.
      unfold is_bd_ready, bind, get, ret. rewrite Hb0, Hba0. cbn.
      exact Hrun.
    + destruct (encerrou_depois w w0 w' ltac:(eexists; exact Hm) Hen)
        as (Hc & Hev).
      split; [unfold pronto; rewrite Hc; apply andb_false_r|].
      split; [now rewrite <- Hs0|exact Hev].
  - destruct Hsem as (w' & Hrun & Hp & Hs & Hev); [discriminate|].
    exists w'. split; [exact Hrun|]. split; [exact Hp|].
    split; [now rewrite Hs|exact Hev].
Qed.

Lemma main_sempre_termina_witness :
  exists w',
    main leitura_amostra str_excecao_amostra (ConnectObjeto true) 3
      (mundo_vivo [] [txt "2"; txt "abc"])
    = (Retorno (Some tt), w') /\
    pronto w' = false /\
    (invariante (servidor (mundo_vivo [] [txt "2"; txt "abc"])) ->
     invariante (servidor w')) /\
    exists antes,
      eventos w' =
        eventos (mundo_vivo [] [txt "2"; txt "abc"]) ++ antes ++
        [sistema_encerrado].
Proof.
  apply (main_sempre_termina leitura_amostra str_excecao_amostra
           (ConnectObjeto true) 3 (mundo_vivo [] [txt "2"; txt "abc"])).
  cbn. lia.
Defined.

(* ================================================================== *)
(** ** Further properties: what the gateway and the operations never do *)

Lemma gateway_morto (c : sql) (ps : tupla) (w : Mundo) :
  conexao_ativa (banco w) = false \/ tem_cursor (banco w) = false ->
  executar_comando c ps w =
    (Retorno tt,
     com_eventos
       [Executar c ps;
        Log ERROR
          [lit "Erro: Não há conexão ativa com o banco de dados para executar o comando."]]
       w) /\
  buscar_dados c ps w =
    (Retorno [],
     com_eventos
       [Buscar c ps;
        Log ERROR
          [lit "Erro: Não há conexão ativa com o banco de dados para buscar dados."]]
       w).
Proof.
  intros H.
  assert (Hg : negb (conexao_ativa (banco w)) || negb (tem_cursor (banco w))
               = true).
  { destruct H as [-> | ->]; [reflexivity|apply orb_true_r]. }
  unfold executar_comando, buscar_dados, logging, emite, bind, get, ret,
    com_eventos.
  cbn. rewrite Hg. cbn. rewrite <- !app_assoc. split; reflexivity.
Qed.

(** X18.  The gateway never sends a statement through a connection
    that is not live: without an active connection or without a cursor,
    [executar_comando] and [buscar_dados] only log their error (and the
    query hands back no row).  On a gateway in working order a
    statement that the backend accepts is sent, then committed, and
    nothing is logged; and when the commit raises, the error is logged
    after the commit was tried and is not propagated. *)
Theorem gateway_envia_so_com_conexao (c : sql) (ps : tupla) (w : Mundo) :
  (conexao_ativa (banco w) = false \/ tem_cursor (banco w) = false ->
   executar_comando c ps w =
     (Retorno tt,
      com_eventos
        [Executar c ps;
         Log ERROR
           [lit "Erro: Não há conexão ativa com o banco de dados para executar o comando."]]
        w) /\
   buscar_dados c ps w =
     (Retorno [],
      com_eventos
        [Buscar c ps;
         Log ERROR
           [lit "Erro: Não há conexão ativa com o banco de dados para buscar dados."]]
        w)) /\
  (forall s' r,
     saudavel w -> sem_sql c ps (servidor w) = Some (s', r) ->
     fst (executar_comando c ps w) = Retorno tt /\
     servidor (snd (executar_comando c ps w)) = s' /\
     rastro (executar_comando c ps) w =
       [Executar c ps; CursorExecute c ps; ConexaoCommit]) /\
  (forall s' r e fs,
     conexao_ativa (banco w) = true -> cursor_aberto (banco w) = true ->
     falhas w = None :: Some e :: fs ->
     sem_sql c ps (servidor w) = Some (s', r) ->
     fst (executar_comando c ps w) = Retorno tt /\
     rastro (executar_comando c ps) w =
       [Executar c ps; CursorExecute c ps; ConexaoCommit;
        Log ERROR [lit "Erro ao executar comando '"; FmtSql c; lit "' : ";
                   FmtErro e]]).
Proof.
  split; [apply gateway_morto|]. split.
  - intros s' r Hw Hsem.
    pose proof (executar_comando_vivo c ps w s' r Hw Hsem) as Hrun.
    rewrite Hrun. cbn [fst snd servidor]. split; [reflexivity|].
    split; [reflexivity|]. apply rastro_app. now rewrite Hrun.
  - intros s' r e fs Ha Hc Hf Hsem.
    exact (executar_comando_falha_commit c ps w e fs s' r Ha Hc Hf Hsem).
Qed.

Lemma gateway_envia_so_com_conexao_witness :
  executar_comando SQL_DELETE [VStr (txt "1")] mundo_desconectado =
    (Retorno tt,
     com_eventos
       [Executar SQL_DELETE [VStr (txt "1")];
        Log ERROR
          [lit "Erro: Não há conexão ativa com o banco de dados para executar o comando."]]
       mundo_desconectado).
Proof.
  destruct (gateway_envia_so_com_conexao SQL_DELETE [VStr (txt "1")]
              mundo_desconectado) as (H & _).
  destruct (H (or_introl eq_refl)) as (H1 & _). exact H1.
Defined.

(** X19.  The listing only reads, in every world: it returns, takes no
    line from the console, leaves the table as it is, and nothing in
    its run is a prompt, a warning, a statement that changes rows or a
    commit. *)
Theorem listagem_so_le (w : Mundo) :
  fst (exibir_tarefas w) = Retorno tt /\
  servidor (snd (exibir_tarefas w)) = servidor w /\
  entrada (snd (exibir_tarefas w)) = entrada w /\
  forallb ev_leitura (rastro exibir_tarefas w) = true /\
  forallb sem_mutacao (rastro exibir_tarefas w) = true.
Proof.
  destruct (exibir_tarefas_spec w)
    as (w' & Hrun & (_ & He & _) & Hs & (n & Hn & Fn) & _).
  assert (Hr : rastro exibir_tarefas w = n)
    by (apply rastro_app; now rewrite Hrun).
  rewrite Hrun, Hr. cbn [fst snd]. split; [reflexivity|].
  split; [exact Hs|]. split; [exact He|]. split; [exact Fn|].
  eapply forallb_mais; [exact sem_mutacao_leitura|exact Fn].
Qed.

(** X20.  A create never changes or removes a stored row, in any world
    and whatever the backend does: the table afterwards is the table
    before, followed by at most one row, and such a row has the next id
    of the table, a title of twelve characters or more, status
    [Pendente], a creation timestamp and no completion timestamp. *)
Theorem cadastro_so_acrescenta (w : Mundo) :
  exists novas,
    tabela (servidor (snd (cadastrar_tarefa w)))
    = tabela (servidor w) ++ novas /\
    (List.length novas <= 1)%nat /\
    forall l, In l novas ->
      col_id l = prox_id (servidor w) /\
      (12 <= List.length (col_titulo l))%nat /\
      col_status l = Some (txt "Pendente") /\
      col_data_criacao l <> None /\
      col_data_conclusao l = None.
Proof.
  destruct (cadastrar_tarefa w) as [r w'] eqn:Hrun. cbn [snd].
  destruct (cadastrar_tarefa_desfecho w r w' Hrun)
    as [(Hs & _)|(c1 & t & d & p & r1 & mid & _ & _ & Ht & _ & _ & _ & _ & _
                  & [Hs|(x & Hsem)])].
  - exists []. rewrite Hs, app_nil_r. split; [reflexivity|].
    split; [cbn; lia|]. intros l [].
  - exists []. rewrite Hs, app_nil_r. split; [reflexivity|].
    split; [cbn; lia|]. intros l [].
  - unfold sem_sql in Hsem. cbn in Hsem. injection Hsem as <- _.
    eexists. split; [reflexivity|]. split; [cbn; lia|].
    intros l [<-|[]]. cbn. repeat split; [exact Ht|discriminate].
Qed.

(** X21.  A delete never adds or changes a row, in any world and
    whatever the backend does: either the table is left as it was, or
    the first line of the console was read as the id and the table
    afterwards is the table before without the rows whose id prints as
    that line. *)
Theorem exclusao_so_remove (w : Mundo) :
  tabela (servidor (snd (excluir_tarefa w))) = tabela (servidor w) \/
  exists idt resto,
    entrada w = idt :: resto /\
    tabela (servidor (snd (excluir_tarefa w))) =
      filter (fun r => negb (PyStr.eqb (str_int (col_id r)) idt))
             (tabela (servidor w)).
Proof.
  destruct (excluir_tarefa w) as [r w'] eqn:Hrun. cbn [snd].
  destruct (excluir_tarefa_desfecho w r w' Hrun)
    as [(Hs & _)|(idt & resto & pre & mid & He & _ & _ & _ & _ & _ & _
                  & [Hs|(x & Hsem)])].
  - left. now rewrite Hs.
  - left. now rewrite Hs.
  - right. exists idt, resto. split; [exact He|].
    unfold sem_sql in Hsem. injection Hsem as <- _. reflexivity.
Qed.
